(** * A shallow embedding of the fake MDS Provider data generator

    This development models [mds/fake/util.py], [mds/fake/geometry.py]
    and [mds/fake/provider.py] ([ProviderDataGenerator]).

    Modelling choices:
    - Python floats and datetimes are exact rationals [Q]; a datetime is its
      number of seconds.
    - Device dicts are Python objects shared between lists and mutated in
      place ([recharge_battery], [drain_battery]); they live in a heap of
      objects, and lists hold references (indices into the heap).
    - All randomness is read from a tape: the successive results of
      [random.random()].  Distributions are built from it as [random.py]
      builds them ([uniform], [randrange], [choices], [sample]); the samplers
      of continuous distributions that need logarithms ([gammavariate],
      [scipy.stats.rayleigh]) and [uuid.uuid4] are abstracted by one draw
      mapped onto their support.
    - The unbounded [while] loops of [geometry.py] run on fuel; running out
      of fuel is the outcome [OutOfFuel] (no result yet), distinct from a
      raised exception.
    - The great-circle formula and [math.sqrt] are real-number functions;
      they are section variables [destination] and [sqrt]. *)

From Stdlib Require Import String Ascii List Bool ZArith QArith Qround Lia Lqa Permutation.
Import ListNotations.
Open Scope string_scope.
Open Scope Q_scope.

(** ** Results, state and the monad *)

Inductive exn : Type :=
| ValueError | KeyError | IndexError | NameError | TypeError | ZeroDivisionError.

(** A stream of draws: the successive results of [random.random()], or
    the entropy [uuid.uuid4()] reads from [os.urandom]. *)
Definition tape := nat -> Q.

(** Python values as stored in the heap: the device dicts. *)
Record device := mkDevice {
  provider_id : string;
  provider_name : string;
  device_id : string;
  vehicle_id : string;
  vehicle_type : string;
  propulsion_type : option (list string);  (* key [PROPULSION] *)
  battery_pct : option Q;                  (* key [BATTERY] *)
  dev_event_time : option Q                (* key [EVENT_TIME] *)
}.

Record state := mkState { heap : list device; rnd : tape; urnd : tape }.

Inductive result (A : Type) : Type :=
| Ok (a : A) (s : state)
| Raise (e : exn)
| OutOfFuel.
Arguments Ok {A} a s.
Arguments Raise {A} e.
Arguments OutOfFuel {A}.

Definition M (A : Type) : Type := state -> result A.

Definition ret {A} (a : A) : M A := fun s => Ok a s.
Definition bind {A B} (c : M A) (k : A -> M B) : M B :=
  fun s => match c s with
           | Ok a s' => k a s'
           | Raise e => Raise e
           | OutOfFuel => OutOfFuel
           end.
Definition raise {A} (e : exn) : M A := fun _ => Raise e.
Definition out_of_fuel {A} : M A := fun _ => OutOfFuel.

Notation "x <- c ;; k" := (bind c (fun x => k))
  (at level 61, c at next level, right associativity).
Notation "' p <- c ;; k" := (bind c (fun x => match x with p => k end))
  (at level 61, p pattern, c at next level, right associativity).
Notation "c ;;; k" := (bind c (fun _ => k)) (at level 61, right associativity).

(** *** Heap of Python objects *)

Definition ref := nat.

Fixpoint list_set {A} (l : list A) (n : nat) (x : A) : list A :=
  match l, n with
  | [], _ => []
  | _ :: t, O => x :: t
  | h :: t, S n' => h :: list_set t n' x
  end.

(** [d = heap[r]]; a dangling reference cannot occur in the generator. *)
Definition deref (r : ref) : M device :=
  fun s => match nth_error (heap s) r with
           | Some d => Ok d s
           | None => Raise KeyError
           end.

Definition store (r : ref) (d : device) : M unit :=
  fun s => Ok tt (mkState (list_set (heap s) r d) (rnd s) (urnd s)).

Definition alloc (d : device) : M ref :=
  fun s => Ok (length (heap s)) (mkState (app (heap s) [d]) (rnd s) (urnd s)).

Definition get_heap : M (list device) := fun s => Ok (heap s) s.

(** ** Python helpers *)

Definition Qltb (a b : Q) : bool := negb (Qle_bool b a).

(** [int(x)] on a float: truncation towards zero. *)
Definition py_int (q : Q) : Z :=
  if Qle_bool 0 q then Qfloor q else (- Qfloor (- q))%Z.

(** Python 3.11 [operator.index] fallback of [randrange]: an integral
    float is accepted, any other raises [ValueError]. *)
Definition py_index (q : Q) : M Z :=
  if Qeq_bool (inject_Z (Qfloor q)) q then ret (Qfloor q) else raise ValueError.

Fixpoint substring_in (needle hay : string) : bool :=
  String.prefix needle hay ||
  match hay with
  | EmptyString => false
  | String _ rest => substring_in needle rest
  end.

Definition opt_Qeqb (a b : option Q) : bool :=
  match a, b with
  | Some x, Some y => Qeq_bool x y
  | None, None => true
  | _, _ => false
  end.

Fixpoint list_string_eqb (a b : list string) : bool :=
  match a, b with
  | [], [] => true
  | x :: a', y :: b' => String.eqb x y && list_string_eqb a' b'
  | _, _ => false
  end.

Definition opt_list_eqb (a b : option (list string)) : bool :=
  match a, b with
  | Some x, Some y => list_string_eqb x y
  | None, None => true
  | _, _ => false
  end.

(** [==] on device dicts: same keys, equal values ([1.0 == 1]). *)
Definition device_eqb (a b : device) : bool :=
  String.eqb (provider_id a) (provider_id b) &&
  String.eqb (provider_name a) (provider_name b) &&
  String.eqb (device_id a) (device_id b) &&
  String.eqb (vehicle_id a) (vehicle_id b) &&
  String.eqb (vehicle_type a) (vehicle_type b) &&
  opt_list_eqb (propulsion_type a) (propulsion_type b) &&
  opt_Qeqb (battery_pct a) (battery_pct b) &&
  opt_Qeqb (dev_event_time a) (dev_event_time b).

(** [lst.index(x)] for a list of references, comparing the objects. *)
Fixpoint index_of (h : list device) (l : list ref) (d : device) : option nat :=
  match l with
  | [] => None
  | r :: t =>
      match nth_error h r with
      | Some d' => if device_eqb d' d then Some O
                   else option_map S (index_of h t d)
      | None => option_map S (index_of h t d)
      end
  end.

Definition list_index (l : list ref) (d : device) : M nat :=
  h <- get_heap ;;
  match index_of h l d with Some i => ret i | None => raise ValueError end.

(** [x in lst] *)
Definition mem_of (h : list device) (l : list ref) (d : device) : bool :=
  match index_of h l d with Some _ => true | None => false end.

Fixpoint remove_at {A} (l : list A) (n : nat) : list A :=
  match l, n with
  | [], _ => []
  | _ :: t, O => t
  | h :: t, S n' => h :: remove_at t n'
  end.

(** [lst[i]], raising [IndexError] out of range. *)
Definition get_at {A} (l : list A) (i : nat) : M A :=
  match nth_error l i with Some x => ret x | None => raise IndexError end.

(** [lst[i] = x], raising [IndexError] out of range. *)
Definition set_at {A} (l : list A) (i : nat) (x : A) : M (list A) :=
  if Nat.ltb i (length l) then ret (list_set l i x) else raise IndexError.

Fixpoint mapM {A B} (f : A -> M B) (l : list A) : M (list B) :=
  match l with
  | [] => ret []
  | x :: t => y <- f x ;; ys <- mapM f t ;; ret (y :: ys)
  end.

(** ** [random]: distributions built on the tape of [random.random()] *)

Module Random.

(** [random.random()]: the next draw, read as a float of [[0, 1)]. *)
Definition random : M Q :=
  fun s => let u := rnd s O in
           let u' := if Qle_bool 0 u && Qltb u 1 then u else 0 in
           Ok u' (mkState (heap s) (fun n => rnd s (S n)) (urnd s)).

(** [random.uniform(a, b)]: [a + (b - a) * random()]. *)
Definition uniform (a b : Q) : M Q :=
  u <- random ;; ret (a + (b - a) * u).

(** [_randbelow(n)] for [n > 0]. *)
Definition randbelow (n : Z) : M Z :=
  u <- random ;; ret (Qfloor (u * inject_Z n)).

(** [random.randrange(start, stop)]. *)
Definition randrange (start stop : Z) : M Z :=
  let width := (stop - start)%Z in
  if (0 <? width)%Z then (r <- randbelow width ;; ret (start + r)%Z)
  else raise ValueError.

(** [random.randint(a, b)] on ints. *)
Definition randint (a b : Z) : M Z := randrange a (b + 1).

(** [random.randint(a, b)] called with floats (Python 3.11 accepts
    integral floats in [randrange]). *)
Definition randint_float (a b : Q) : M Z :=
  ia <- py_index a ;; ib <- py_index (b + 1) ;; randrange ia ib.

(** [random.choice(seq)] on a non-empty list. *)
Definition choice {A} (d : A) (seq : list A) : M A :=
  match seq with
  | [] => raise IndexError
  | _ => i <- randbelow (Z.of_nat (List.length seq)) ;;
         ret (nth (Z.to_nat i) seq d)
  end.

(** [random.choices([True, False], weights=[w0, w1], k=1)[0]]: with
    [cum_weights = [w0, w0 + w1]], [bisect(cum_weights, random() * total, 0, 1)]. *)
Definition choices_weighted (w0 w1 : Q) : M bool :=
  let total := w0 + w1 in
  if Qle_bool total 0 then raise ValueError
  else u <- random ;; ret (Qltb (u * total) w0).

(** [random.choices(population, k=k)] without weights. *)
Fixpoint choices {A} (d : A) (population : list A) (k : nat) : M (list A) :=
  match k with
  | O => ret []
  | S k' =>
      u <- random ;;
      let i := Qfloor (u * inject_Z (Z.of_nat (List.length population))) in
      rest <- choices d population k' ;;
      ret (nth (Z.to_nat i) population d :: rest)
  end.

(** The pool loop of [random.sample]: [for i in range(k): j = _randbelow(n - i);
    result[i] = pool[j]; pool[j] = pool[n - i - 1]]. *)
Fixpoint sample_pool {A} (d : A) (pool : list A) (m : nat) (k : nat) : M (list A) :=
  match k with
  | O => ret []
  | S k' =>
      j <- randbelow (Z.of_nat m) ;;
      let x := nth (Z.to_nat j) pool d in
      let pool' := list_set pool (Z.to_nat j) (nth (m - 1) pool d) in
      rest <- sample_pool d pool' (m - 1) k' ;;
      ret (x :: rest)
  end.

(** [random.sample(population, k)].  The set-based branch that
    [random.py] takes for large populations selects [k] distinct positions
    as well; only the pool branch is modelled. *)
Definition sample {A} (d : A) (population : list A) (k : Z) : M (list A) :=
  let n := List.length population in
  if (0 <=? k)%Z && (k <=? Z.of_nat n)%Z
  then sample_pool d population n (Z.to_nat k)
  else raise ValueError.

(** [random.gammavariate(alpha, beta)]: abstracted by one draw [u] mapped
    onto the support [[0, oo)] as [beta * u / (1 - u)]. *)
Definition gammavariate (alpha beta : Q) : M Q :=
  u <- random ;; ret (beta * (u / (1 - u))).

(** [scipy.stats.rayleigh.rvs(scale=scale)]: abstracted like [gammavariate]. *)
Definition rayleigh_rvs (scale : Q) : M Q :=
  u <- random ;; ret (scale * (u / (1 - u))).

(** [uuid.uuid4()]: one draw from the [os.urandom] stream, which is not
    the tape of [random]. *)
Definition uuid4 : M Q :=
  fun s => Ok (urnd s O) (mkState (heap s) (rnd s) (fun n => urnd s (S n))).

End Random.

(** ** [mds/fake/util.py] *)

Module Util.

(** [random_date_from(date, min_td=None, max_td=None)]; a timedelta
    argument is given by its [total_seconds()]. *)
Definition random_date_from (date : Q) (min_td max_td : option Q) : M Q :=
  '(mn, mx) <-
    match min_td, max_td with
    | None, None =>
        a <- Random.randint (-3600) 3600 ;;
        b <- Random.randint (-3600) 3600 ;;
        ret (inject_Z a, inject_Z b)
    | Some mn, None =>
        b <- Random.randint_float mn 3600 ;; ret (mn, inject_Z b)
    | None, Some mx =>
        a <- Random.randint_float 0 mx ;; ret (inject_Z a, mx)
    | Some mn, Some mx => ret (mn, mx)
    end ;;
  offset <- Random.uniform mn mx ;;
  ret (date + offset).

Definition ascii_uppercase_digits : list ascii :=
  list_ascii_of_string "ABCDEFGHIJKLMNOPQRSTUVWXYZ0123456789".

(** [random_string(k)] with the default alphabet. *)
Definition random_string (k : nat) : M string :=
  cs <- Random.choices "A"%char ascii_uppercase_digits k ;;
  ret (string_of_list_ascii cs).

Definition is_space (c : ascii) : bool :=
  match nat_of_ascii c with
  | 32 | 9 | 10 | 11 | 12 | 13 => true
  | _ => false
  end%nat.

(** [str.split()]: words separated by runs of whitespace. *)
Fixpoint split_words (cs : list ascii) (cur : list ascii) : list string :=
  match cs with
  | [] => match cur with [] => [] | _ => [string_of_list_ascii (rev cur)] end
  | c :: t =>
      if is_space c
      then match cur with
           | [] => split_words t []
           | _ => string_of_list_ascii (rev cur) :: split_words t []
           end
      else split_words t (c :: cur)
  end.

Definition lower_ascii (c : ascii) : ascii :=
  let n := nat_of_ascii c in
  if (Nat.leb 65 n && Nat.leb n 90)%nat then ascii_of_nat (n + 32) else c.

Definition str_lower (s : string) : string :=
  string_of_list_ascii (map lower_ascii (list_ascii_of_string s)).

(** [random_file_url(company)] *)
Definition random_file_url (company : string) : M string :=
  let url := String.concat "-" (split_words (list_ascii_of_string company) []) in
  s <- random_string 7 ;;
  ret (str_lower ("https://" ++ url ++ ".co/" ++ s ++ ".jpg")).

End Util.

(** ** [mds/fake/geometry.py] and the helpers of [mds/geometry.py] *)

Record point := Point { px : Q; py : Q }.

(** A shapely polygon: its [bounds] and its [contains] test. *)
Record polygon := Polygon {
  bounds : Q * Q * Q * Q;
  contains : point -> bool
}.

(** The GeoJSON feature of [to_feature(point, properties=dict(timestamp=t))]. *)
Record feature := Feature { f_point : point; f_timestamp : Q }.

Definition to_feature (p : point) (timestamp : Q) : feature := Feature p timestamp.
Definition extract_point (f : feature) : point := f_point f.

Module Geometry.

(** [point_within(boundary)]: rejection sampling in the bounding box. *)
Definition compute (boundary : polygon) : M point :=
  let '(min_x, min_y, max_x, max_y) := bounds boundary in
  x <- Random.uniform min_x max_x ;;
  y <- Random.uniform min_y max_y ;;
  ret (Point x y).

Fixpoint point_within_loop (fuel : nat) (boundary : polygon) (p : point) : M point :=
  if contains boundary p then ret p
  else match fuel with
       | O => out_of_fuel
       | S f => p' <- compute boundary ;; point_within_loop f boundary p'
       end.

Definition point_within (fuel : nat) (boundary : polygon) : M point :=
  p <- compute boundary ;; point_within_loop fuel boundary p.

(** The float [2*math.pi]. *)
Definition two_pi : Q := 6283185307179586 # 1000000000000000.

Section PointNearby.

(** The great-circle destination of [point] at [dist] meters along
    [bearing] (the [math.asin]/[math.atan2] formula). *)
Variable destination : point -> Q -> Q -> point.

(** [point_nearby(point, dist, bearing)] without a boundary. *)
Definition point_nearby_free (p : point) (dist : Q) (bearing : option Q) : M point :=
  b <- match bearing with
       | None => Random.uniform 0 two_pi
       | Some b => ret b
       end ;;
  ret (destination p dist b).

(** [for _ in range(MAX_TRIES)]: [inl] the returned point, or [inr] the
    last [end_point] ([None] when the loop ran no iteration). *)
Fixpoint tries (n : nat) (p : point) (dist : Q) (bearing : option Q)
    (boundary : polygon) (last : option point) : M (point + option point) :=
  match n with
  | O => ret (inr last)
  | S n' =>
      e <- point_nearby_free p dist bearing ;;
      if contains boundary e then ret (inl e)
      else tries n' p dist bearing boundary (Some e)
  end.

(** [while not boundary.contains(end_point): dist = dist * 0.9; ...] *)
Fixpoint shrink (fuel : nat) (p : point) (dist : Q) (bearing : option Q)
    (boundary : polygon) (end_point : point) : M point :=
  if contains boundary end_point then ret end_point
  else match fuel with
       | O => out_of_fuel
       | S f =>
           let dist' := dist * (9 # 10) in
           e <- point_nearby_free p dist' bearing ;;
           shrink f p dist' bearing boundary e
       end.

Definition max_tries (bearing : option Q) : nat :=
  match bearing with None => 50 | Some _ => 1 end.

(** [point_nearby(point, dist, bearing=None, boundary=None)] *)
Definition point_nearby (fuel : nat) (p : point) (dist : Q) (bearing : option Q)
    (boundary : option polygon) : M point :=
  match boundary with
  | None => point_nearby_free p dist bearing
  | Some bd =>
      r <- tries (max_tries bearing) p dist bearing bd None ;;
      match r with
      | inl e => ret e
      | inr last =>
          if negb (contains bd p) then raise ValueError
          else match last with
               | None => raise NameError
               | Some e => shrink fuel p dist bearing bd e
               end
      end
  end.

End PointNearby.

End Geometry.

(** [k] successive calls [point_nearby(point, dist, bearing)] without a
    boundary: the end points drawn by the first [k] iterations of the
    [for _ in range(MAX_TRIES)] loop. *)
Fixpoint nearby_attempts (destination : point -> Q -> Q -> point) (k : nat) (p : point)
    (dist : Q) (bearing : option Q) : M (list point) :=
  match k with
  | O => ret []
  | S k' =>
      e <- Geometry.point_nearby_free destination p dist bearing ;;
      es <- nearby_attempts destination k' p dist bearing ;;
      ret (e :: es)
  end.

(** ** [mds/fake/provider.py]: [ProviderDataGenerator] *)

(** A status_change dict [{**device, **status_change}]: the device keys
    (its own [event_time] key overridden by the event's) and the event keys. *)
Record status_change := StatusChange {
  sc_device : device;
  event_type : string;
  event_type_reason : string;
  event_time : Q;
  event_location : feature;
  publication_time : option Q
}.

(** A trip dict [{**device, **trip}] with [BATTERY] and [EVENT_TIME] deleted. *)
Record trip := Trip {
  trip_device : device;
  accuracy : Z;
  trip_id : Q;
  trip_duration : Z;
  trip_distance : Z;
  route : feature * feature;
  start_time : Q;
  end_time : Q;
  trip_publication_time : option Q;
  parking_verification_url : option string;
  standard_cost : option Z;
  actual_cost : option Z
}.

(** The generator's attributes; [version_ge_0_3_0] is
    [self.version >= Version("0.3.0")]. *)
Record generator := Generator {
  boundary : polygon;
  speed : Q;
  version_ge_0_3_0 : bool
}.

Definition set_battery (d : device) (b : option Q) : device :=
  mkDevice (provider_id d) (provider_name d) (device_id d) (vehicle_id d)
           (vehicle_type d) (propulsion_type d) b (dev_event_time d).

Definition set_event_time (d : device) (t : option Q) : device :=
  mkDevice (provider_id d) (provider_name d) (device_id d) (vehicle_id d)
           (vehicle_type d) (propulsion_type d) (battery_pct d) t.

Definition opt_or {A} (a b : option A) : option A :=
  match a with Some _ => a | None => b end.

(** [{**device, **sc}]: the keys of [sc] win; the device keys absent from
    [sc] are added. *)
Definition merge_event (d : device) (sc : status_change) : status_change :=
  let snap := sc_device sc in
  StatusChange
    (mkDevice (provider_id snap) (provider_name snap) (device_id snap)
              (vehicle_id snap) (vehicle_type snap)
              (opt_or (propulsion_type snap) (propulsion_type d))
              (opt_or (battery_pct snap) (battery_pct d)) None)
    (event_type sc) (event_type_reason sc) (event_time sc)
    (event_location sc) (publication_time sc).

Definition TD_HOUR : Q := 3600.

Module Provider.

(** [has_battery(device)]: Python parses the return expression as
    [(BATTERY in device or any(...)) if PROPULSION in device else False]. *)
Definition has_battery (d : device) : bool :=
  match propulsion_type d with
  | Some pts =>
      match battery_pct d with Some _ => true | None => false end
      || existsb (fun pt => substring_in "electric" pt) pts
  | None => false
  end.

(** [recharge_battery(device)]: [device[BATTERY] = 1.0]. *)
Definition recharge_battery (r : ref) : M unit :=
  d <- deref r ;; store r (set_battery d (Some 1)).

(** [drain_battery(device, amount=0.0, rate=0.0)] *)
Definition drain_battery (r : ref) (amount rate : Q) : M unit :=
  d <- deref r ;;
  if has_battery d then
    match battery_pct d with
    | Some b => store r (set_battery d (Some ((b - amount) * (1 - rate))))
    | None => raise KeyError
    end
  else ret tt.

(** [status_change_event(device, event_type, event_type_reason, event_time,
    event_location)] *)
Definition status_change_event (g : generator) (d : device)
    (etype reason : string) (t : Q) (loc : feature) : status_change :=
  StatusChange (set_event_time d None) etype reason t loc
               (if version_ge_0_3_0 g then Some t else None).

Definition start_trip g d t loc := status_change_event g d "reserved" "user_pick_up" t loc.
Definition end_trip g d t loc := status_change_event g d "available" "user_drop_off" t loc.
Definition device_lowbattery g d t loc :=
  status_change_event g d "unavailable" "low_battery" t loc.

(** [make_payload(status_changes=None, trips=None)]: the payload dict as an
    association list in insertion order; [payload[k] = v] replaces. *)
Inductive payload_value :=
| PVersion (v : string)
| PData (key : string) (items : list (status_change + trip)).

Fixpoint dict_set (p : list (string * payload_value)) (k : string)
    (v : payload_value) : list (string * payload_value) :=
  match p with
  | [] => [(k, v)]
  | (k', v') :: t => if String.eqb k k' then (k, v) :: t else (k', v') :: dict_set t k v
  end.

Definition make_payload (version : string) (status_changes : option (list status_change))
    (trips : option (list trip)) : list (string * payload_value) :=
  let payload := [("version", PVersion version)] in
  let payload := match status_changes with
                 | Some scs => dict_set payload "data" (PData "status_changes" (map inl scs))
                 | None => payload
                 end in
  let payload := match trips with
                 | Some ts => dict_set payload "data" (PData "trips" (map inr ts))
                 | None => payload
                 end in
  payload.

(** [date.replace(hour=h)] on a datetime given in seconds. *)
Definition hour_of (t : Q) : Z := Z.modulo (Qfloor (t / 3600)) 24.

Definition replace_hour (date : Q) (h : Z) : M Q :=
  if (0 <=? h)%Z && (h <=? 23)%Z
  then ret (date - inject_Z (hour_of date) * 3600 + inject_Z h * 3600)
  else raise ValueError.

(** [devices(N, provider_name, provider_id=None)].  [vehicle_types] and
    [propulsion_types] are the generator's attributes of those names;
    [show_uuid] is the identifier a [uuid.uuid4()] draw is stored as. *)
Section Devices.

Variable show_uuid : Q -> string.
Variables vehicle_types propulsion_types : list string.

(** [for _ in range(N)] *)
Fixpoint devices_loop (n : nat) (provider_id provider_name : string) : M (list ref) :=
  match n with
  | O => ret []
  | S n' =>
      did <- Random.uuid4 ;;
      vid <- Util.random_string 6 ;;
      vt <- Random.choice EmptyString vehicle_types ;;
      pt <- Random.choice EmptyString propulsion_types ;;
      let device := mkDevice provider_id provider_name (show_uuid did) vid vt
                             (Some [pt]) None None in
      r <- alloc device ;;
      (* ensure electric devices are charged *)
      (if has_battery device then recharge_battery r else ret tt) ;;;
      rest <- devices_loop n' provider_id provider_name ;;
      ret (r :: rest)
  end.

(** [provider_id = provider_id or uuid.uuid4()]: [None] and the empty
    string are falsy. *)
Definition devices (N : Z) (provider_name : string) (provider_id : option string)
    : M (list ref) :=
  pid <- match provider_id with
         | None | Some EmptyString => did <- Random.uuid4 ;; ret (show_uuid did)
         | Some p => ret p
         end ;;
  devices_loop (Z.to_nat N) pid provider_name.

End Devices.

Section Generator.

Variable destination : point -> Q -> Q -> point.  (* the great-circle formula *)
Variable sqrt : Q -> Q.                           (* [math.sqrt] *)
Variable fuel : nat.                              (* bound on the [while] loops *)
Variable g : generator.

(** [start_service(devices, start_time)] *)
Fixpoint start_service (devices : list ref) (start_time : Q) : M (list status_change) :=
  match devices with
  | [] => ret []
  | r :: rest =>
      (* somewhere in the previous :offset: *)
      t <- Util.random_date_from start_time (Some (-7200)) None ;;
      p <- Geometry.point_within fuel (boundary g) ;;
      let feat := to_feature p t in
      d <- deref r ;;
      let service_start := status_change_event g d "available" "service_start" t feat in
      (if has_battery d then recharge_battery r else ret tt) ;;;
      d' <- deref r ;;
      evs <- start_service rest start_time ;;
      ret (merge_event d' service_start :: evs)
  end.

(** [end_service(devices, end_time, locations=None)] *)
Definition end_service (devices : list ref) (end_time : Q)
    (locations : option (list feature)) : M (list status_change) :=
  mapM (fun r =>
    t <- Util.random_date_from end_time None (Some 7200) ;;
    p <- match locations with
         | None => Geometry.point_within fuel (boundary g)
         | Some locs =>
             d <- deref r ;; i <- list_index devices d ;;
             f <- get_at locs i ;; ret (extract_point f)
         end ;;
    let feat := to_feature p t in
    d <- deref r ;;
    let service_end := status_change_event g d "removed" "service_end" t feat in
    ret (merge_event d service_end)) devices.

(** [device_trip(device, event_time=None, event_location=None, end_location=None,
    reference_time=None, min_td=0, max_td=0, speed=None)] *)
Definition device_trip (r : ref) (event_time0 : option Q)
    (event_location0 end_location0 : option feature) (reference_time : option Q)
    (min_td max_td : Q) (speed0 : option Q) : M (list status_change * trip) :=
  et <- match event_time0, reference_time with
        | None, Some rt =>
            t <- Util.random_date_from rt (Some min_td) (Some max_td) ;; ret (Some t)
        | _, _ => ret event_time0
        end ;;
  (* [event_time + timedelta(...)] below raises [TypeError] on [None] *)
  match et with None => raise TypeError | Some et =>
  loc <- match event_location0 with
         | None => p <- Geometry.point_within fuel (boundary g) ;; ret (to_feature p et)
         | Some l => ret l
         end ;;
  let spd := match speed0 with None => speed g | Some v => v end in
  d0 <- deref r ;;
  let sc_start := start_trip g d0 et loc in
  gv <- Random.gammavariate 3 (9 # 2) ;;
  let duration := gv * 60 in
  let distance := duration * spd * (4 # 5) in
  acc <- Random.rayleigh_rvs 5 ;;
  d1 <- deref r ;;
  (if has_battery d1 then
     let amount := spd / 100 in
     let denom := sqrt distance * 200 in
     if Qeq_bool denom 0 then raise ZeroDivisionError
     else drain_battery r amount (distance / denom)
   else ret tt) ;;;
  let end_t := et + duration in
  end_loc <- match end_location0 with
             | None =>
                 ep <- Geometry.point_nearby destination fuel (extract_point loc)
                         distance None (Some (boundary g)) ;;
                 ret (to_feature ep end_t)
             | Some l => ret l
             end ;;
  tid <- Random.uuid4 ;;
  b1 <- Random.choice true [true; false] ;;
  url <- (if b1 then d <- deref r ;; u <- Util.random_file_url (provider_name d) ;; ret (Some u)
          else ret None) ;;
  b2 <- Random.choice true [true; false] ;;
  let std := if b2 then Some (100 + (Qfloor (duration / 60) - 1) * 15)%Z else None in
  b3 <- Random.choice true [true; false] ;;
  act <- (if b3 then s0 <- Random.randint 75 150 ;; rt <- Random.randint 12 20 ;;
                     ret (Some (s0 + (Qfloor (duration / 60) - 1) * rt)%Z)
          else ret None) ;;
  d2 <- deref r ;;
  let sc_end := end_trip g d2 end_t end_loc in
  let tr := Trip (set_event_time (set_battery d2 None) None) (py_int acc) tid
                 (py_int duration) (py_int distance) (loc, end_loc) et end_t
                 (if version_ge_0_3_0 g then Some end_t else None) url std act in
  ret ([merge_event d2 sc_start; merge_event d2 sc_end], tr)
  end.

(** [device_recharged(device, event_time, event_location)] *)
Definition device_recharged (r : ref) (t : Q) (loc : feature) : M status_change :=
  recharge_battery r ;;;
  d <- deref r ;;
  ret (status_change_event g d "available" "maintenance_drop_off" t loc).

(** The [event_times] argument of [devices_recharged]: a datetime or a list. *)
Inductive event_times_arg := TimeRef (t : Q) | TimeList (ts : list Q).

(** The [event_locations] argument: [None], a Feature, or a list. *)
Inductive event_locations_arg :=
| LocNone | LocOne (f : feature) | LocList (fs : list feature).

Definition minute_of (t : Q) : Z := Z.modulo (Qfloor (t / 60)) 60.
Definition second_of (t : Q) : Z := Z.modulo (Qfloor t) 60.

(** [devices_recharged(devices, event_times, event_locations=None)].  A
    list of another length than [devices] is not a location: Python would
    put the list itself in the event; that ill-typed event is [TypeError]
    here.  A Feature dict has three keys, so [len(event_locations) ==
    len(devices)] holds for three devices and the indexing raises [KeyError]. *)
Definition devices_recharged (devices : list ref) (event_times : event_times_arg)
    (event_locations : event_locations_arg) : M (list status_change) :=
  mapM (fun r =>
    d <- deref r ;;
    t <- match event_times with
         | TimeRef t0 =>
             let diff := ((60 - minute_of t0 - 1) * 60 + (60 - second_of t0))%Z in
             Util.random_date_from t0 None (Some (inject_Z diff))
         | TimeList ts =>
             if Nat.eqb (List.length ts) (List.length devices)
             then i <- list_index devices d ;; get_at ts i
             else raise NameError
         end ;;
    loc <- match event_locations with
           | LocNone => p <- Geometry.point_within fuel (boundary g) ;; ret (to_feature p t)
           | LocList fs =>
               if Nat.eqb (List.length fs) (List.length devices)
               then i <- list_index devices d ;; get_at fs i
               else raise TypeError
           | LocOne f =>
               if Nat.eqb 3 (List.length devices) then raise KeyError else ret f
           end ;;
    device_recharged r t loc) devices.

(** The local variables of the loop of [service_hour]. *)
Record hour_acc := HourAcc {
  h_active : list ref;
  h_removed : list ref;
  h_changes : list status_change;
  h_trips : list trip;
  h_times : list Q;
  h_locations : list feature
}.

(** One iteration of [for device_idx in range(0, len(devices))]. *)
Definition service_hour_step (devices : list ref) (inactivity : Q)
    (acc : hour_acc) (device_idx : nat) : M hour_acc :=
  r <- get_at devices device_idx ;;
  let active := app (h_active acc) [r] in
  location <- get_at (h_locations acc) device_idx ;;
  current_time <- get_at (h_times acc) device_idx ;;
  d <- deref r ;;
  low <- (if has_battery d then
            match battery_pct d with
            | Some b => ret (Qltb b (1 # 5))
            | None => raise KeyError
            end
          else ret false) ;;
  if low then
    let lowbattery := device_lowbattery g d current_time location in
    i <- list_index active d ;;
    rr <- alloc (set_event_time d (Some (event_time lowbattery))) ;;
    ret (HourAcc (remove_at active i) (app (h_removed acc) [rr])
                 (app (h_changes acc) [lowbattery]) (h_trips acc)
                 (h_times acc) (h_locations acc))
  else
    take <- Random.choices_weighted (1 - inactivity) inactivity ;;
    if take then
      '(status, tr) <- device_trip r None (Some location) None (Some current_time)
                         0 TD_HOUR None ;;
      last_sc <- get_at status (List.length status - 1) ;;
      times' <- set_at (h_times acc) device_idx (event_time last_sc) ;;
      locations' <- set_at (h_locations acc) device_idx (event_location last_sc) ;;
      ret (HourAcc active (h_removed acc) (app (h_changes acc) status)
                   (app (h_trips acc) [tr]) times' locations')
    else
      (if has_battery d then
         rate <- Random.uniform 0 (5 # 100) ;; drain_battery r 0 rate
       else ret tt) ;;;
      ret (HourAcc active (h_removed acc) (h_changes acc) (h_trips acc)
                   (h_times acc) (h_locations acc)).

Fixpoint service_hour_loop (devices : list ref) (inactivity : Q)
    (idxs : list nat) (acc : hour_acc) : M hour_acc :=
  match idxs with
  | [] => ret acc
  | i :: rest =>
      acc' <- service_hour_step devices inactivity acc i ;;
      service_hour_loop devices inactivity rest acc'
  end.

(** [service_hour(devices, date, hour, times, locations, inactivity)];
    [date] and [hour] are not read by the body. *)
Definition service_hour (devices : list ref) (date : Q) (hour : Z)
    (times : list Q) (locations : list feature) (inactivity : Q)
    : M (list ref * list Q * list feature * list ref * list status_change * list trip) :=
  acc <- service_hour_loop devices inactivity (seq 0 (List.length devices))
           (HourAcc [] [] [] [] times locations) ;;
  ts <- mapM (fun a => d <- deref a ;; i <- list_index devices d ;;
                       get_at (h_times acc) i) (h_active acc) ;;
  ls <- mapM (fun a => d <- deref a ;; i <- list_index devices d ;;
                       get_at (h_locations acc) i) (h_active acc) ;;
  ret (h_active acc, ts, ls, h_removed acc, h_changes acc, h_trips acc).

(** [[d for d in lst if d not in excluded]] *)
Definition filter_not_in (lst excluded : list ref) : M (list ref) :=
  h <- get_heap ;;
  ds <- mapM deref lst ;;
  ret (map fst (filter (fun p => negb (mem_of h excluded (snd p))) (combine lst ds))).

(** The recharge step of an hour of [service_day] (its lines 157-167):
    returns [recharged], and the updated [active_devices], [times],
    [locations], [removed_devices] and the emitted events. *)
Definition recharge_step (removed_devices active_devices : list ref)
    (times : list Q) (locations : list feature)
    : M (list ref * list ref * list Q * list feature * list ref * list status_change) :=
  n <- Random.randint 0 (Z.of_nat (List.length removed_devices)) ;;
  recharged <- Random.sample O removed_devices n ;;
  if Nat.ltb 0 (List.length recharged) then
    let active' := app active_devices recharged in
    ts <- mapM (fun r => d <- deref r ;;
                         match dev_event_time d with
                         | Some t => ret t
                         | None => raise KeyError
                         end) recharged ;;
    events <- devices_recharged recharged (TimeList ts) LocNone ;;
    removed' <- filter_not_in removed_devices recharged ;;
    ret (recharged, active', app times (map event_time events),
         app locations (map event_location events), removed', events)
  else ret (recharged, active_devices, times, locations, removed_devices, []).

(** The state carried across the hours of [service_day]. *)
Record day_acc := DayAcc {
  d_active : list ref;
  d_times : list Q;
  d_locations : list feature;
  d_removed : list ref;
  d_changes : list status_change;
  d_trips : list trip
}.

(** [for hour in range(hour_open, hour_closed + 1)] *)
Fixpoint service_day_loop (date : Q) (inactivity : Q) (hour : Z) (n : nat)
    (acc : day_acc) : M day_acc :=
  match n with
  | O => ret acc
  | S n' =>
      '(_, active, times, locations, removed, events) <-
        recharge_step (d_removed acc) (d_active acc) (d_times acc) (d_locations acc) ;;
      '(active', times', locations', rem, hour_changes, hour_trips) <-
        service_hour active date hour times locations inactivity ;;
      service_day_loop date inactivity (hour + 1)%Z n'
        (DayAcc active' times' locations' (app removed rem)
                (app (app (d_changes acc) events) hour_changes)
                (app (d_trips acc) hour_trips))
  end.

(** [service_day(devices, date, hour_open, hour_closed, inactivity)] *)
Definition service_day (devices : list ref) (date : Q) (hour_open hour_closed : Z)
    (inactivity : Q) : M (list status_change * list trip) :=
  start_t <- replace_hour date hour_open ;;
  end_t <- replace_hour date hour_closed ;;
  inactive_devices <- Random.sample O devices
                        (py_int (inject_Z (Z.of_nat (List.length devices)) * inactivity)) ;;
  inactive_starts <- start_service inactive_devices start_t ;;
  let inactive_locations := map event_location inactive_starts in
  inactive_ends <- end_service inactive_devices end_t (Some inactive_locations) ;;
  active_devices <- filter_not_in devices inactive_devices ;;
  start_events <- start_service active_devices start_t ;;
  let times := map (fun _ => start_t) start_events in
  let locations := map event_location start_events in
  acc <- service_day_loop date inactivity hour_open
           (Z.to_nat (hour_closed + 1 - hour_open))
           (DayAcc active_devices times locations []
                   (app (app inactive_starts inactive_ends) start_events) []) ;;
  ends <- end_service (d_active acc) end_t (Some (d_locations acc)) ;;
  ret (app (d_changes acc) ends, d_trips acc).

End Generator.
End Provider.

(** ** Helpers for the statements, and concrete inputs *)

Fixpoint lookup {V} (p : list (string * V)) (k : string) : option V :=
  match p with
  | [] => None
  | (k', v) :: t => if String.eqb k k' then Some v else lookup t k
  end.

(** A tape given by its first draws, then [0]. *)
Definition tape_of (l : list Q) : tape := fun n => nth n l 0.

Definition state_of (h : list device) (draws : list Q) : state :=
  mkState h (tape_of draws) (tape_of []).

(** The unit square [[0,1] x [0,1]]. *)
Definition unit_square : polygon :=
  Polygon (0, 0, 1, 1)
    (fun p => Qle_bool 0 (px p) && Qle_bool (px p) 1 &&
              Qle_bool 0 (py p) && Qle_bool (py p) 1).

(** A planar stand-in for the great-circle formula, for concrete runs:
    [dist] meters due east, one degree per 100 km. *)
Definition east_destination (p : point) (dist bearing : Q) : point :=
  Point (px p + dist / 100000) (py p).

(** A second stand-in for concrete runs: the great-circle formula of
    [point_nearby] itself, with [math.sin], [math.cos], [math.asin] and
    [math.atan2] replaced by truncated Taylor series and every intermediate
    result rounded down to 30 decimals. The series are accurate for angles up
    to [pi/2] ([sin], [cos]) and for small arguments ([asin], [atan]), and
    [atan2(y, x)] is taken as [atan(y/x)], right for [x > 0]. *)
Fixpoint horner (cs : list Q) (x : Q) : Q :=
  match cs with
  | [] => 0
  | c :: cs' => c + x * horner cs' x
  end.

Definition round30 (q : Q) : Q := Qfloor (q * inject_Z (10 ^ 30)) # Pos.pow 10 30.

Definition sin_q (x : Q) : Q :=
  round30 (x * horner [1; -1 # 6; 1 # 120; -1 # 5040; 1 # 362880; -1 # 39916800;
                       1 # 6227020800; -1 # 1307674368000] (x * x)).

Definition cos_q (x : Q) : Q :=
  round30 (horner [1; -1 # 2; 1 # 24; -1 # 720; 1 # 40320; -1 # 3628800;
                   1 # 479001600; -1 # 87178291200; 1 # 20922789888000] (x * x)).

Definition asin_q (x : Q) : Q :=
  round30 (x * horner [1; 1 # 6; 3 # 40; 5 # 112; 35 # 1152] (x * x)).

Definition atan_q (x : Q) : Q :=
  round30 (x * horner [1; -1 # 3; 1 # 5; -1 # 7; 1 # 9] (x * x)).

(** The float [math.pi]. *)
Definition pi_q : Q := 3141592653589793 # 1000000000000000.

Definition radians_q (deg : Q) : Q := round30 (deg * pi_q / 180).
Definition degrees_q (rad : Q) : Q := round30 (rad * 180 / pi_q).

(** [lat2 = asin(sin(lat1)*cos(ang_dist) + cos(lat1)*sin(ang_dist)*cos(bearing))],
    [lon2 = lon1 + atan2(sin(bearing)*sin(ang_dist)*cos(lat1),
                         cos(ang_dist) - sin(lat1)*sin(lat2))]. *)
Definition sphere_destination (p : point) (dist bearing : Q) : point :=
  let lat1 := radians_q (py p) in
  let lon1 := radians_q (px p) in
  let ang_dist := dist / 6378100 in
  let lat2 := asin_q (round30 (sin_q lat1 * cos_q ang_dist +
                               cos_q lat1 * sin_q ang_dist * cos_q bearing)) in
  let lon2 := lon1 + atan_q (round30 (sin_q bearing * sin_q ang_dist * cos_q lat1 /
                                      (cos_q ang_dist - sin_q lat1 * sin_q lat2))) in
  Point (degrees_q lon2) (degrees_q lat2).

(** The float [math.pi/2]: due east. *)
Definition half_pi : Q := 15707963267948966 # 10000000000000000.

(** Two Newton steps from [1], a stand-in for [math.sqrt] in concrete runs. *)
Definition newton_sqrt (q : Q) : Q :=
  let x1 := (1 + q) / 2 in (x1 + q / x1) / 2.

Definition bicycle : device :=
  mkDevice "provider" "Provider" "device-1" "ABC123" "bicycle" (Some ["human"]) None None.

Definition scooter : device :=
  mkDevice "provider" "Provider" "device-2" "DEF456" "scooter" (Some ["electric"]) (Some 1) None.

Definition gen_square : generator := Generator unit_square 5 true.

Definition low_scooter : device := set_battery scooter (Some (1 # 10)).

(** ** Frames: which objects an operation may modify *)

(** [h'] extends [h], and every object of [h] is kept, up to its battery,
    which changes only for objects in [X]. *)
Definition heap_frame (X : ref -> Prop) (h h' : list device) : Prop :=
  (List.length h <= List.length h')%nat /\
  forall r d, nth_error h r = Some d ->
    exists b, nth_error h' r = Some (set_battery d b) /\ (X r \/ b = battery_pct d).

(** ** Per-device traces *)

Definition dev0 : device := mkDevice "" "" "" "" "" None None None.
Definition feat0 : feature := Feature (Point 0 0) 0.

(** The events of the device with id [x], in emission order. *)
Definition trace (x : string) (evs : list status_change) : list status_change :=
  filter (fun e => String.eqb (device_id (sc_device e)) x) evs.

(** The events that happen where the device is: a trip starts, the battery
    runs low, the service ends. *)
Definition anchored_reason (e : status_change) : bool :=
  String.eqb (event_type_reason e) "user_pick_up" ||
  String.eqb (event_type_reason e) "low_battery" ||
  String.eqb (event_type_reason e) "service_end".

(** [walk t l evs t' l']: from a device tracked at time [t] and point [l],
    the events [evs] come in non-decreasing time, not before [t]; each
    anchored event is at the point of the event before it; the device is
    then tracked at [t'] and [l'], the time and point of the last event. *)
Fixpoint walk (t : Q) (l : point) (evs : list status_change) (t' : Q) (l' : point) : Prop :=
  match evs with
  | [] => t' = t /\ l' = l
  | e :: rest =>
      t <= event_time e /\
      (anchored_reason e = true -> f_point (event_location e) = l) /\
      walk (event_time e) (f_point (event_location e)) rest t' l'
  end.

Fixpoint nondecreasing (ts : list Q) : Prop :=
  match ts with
  | a :: ((b :: _) as rest) => a <= b /\ nondecreasing rest
  | _ => True
  end.

(** Each anchored event is at the point of the event before it, the first
    one at [l]. *)
Fixpoint anchored (l : point) (evs : list status_change) : Prop :=
  match evs with
  | [] => True
  | e :: rest =>
      (anchored_reason e = true -> f_point (event_location e) = l) /\
      anchored (f_point (event_location e)) rest
  end.

(** The low-battery test of [service_hour]. *)
Definition lowb (d : device) : bool :=
  Provider.has_battery d &&
  match battery_pct d with Some b => Qltb b (1 # 5) | None => false end.

Definition id_at (h : list device) (r : ref) : string :=
  match nth_error h r with Some d => device_id d | None => EmptyString end.

(** What a trip of [service_hour] emits: the pick-up at the tracked location
    and not before the tracked time, then the drop-off, not before it. *)
Definition trip_events_ok (d : device) (t : Q) (l : feature)
    (pu do_ : status_change) (tr : trip) : Prop :=
  device_id (sc_device pu) = device_id d /\ device_id (sc_device do_) = device_id d /\
  device_id (trip_device tr) = device_id d /\
  event_type pu = "reserved" /\ event_type_reason pu = "user_pick_up" /\
  event_type do_ = "available" /\ event_type_reason do_ = "user_drop_off" /\
  t <= event_time pu /\ event_time pu <= event_time do_ /\ event_location pu = l.

(** The loop invariant of [service_hour], after the devices [0 .. j-1] of
    [devices] (whose objects were [ds] in the heap [h0], tracked at the
    times [T0] and locations [L0]). *)
Section HourInvariant.
Variable g : generator.
Variables (devices : list ref) (ds : list device) (T0 : list Q) (L0 : list feature)
          (h0 : list device).

Definition hour_case (k : nat) (acc : Provider.hour_acc) (h : list device) : Prop :=
  let d := nth k ds dev0 in
  let x := device_id d in
  let t0 := nth k T0 0 in
  let l0 := nth k L0 feat0 in
  if lowb d then
    trace x (Provider.h_changes acc) = [Provider.device_lowbattery g d t0 l0] /\
    (exists rr, In rr (Provider.h_removed acc) /\
                nth_error h rr = Some (set_event_time d (Some t0))) /\
    Forall (fun tr => device_id (trip_device tr) <> x) (Provider.h_trips acc)
  else
    walk t0 (f_point l0) (trace x (Provider.h_changes acc))
         (nth k (Provider.h_times acc) 0) (f_point (nth k (Provider.h_locations acc) feat0)).

Definition active_of (j : nat) : list ref :=
  map fst (filter (fun p => negb (lowb (snd p))) (combine (firstn j devices) (firstn j ds))).

Definition hour_inv (j : nat) (acc : Provider.hour_acc) (h : list device) : Prop :=
  List.length (Provider.h_times acc) = List.length devices /\
  List.length (Provider.h_locations acc) = List.length devices /\
  heap_frame (fun r => In r (firstn j devices)) h0 h /\
  (forall k, (j <= k)%nat ->
     nth k (Provider.h_times acc) 0 = nth k T0 0 /\
     nth k (Provider.h_locations acc) feat0 = nth k L0 feat0) /\
  (forall k, (k < j)%nat -> hour_case k acc h) /\
  (forall x, ~ In x (map device_id (firstn j ds)) -> trace x (Provider.h_changes acc) = []) /\
  Forall (fun tr => In (device_id (trip_device tr)) (map device_id (firstn j ds)))
         (Provider.h_trips acc) /\
  Provider.h_active acc = active_of j /\
  Forall (fun rr => (List.length h0 <= rr < List.length h)%nat /\
           exists k, (k < j)%nat /\ lowb (nth k ds dev0) = true /\
             nth_error h rr = Some (set_event_time (nth k ds dev0) (Some (nth k T0 0))))
         (Provider.h_removed acc) /\
  Permutation (map (id_at h) (Provider.h_removed acc))
              (map device_id (filter lowb (firstn j ds))).

End HourInvariant.


(** ** The invariant of the hours of a day *)

(** A status change with default fields, the default of [nth]. *)
Definition sc0 : status_change := StatusChange dev0 "" "" 0 feat0 None.

(** A device whose trace opens with its service start, then walks from
    [start_t] and the point of that event to the time [t'] and point [l']. *)
Definition started (start_t : Q) (x : string) (chg : list status_change)
    (t' : Q) (l' : point) : Prop :=
  exists ss mid, trace x chg = ss :: mid /\
    event_type_reason ss = "service_start" /\
    walk start_t (f_point (event_location ss)) mid t' l'.

(** The invariant of the hours of [service_day], for the devices of ids [X]
    active for the day, the inactive ones [I], the events [C0] emitted
    before the hours, and the heap [h1] at their start. *)
Section DayInvariant.
Variables (start_t : Q) (X : list string) (I : list ref) (C0 : list status_change)
          (h1 : list device).

Definition day_inv (acc : Provider.day_acc) (h : list device) : Prop :=
  List.length (Provider.d_times acc) = List.length (Provider.d_active acc) /\
  List.length (Provider.d_locations acc) = List.length (Provider.d_active acc) /\
  Forall (fun r => (r < List.length h)%nat)
         (app (Provider.d_active acc) (Provider.d_removed acc)) /\
  Permutation (map (id_at h) (app (Provider.d_active acc) (Provider.d_removed acc))) X /\
  (forall p, (p < List.length (Provider.d_active acc))%nat ->
     started start_t (id_at h (nth p (Provider.d_active acc) O)) (Provider.d_changes acc)
             (nth p (Provider.d_times acc) 0)
             (f_point (nth p (Provider.d_locations acc) feat0))) /\
  Forall (fun rr => exists d t l, nth_error h rr = Some d /\ dev_event_time d = Some t /\
            started start_t (device_id d) (Provider.d_changes acc) t l)
         (Provider.d_removed acc) /\
  Forall (fun tr => In (device_id (trip_device tr)) X) (Provider.d_trips acc) /\
  (forall x, ~ In x X -> trace x (Provider.d_changes acc) = trace x C0) /\
  heap_frame (fun r => ~ In r I) h1 h.

End DayInvariant.

(** An integer square root, standing in for [math.sqrt] in concrete runs. *)
Definition isqrt (q : Q) : Q := inject_Z (Z.sqrt (Qfloor q)).

(** Draw tapes of concrete days. *)
Definition day_tape : list Q :=
  [0; 0; 1 # 2; 1 # 2; 0; 0; 9 # 10; 1 # 2; 1 # 2; 0; 1 # 2; 1 # 2; 1 # 2; 0; 0].
Definition recharge_tape : list Q :=
  [0; 0; 1 # 2; 1 # 2; 0; 0; 9 # 10; 24 # 25] ++ repeat (1 # 2) 27.

(** ** Predicates for the other functions of the generator *)

(** The accumulator of [service_hour] holds no trip and only
    [low_battery] events. *)
Definition only_low (acc : Provider.hour_acc) : Prop :=
  Provider.h_trips acc = [] /\
  Forall (fun e => event_type_reason e = "low_battery") (Provider.h_changes acc).

(** After [k] devices of [service_hour]: one trip per active device, and
    each device is either active or removed. *)
Definition all_busy (k : nat) (acc : Provider.hour_acc) : Prop :=
  List.length (Provider.h_active acc) = List.length (Provider.h_trips acc) /\
  (List.length (Provider.h_active acc) + List.length (Provider.h_removed acc) = k)%nat.

(** The fields of a device made by [devices]. *)
Definition device_made (vehicle_types propulsion_types : list string)
    (pid pname : string) (d : device) : Prop :=
  provider_id d = pid /\ provider_name d = pname /\ dev_event_time d = None /\
  String.length (vehicle_id d) = 6%nat /\
  Forall (fun c => In c Util.ascii_uppercase_digits) (list_ascii_of_string (vehicle_id d)) /\
  In (vehicle_type d) vehicle_types /\
  exists p, In p propulsion_types /\ propulsion_type d = Some [p] /\
            battery_pct d = (if substring_in "electric" p then Some 1 else None).

(** An ASCII uppercase letter, which [str.lower()] maps away. *)
Definition is_upper (c : ascii) : bool :=
  (Nat.leb 65 (nat_of_ascii c) && Nat.leb (nat_of_ascii c) 90)%nat.

Definition ascii_lowercase_digits : list ascii :=
  list_ascii_of_string "abcdefghijklmnopqrstuvwxyz0123456789".

(** A second location inside [unit_square]. *)
Definition feat1 : feature := Feature (Point (1 # 2) (1 # 4)) 0.

(** A bicycle removed from service at [30000]. *)
Definition removed_bicycle : device := set_event_time bicycle (Some 30000).

(** * Proofs *)

(** ** Monad lemmas *)

Lemma bind_inv {A B} (c : M A) (k : A -> M B) s b s'' :
  bind c k s = Ok b s'' -> exists a s', c s = Ok a s' /\ k a s' = Ok b s''.
Proof.
  unfold bind. destruct (c s) as [a s'| |]; intros H; try discriminate.
  eauto.
Qed.

Lemma ret_inv {A} (a b : A) s s' : ret a s = Ok b s' -> a = b /\ s = s'.
Proof. unfold ret. intros H; inversion H; auto. Qed.

Ltac inv_ok :=
  repeat match goal with
  | H : bind _ _ _ = Ok _ _ |- _ =>
      apply bind_inv in H; destruct H as (? & ? & ? & H); cbv beta iota zeta in H
  | H : ret _ _ = Ok _ _ |- _ =>
      apply ret_inv in H; destruct H as [? ?]; subst
  | H : raise _ _ = Ok _ _ |- _ => discriminate H
  | H : out_of_fuel _ = Ok _ _ |- _ => discriminate H
  | H : (match ?x with _ => _ end) _ = Ok _ _ |- _ => destruct x eqn:?
  | H : (if ?b then _ else _) _ = Ok _ _ |- _ => destruct b eqn:?
  end.

(** ** C10: [make_payload] *)

(** Claim C10: the payload has the version tag; its [data] entry, when
    present, is one typed array: the trips whenever [trips] is passed (the
    status changes are then dropped), the status changes when only they are
    passed, and no [data] entry when neither is passed. *)
Theorem make_payload_data (version : string) (scs : option (list status_change))
    (ts : option (list trip)) :
  let p := Provider.make_payload version scs ts in
  lookup p "version" = Some (Provider.PVersion version) /\
  lookup p "data" =
    match ts, scs with
    | Some t, _ => Some (Provider.PData "trips" (map inr t))
    | None, Some sc => Some (Provider.PData "status_changes" (map inl sc))
    | None, None => None
    end /\
  List.length p = match ts, scs with None, None => 1%nat | _, _ => 2%nat end.
Proof.
  destruct scs, ts; cbn; repeat split; reflexivity.
Qed.

(** ** C4: [has_battery] *)

(** Claim C4 (the code's behaviour at the failing input): a device that
    carries [battery_pct] but no [propulsion_type] key is reported as having
    no battery, since the conditional expression guards the whole [or]. *)
Theorem has_battery_ignores_battery_without_propulsion :
  let d := mkDevice "provider" "Provider" "device-3" "GHI789" "scooter"
             None (Some (1 # 2)) None in
  battery_pct d <> None /\ Provider.has_battery d = false.
Proof. cbn. split; [discriminate | reflexivity]. Qed.

(** ** C3: battery operations on a device without a battery field *)

(** Claim C3 fails: [recharge_battery] on the bicycle, which has no battery
    field, adds [battery_pct = 1.0] to it. *)
Lemma recharge_battery_adds_field :
  battery_pct bicycle = None /\
  Provider.has_battery bicycle = false /\
  exists s', Provider.recharge_battery O (state_of [bicycle] []) = Ok tt s' /\
             heap s' = [set_battery bicycle (Some 1)] /\
             heap s' <> [bicycle].
Proof.
  split; [reflexivity|]. split; [reflexivity|].
  eexists. split; [reflexivity|]. split; [reflexivity|].
  cbn. intros H. inversion H.
Qed.

(** Claim C3 (corrected): on a device without a battery field for which
    [has_battery] is false, [drain_battery] raises nothing and leaves the
    state unchanged; on any device, [recharge_battery] raises nothing and
    sets [battery_pct] to [1.0], adding the field when it is absent. *)
Theorem battery_ops_without_field (r : ref) (d : device) (s : state)
    (Hd : nth_error (heap s) r = Some d) :
  (forall amount rate, battery_pct d = None -> Provider.has_battery d = false ->
     Provider.drain_battery r amount rate s = Ok tt s) /\
  Provider.recharge_battery r s =
    Ok tt (mkState (list_set (heap s) r (set_battery d (Some 1))) (rnd s) (urnd s)) /\
  battery_pct (set_battery d (Some 1)) = Some 1.
Proof.
  unfold Provider.drain_battery, Provider.recharge_battery, bind, deref.
  rewrite Hd. split; [|split; reflexivity].
  intros amount rate _ Hcap. rewrite Hcap. reflexivity.
Qed.

Lemma battery_ops_without_field_witness :
  nth_error (heap (state_of [bicycle] [])) O = Some bicycle /\
  ((forall amount rate, battery_pct bicycle = None -> Provider.has_battery bicycle = false ->
      Provider.drain_battery O amount rate (state_of [bicycle] []) =
        Ok tt (state_of [bicycle] [])) /\
   Provider.recharge_battery O (state_of [bicycle] []) =
     Ok tt (mkState (list_set (heap (state_of [bicycle] [])) O (set_battery bicycle (Some 1)))
              (rnd (state_of [bicycle] [])) (urnd (state_of [bicycle] []))) /\
   battery_pct (set_battery bicycle (Some 1)) = Some 1).
Proof.
  split; [reflexivity|].
  apply (battery_ops_without_field O bicycle); reflexivity.
Defined.

(** ** C5: the time of [service_start] *)

(** Claim C5 (the code's behaviour at the failing input): [start_service]
    passes only [min_td = -7200] to [random_date_from], which then draws
    [max_td] from [randint(-7200, 3600)]; with the draws [0.9] and [0.99]
    the service_start of the bicycle falls 2422.8 s after the opening time
    [28800] (8:00). *)
Theorem start_service_after_open :
  exists evs s',
    Provider.start_service 10 gen_square [O] 28800
      (state_of [bicycle] [9 # 10; 99 # 100; 1 # 2; 1 # 2]) = Ok evs s' /\
    exists e, evs = [e] /\ event_type_reason e = "service_start" /\
              event_time e == 28800 + (24228 # 10) /\ 28800 < event_time e.
Proof.
  do 2 eexists. split; [vm_compute; reflexivity|].
  eexists. split; [reflexivity|].
  split; [reflexivity|]. split; vm_compute; reflexivity.
Qed.

(** ** C6: [point_nearby] with a boundary *)

Lemma Qltb_true a b : Qltb a b = true -> a < b.
Proof.
  unfold Qltb. intros H. apply negb_true_iff in H.
  apply Qnot_le_lt. intros H'. apply Qle_bool_iff in H'. congruence.
Qed.

Lemma Qltb_false a b : Qltb a b = false -> b <= a.
Proof. unfold Qltb. intros H. apply negb_false_iff, Qle_bool_iff in H. exact H. Qed.

Lemma random_ok s : exists u s', Random.random s = Ok u s' /\ 0 <= u /\ u < 1 /\ heap s' = heap s.
Proof.
  unfold Random.random. do 2 eexists. split; [reflexivity|].
  destruct (Qle_bool 0 (rnd s O) && Qltb (rnd s O) 1) eqn:E.
  - apply andb_true_iff in E as [E1 E2].
    apply Qle_bool_iff in E1. apply Qltb_true in E2. auto.
  - repeat split; try reflexivity; lra.
Qed.

Lemma random_inv s u s' : Random.random s = Ok u s' -> 0 <= u /\ u < 1 /\ heap s' = heap s.
Proof.
  destruct (random_ok s) as (u' & s'' & H & H1 & H2 & H3). intros H'.
  rewrite H in H'. inversion H'; subst. auto.
Qed.

Lemma uniform_ok a b s : exists v s', Random.uniform a b s = Ok v s' /\ heap s' = heap s.
Proof.
  unfold Random.uniform. destruct (random_ok s) as (u & s1 & H & _ & _ & Hh).
  unfold bind. rewrite H. eexists; eexists; split; [reflexivity| exact Hh].
Qed.

Section PointNearbySpec.
Variable destination : point -> Q -> Q -> point.

Lemma point_nearby_free_ok p dist bearing s :
  exists e s', Geometry.point_nearby_free destination p dist bearing s = Ok e s'.
Proof.
  unfold Geometry.point_nearby_free. destruct bearing as [b|].
  - cbn. eauto.
  - destruct (uniform_ok 0 Geometry.two_pi s) as (v & s1 & H & _).
    unfold bind. rewrite H. cbn. eauto.
Qed.

Lemma tries_ok n p dist bearing bd last s :
  exists r s', Geometry.tries destination n p dist bearing bd last s = Ok r s'.
Proof.
  revert last s. induction n as [|n IH]; intros last s; cbn.
  - unfold ret. eauto.
  - destruct (point_nearby_free_ok p dist bearing s) as (e & s1 & H).
    unfold bind. rewrite H. destruct (contains bd e).
    + unfold ret. eauto.
    + apply IH.
Qed.

Lemma tries_inside n p dist bearing bd last s e s' :
  Geometry.tries destination n p dist bearing bd last s = Ok (inl e) s' ->
  contains bd e = true.
Proof.
  revert last s. induction n as [|n IH]; intros last s H; cbn in H; inv_ok;
    try discriminate; try congruence.
  eapply IH; eassumption.
Qed.

Lemma shrink_inside fuel p dist bearing bd e0 s e s' :
  Geometry.shrink destination fuel p dist bearing bd e0 s = Ok e s' ->
  contains bd e = true.
Proof.
  revert dist e0 s. induction fuel as [|f IH]; intros dist e0 s H; cbn in H;
    destruct (contains bd e0) eqn:E; inv_ok; auto; eapply IH; eassumption.
Qed.

(** Every point returned by [point_nearby] under a boundary lies in it. *)
Lemma point_nearby_inside fuel p dist bearing bd s q s' :
  Geometry.point_nearby destination fuel p dist bearing (Some bd) s = Ok q s' ->
  contains bd q = true.
Proof.
  unfold Geometry.point_nearby. intros H. inv_ok.
  - eapply tries_inside; eassumption.
  - eapply shrink_inside; eassumption.
Qed.

(** The [MAX_TRIES] loop draws at most [n] end points and stops at the first
    one inside the boundary; it ends without one only after [n] outside ones. *)
Lemma tries_attempts n p dist bearing bd last s :
  exists es s', (List.length es <= n)%nat /\
    nearby_attempts destination (List.length es) p dist bearing s = Ok es s' /\
    ((exists pre e, es = app pre [e] /\ Forall (fun x => contains bd x = false) pre /\
                    contains bd e = true /\
                    Geometry.tries destination n p dist bearing bd last s = Ok (inl e) s') \/
     (List.length es = n /\ Forall (fun x => contains bd x = false) es /\
      exists l, Geometry.tries destination n p dist bearing bd last s = Ok (inr l) s')).
Proof.
  revert last s. induction n as [|n IH]; intros last s.
  - exists [], s. split; [apply Nat.le_0_l|]. split; [reflexivity|].
    right. split; [reflexivity|]. split; [constructor|]. exists last. reflexivity.
  - destruct (point_nearby_free_ok p dist bearing s) as (e & s1 & He).
    destruct (contains bd e) eqn:Ce.
    + exists [e], s1. split; [cbn; lia|].
      split; [cbn; unfold bind; rewrite He; reflexivity|].
      left. exists [], e. split; [reflexivity|]. split; [constructor|].
      split; [exact Ce|]. cbn. unfold bind. rewrite He, Ce. reflexivity.
    + destruct (IH (Some e) s1) as (es & s' & Hlen & Hatt & Hcase).
      exists (e :: es), s'. split; [cbn; lia|].
      split; [cbn; unfold bind; rewrite He; unfold bind in Hatt; rewrite Hatt; reflexivity|].
      assert (Ht : Geometry.tries destination (S n) p dist bearing bd last s =
                   Geometry.tries destination n p dist bearing bd (Some e) s1)
        by (cbn; unfold bind; rewrite He, Ce; reflexivity).
      rewrite Ht. destruct Hcase as [(pre & e' & Hes & Hpre & Ce' & Ht')|(Hn & Hall & l & Ht')].
      * left. exists (e :: pre), e'. split; [rewrite Hes; reflexivity|].
        split; [constructor; assumption|]. split; assumption.
      * right. split; [cbn; lia|]. split; [constructor; assumption|]. eauto.
Qed.

(** Claim C6 (corrected): when the boundary does not contain the origin,
    [point_nearby] makes at most [MAX_TRIES] attempts (50 without a bearing,
    1 with one) and never enters its distance-shrinking loop, so its result
    does not depend on the fuel of that loop: it returns the first attempt
    that lies in the boundary, after attempts that all lie outside it, or it
    raises [ValueError] after [MAX_TRIES] attempts that all lie outside it.
    Whenever it returns a point, that point lies in the boundary. *)
Theorem point_nearby_outside_origin fuel p dist bearing bd s
    (Hout : contains bd p = false) :
  (exists es s', (List.length es <= Geometry.max_tries bearing)%nat /\
     nearby_attempts destination (List.length es) p dist bearing s = Ok es s' /\
     ((exists pre e, es = app pre [e] /\ Forall (fun x => contains bd x = false) pre /\
                     contains bd e = true /\
                     Geometry.point_nearby destination fuel p dist bearing (Some bd) s = Ok e s') \/
      (List.length es = Geometry.max_tries bearing /\
       Forall (fun x => contains bd x = false) es /\
       Geometry.point_nearby destination fuel p dist bearing (Some bd) s = Raise ValueError))) /\
  (forall fuel', Geometry.point_nearby destination fuel' p dist bearing (Some bd) s =
                 Geometry.point_nearby destination fuel p dist bearing (Some bd) s) /\
  (forall q s', Geometry.point_nearby destination fuel p dist bearing (Some bd) s = Ok q s' ->
                contains bd q = true).
Proof.
  destruct (tries_attempts (Geometry.max_tries bearing) p dist bearing bd None s)
    as (es & s' & Hlen & Hatt & Hcase).
  split; [|split; [|intros q s''; apply point_nearby_inside]].
  - exists es, s'. split; [exact Hlen|]. split; [exact Hatt|].
    unfold Geometry.point_nearby, bind.
    destruct Hcase as [(pre & e & Hes & Hpre & Ce & Ht)|(Hn & Hall & l & Ht)]; rewrite Ht.
    + left. exists pre, e. auto.
    + right. rewrite Hout. auto.
  - intros fuel'. unfold Geometry.point_nearby, bind.
    destruct (tries_ok (Geometry.max_tries bearing) p dist bearing bd None s) as (r & s1 & H).
    rewrite H. destruct r as [e|last]; [reflexivity|]. rewrite Hout. reflexivity.
Qed.

End PointNearbySpec.

(** The origin [(-1, 1/2)] lies outside the unit square; the one attempt
    along the bearing [math.pi/2], 150 km due east, lands inside it. *)
Lemma point_nearby_outside_origin_witness :
  contains unit_square (Point (-1) (1 # 2)) = false /\
  ((exists es s', (List.length es <= Geometry.max_tries (Some half_pi))%nat /\
     nearby_attempts sphere_destination (List.length es) (Point (-1) (1 # 2)) 150000
       (Some half_pi) (state_of [] []) = Ok es s' /\
     ((exists pre e, es = app pre [e] /\ Forall (fun x => contains unit_square x = false) pre /\
                     contains unit_square e = true /\
                     Geometry.point_nearby sphere_destination 10 (Point (-1) (1 # 2)) 150000
                       (Some half_pi) (Some unit_square) (state_of [] []) = Ok e s') \/
      (List.length es = Geometry.max_tries (Some half_pi) /\
       Forall (fun x => contains unit_square x = false) es /\
       Geometry.point_nearby sphere_destination 10 (Point (-1) (1 # 2)) 150000
         (Some half_pi) (Some unit_square) (state_of [] []) = Raise ValueError))) /\
   (forall fuel', Geometry.point_nearby sphere_destination fuel' (Point (-1) (1 # 2)) 150000
                    (Some half_pi) (Some unit_square) (state_of [] []) =
                  Geometry.point_nearby sphere_destination 10 (Point (-1) (1 # 2)) 150000
                    (Some half_pi) (Some unit_square) (state_of [] [])) /\
   (forall q s', Geometry.point_nearby sphere_destination 10 (Point (-1) (1 # 2)) 150000
                   (Some half_pi) (Some unit_square) (state_of [] []) = Ok q s' ->
                 contains unit_square q = true)).
Proof.
  split; [reflexivity|].
  apply point_nearby_outside_origin. reflexivity.
Defined.

(** Claim C6 fails: with the origin [(-1, 1/2)] outside the unit square and
    the bearing [math.pi/2], [point_nearby] returns a point instead of
    raising [ValueError]. The great-circle formula puts the end point 150 km
    east of the origin at about [(0.347532, 0.499861)] (the float formula of
    the source gives [(0.34753203..., 0.49986172...)]), inside the square. *)
Lemma point_nearby_outside_origin_returns :
  contains unit_square (Point (-1) (1 # 2)) = false /\
  let q := sphere_destination (Point (-1) (1 # 2)) 150000 half_pi in
  Geometry.point_nearby sphere_destination 10 (Point (-1) (1 # 2)) 150000 (Some half_pi)
    (Some unit_square) (state_of [] []) = Ok q (state_of [] []) /\
  contains unit_square q = true /\
  347532 # 1000000 <= px q <= 347533 # 1000000 /\
  499861 # 1000000 <= py q <= 499862 # 1000000.
Proof.
  split; [reflexivity|]. cbv zeta. split; [vm_compute; reflexivity|].
  split; [vm_compute; reflexivity|].
  split; split; apply Qle_bool_iff; vm_compute; reflexivity.
Qed.

(** ** C9: the recharge step with an empty removed pool *)

Lemma Qfloor_unit (q : Q) : 0 <= q -> q < 1 -> Qfloor q = 0%Z.
Proof.
  intros H0 H1.
  pose proof (Qfloor_le q) as Hle. pose proof (Qlt_floor q) as Hlt.
  assert (A : (Qfloor q < 1)%Z) by (rewrite Zlt_Qlt; change (inject_Z 1) with 1; lra).
  assert (B : (-1 < Qfloor q)%Z).
  { rewrite Zlt_Qlt. rewrite inject_Z_plus in Hlt. change (inject_Z 1) with 1 in Hlt.
    change (inject_Z (-1)) with (-1). lra. }
  lia.
Qed.

Lemma randint_zero_zero s : exists s', Random.randint 0 0 s = Ok 0%Z s' /\ heap s' = heap s.
Proof.
  unfold Random.randint, Random.randrange, Random.randbelow.
  cbn -[Random.random Qfloor Qmult inject_Z].
  destruct (random_ok s) as (u & s1 & H & H0 & H1 & Hh).
  unfold bind. rewrite H. cbv beta.
  rewrite (Qfloor_unit (u * inject_Z 1)) by (rewrite Qmult_1_r; assumption).
  exists s1. split; [reflexivity|exact Hh].
Qed.

(** Claim C9: with an empty removed-device pool, the recharge step of an
    hour raises nothing, selects no device, emits no event and leaves the
    active devices, times, locations and the device objects unchanged. *)
Theorem recharge_step_empty_pool fuel g active times locations s :
  exists s',
    Provider.recharge_step fuel g [] active times locations s =
      Ok ([], active, times, locations, [], []) s' /\ heap s' = heap s.
Proof.
  unfold Provider.recharge_step. cbn [List.length Z.of_nat].
  destruct (randint_zero_zero s) as (s1 & H & Hh).
  unfold bind at 1. rewrite H.
  unfold Random.sample. cbn.
  exists s1. split; [reflexivity|exact Hh].
Qed.

(** ** Operations that leave the device objects alone *)

Class PureHeap {A} (c : M A) : Prop :=
  pure_heap : forall s a s', c s = Ok a s' -> heap s' = heap s.

(** For every [c s = Ok a s'] in the context with a [PureHeap c] instance,
    record [heap s' = heap s]. *)
Ltac heap_facts :=
  repeat match goal with
  | H : ?c ?s = Ok _ ?s' |- _ =>
      lazymatch goal with
      | _ : heap s' = heap s |- _ => fail
      | _ => let E := fresh "Eh" in pose proof (pure_heap (c := c) _ _ _ H) as E
      end
  end.

Ltac pure_tac := intros ? ? ? ?H; inv_ok; heap_facts; congruence.

#[export] Instance pure_ret {A} (a : A) : PureHeap (ret a).
Proof. intros s b s' H. inv_ok. reflexivity. Qed.

#[export] Instance pure_raise {A} e : PureHeap (@raise A e).
Proof. intros s b s' H. discriminate. Qed.

#[export] Instance pure_random : PureHeap Random.random.
Proof. intros s u s' H. apply random_inv in H. tauto. Qed.

#[export] Instance pure_uuid4 : PureHeap Random.uuid4.
Proof. intros s u s' H. unfold Random.uuid4 in H. inversion H. reflexivity. Qed.

#[export] Instance pure_deref r : PureHeap (deref r).
Proof. intros s d s' H. unfold deref in H. destruct (nth_error _ _); inversion H; reflexivity. Qed.

#[export] Instance pure_get_heap : PureHeap get_heap.
Proof. intros s d s' H. unfold get_heap in H. inversion H. reflexivity. Qed.

#[export] Instance pure_get_at {A} (l : list A) i : PureHeap (get_at l i).
Proof. unfold get_at. pure_tac. Qed.

#[export] Instance pure_set_at {A} (l : list A) i x : PureHeap (set_at l i x).
Proof. unfold set_at. pure_tac. Qed.

#[export] Instance pure_list_index l d : PureHeap (list_index l d).
Proof. unfold list_index. pure_tac. Qed.

#[export] Instance pure_py_index q : PureHeap (py_index q).
Proof. unfold py_index. pure_tac. Qed.

#[export] Instance pure_mapM {A B} (f : A -> M B) l :
  (forall x, PureHeap (f x)) -> PureHeap (mapM f l).
Proof.
  intros Hf. induction l as [|x l IH]; cbn; [apply _|].
  intros s b s' H. inv_ok. apply Hf in H0. apply IH in H1. congruence.
Qed.

#[export] Instance pure_uniform a b : PureHeap (Random.uniform a b).
Proof. unfold Random.uniform. pure_tac. Qed.

#[export] Instance pure_randbelow n : PureHeap (Random.randbelow n).
Proof. unfold Random.randbelow. pure_tac. Qed.

#[export] Instance pure_randrange a b : PureHeap (Random.randrange a b).
Proof. unfold Random.randrange. pure_tac. Qed.

#[export] Instance pure_randint a b : PureHeap (Random.randint a b).
Proof. unfold Random.randint. apply _. Qed.

#[export] Instance pure_randint_float a b : PureHeap (Random.randint_float a b).
Proof. unfold Random.randint_float. pure_tac. Qed.

#[export] Instance pure_choice {A} (d : A) l : PureHeap (Random.choice d l).
Proof. unfold Random.choice. pure_tac. Qed.

#[export] Instance pure_choices_weighted a b : PureHeap (Random.choices_weighted a b).
Proof. unfold Random.choices_weighted. pure_tac. Qed.

#[export] Instance pure_choices {A} (d : A) l k : PureHeap (Random.choices d l k).
Proof. induction k; cbn; [apply _|]. pure_tac. Qed.

#[export] Instance pure_sample_pool {A} (d : A) pool m k : PureHeap (Random.sample_pool d pool m k).
Proof. revert pool m. induction k; intros; cbn; [apply _|]. pure_tac. Qed.

#[export] Instance pure_sample {A} (d : A) l k : PureHeap (Random.sample d l k).
Proof. unfold Random.sample. pure_tac. Qed.

#[export] Instance pure_gammavariate a b : PureHeap (Random.gammavariate a b).
Proof. unfold Random.gammavariate. pure_tac. Qed.

#[export] Instance pure_rayleigh a : PureHeap (Random.rayleigh_rvs a).
Proof. unfold Random.rayleigh_rvs. pure_tac. Qed.

#[export] Instance pure_random_date_from t a b : PureHeap (Util.random_date_from t a b).
Proof. unfold Util.random_date_from. pure_tac. Qed.

#[export] Instance pure_random_string k : PureHeap (Util.random_string k).
Proof. unfold Util.random_string. pure_tac. Qed.

#[export] Instance pure_random_file_url c : PureHeap (Util.random_file_url c).
Proof. unfold Util.random_file_url. pure_tac. Qed.

#[export] Instance pure_compute bd : PureHeap (Geometry.compute bd).
Proof. unfold Geometry.compute. destruct (bounds bd) as [[[? ?] ?] ?]. pure_tac. Qed.

#[export] Instance pure_point_within_loop f bd p : PureHeap (Geometry.point_within_loop f bd p).
Proof. revert p. induction f; intros; cbn; pure_tac. Qed.

#[export] Instance pure_point_within f bd : PureHeap (Geometry.point_within f bd).
Proof. unfold Geometry.point_within. pure_tac. Qed.

#[export] Instance pure_point_nearby_free dst p d b : PureHeap (Geometry.point_nearby_free dst p d b).
Proof. unfold Geometry.point_nearby_free. pure_tac. Qed.

#[export] Instance pure_tries dst n p d b bd last : PureHeap (Geometry.tries dst n p d b bd last).
Proof. revert last. induction n; intros; cbn; pure_tac. Qed.

#[export] Instance pure_shrink dst f p d b bd e : PureHeap (Geometry.shrink dst f p d b bd e).
Proof. revert d e. induction f; intros; cbn; pure_tac. Qed.

#[export] Instance pure_point_nearby dst f p d b bd : PureHeap (Geometry.point_nearby dst f p d b bd).
Proof. unfold Geometry.point_nearby. pure_tac. Qed.

(** ** Frame lemmas *)

Lemma set_battery_same d : set_battery d (battery_pct d) = d.
Proof. destruct d; reflexivity. Qed.

Lemma set_battery_twice d b b' : set_battery (set_battery d b) b' = set_battery d b'.
Proof. destruct d; reflexivity. Qed.

Lemma frame_refl X h : heap_frame X h h.
Proof.
  split; [lia|]. intros r d H. exists (battery_pct d).
  rewrite set_battery_same. auto.
Qed.

Lemma frame_eq X h h' : h' = h -> heap_frame X h h'.
Proof. intros ->. apply frame_refl. Qed.

Lemma frame_trans X h1 h2 h3 :
  heap_frame X h1 h2 -> heap_frame X h2 h3 -> heap_frame X h1 h3.
Proof.
  intros [L1 F1] [L2 F2]. split; [lia|]. intros r d H.
  destruct (F1 r d H) as (b & H2 & Hb).
  destruct (F2 r _ H2) as (b' & H3 & Hb').
  rewrite set_battery_twice in H3. exists b'. split; [exact H3|].
  destruct Hb as [Hx|Hb]; [auto|]. destruct Hb' as [Hx|Hb']; [auto|].
  right. rewrite Hb'. destruct d; cbn in *; congruence.
Qed.

Lemma frame_mono (X Y : ref -> Prop) h h' :
  (forall r, X r -> Y r) -> heap_frame X h h' -> heap_frame Y h h'.
Proof.
  intros HXY [L F]. split; [exact L|]. intros r d H.
  destruct (F r d H) as (b & H' & [Hx|Hb]); eauto.
Qed.

Lemma frame_untouched X h h' r d :
  heap_frame X h h' -> nth_error h r = Some d -> ~ X r -> nth_error h' r = Some d.
Proof.
  intros [_ F] H Hn. destruct (F r d H) as (b & H' & [Hx|Hb]); [contradiction|].
  subst b. rewrite set_battery_same in H'. exact H'.
Qed.

Lemma frame_keeps_id X h h' r d :
  heap_frame X h h' -> nth_error h r = Some d ->
  exists b, nth_error h' r = Some (set_battery d b).
Proof. intros [_ F] H. destruct (F r d H) as (b & H' & _). eauto. Qed.

Lemma nth_error_list_set_eq {A} (l : list A) n x y :
  nth_error l n = Some y -> nth_error (list_set l n x) n = Some x.
Proof.
  revert n. induction l as [|h t IH]; intros [|n] H; cbn in *; try discriminate; auto.
Qed.

Lemma nth_error_list_set_neq {A} (l : list A) n m x :
  n <> m -> nth_error (list_set l n x) m = nth_error l m.
Proof.
  revert n m. induction l as [|h t IH]; intros [|n] [|m] Hnm; cbn; auto; try lia.
Qed.

Lemma length_list_set {A} (l : list A) n x : List.length (list_set l n x) = List.length l.
Proof. revert n. induction l; intros [|n]; cbn; auto. Qed.

Lemma frame_store h r d b :
  nth_error h r = Some d -> heap_frame (eq r) h (list_set h r (set_battery d b)).
Proof.
  intros Hd. split; [rewrite length_list_set; lia|]. intros r' d' H'.
  destruct (Nat.eq_dec r r') as [<-|Hne].
  - rewrite Hd in H'. inversion H'; subst. exists b. split; [|auto].
    eapply nth_error_list_set_eq; eassumption.
  - exists (battery_pct d'). rewrite set_battery_same.
    rewrite nth_error_list_set_neq by exact Hne. auto.
Qed.

Lemma frame_app X h l : heap_frame X h (app h l).
Proof.
  split; [rewrite length_app; lia|]. intros r d H. exists (battery_pct d).
  rewrite set_battery_same. split; [|auto].
  rewrite nth_error_app1; [exact H|]. apply nth_error_Some. congruence.
Qed.

Lemma deref_inv r s d s' : deref r s = Ok d s' -> nth_error (heap s) r = Some d /\ s' = s.
Proof. unfold deref. destruct (nth_error _ _); intros H; inversion H; auto. Qed.

Lemma alloc_inv d s r s' :
  alloc d s = Ok r s' -> r = List.length (heap s) /\ heap s' = app (heap s) [d].
Proof. unfold alloc. intros H; inversion H; auto. Qed.

Lemma get_heap_inv s h s' : get_heap s = Ok h s' -> h = heap s /\ s' = s.
Proof. unfold get_heap. intros H; inversion H; auto. Qed.

Lemma drain_battery_frame r amount rate s s' :
  Provider.drain_battery r amount rate s = Ok tt s' ->
  heap_frame (eq r) (heap s) (heap s').
Proof.
  unfold Provider.drain_battery. intros H. inv_ok.
  apply deref_inv in H0 as [Hd ->].
  - unfold store in H. inversion H; subst. cbn. apply frame_store. exact Hd.
  - apply deref_inv in H0 as [Hd ->]. apply frame_refl.
Qed.

Lemma recharge_battery_inv r s s' :
  Provider.recharge_battery r s = Ok tt s' ->
  exists d, nth_error (heap s) r = Some d /\
            heap s' = list_set (heap s) r (set_battery d (Some 1)).
Proof.
  unfold Provider.recharge_battery. intros H. inv_ok.
  apply deref_inv in H0 as [Hd ->]. unfold store in H. inversion H; subst.
  eexists; split; [exact Hd|reflexivity].
Qed.

(** ** [device_trip] *)

Lemma uniform_range a b s v s' :
  Random.uniform a b s = Ok v s' -> a <= b -> a <= v /\ v <= b.
Proof.
  unfold Random.uniform. intros H Hab. inv_ok. apply random_inv in H0 as (H0 & H1 & _).
  split; nra.
Qed.

Lemma gammavariate_nonneg a beta s v s' :
  Random.gammavariate a beta s = Ok v s' -> 0 <= beta -> 0 <= v.
Proof.
  unfold Random.gammavariate. intros H Hb. inv_ok. apply random_inv in H0 as (H0 & H1 & _).
  apply Qmult_le_0_compat; [exact Hb|].
  apply Qle_shift_div_l; lra.
Qed.

Lemma random_date_from_bounds t a b s v s' :
  Util.random_date_from t (Some a) (Some b) s = Ok v s' -> a <= b -> t + a <= v.
Proof.
  unfold Util.random_date_from. intros H Hab. inv_ok.
  apply uniform_range in H0 as [H0 _]; [lra|exact Hab].
Qed.

Lemma merge_event_fields d sc :
  device_id (sc_device (merge_event d sc)) = device_id (sc_device sc) /\
  event_type (merge_event d sc) = event_type sc /\
  event_type_reason (merge_event d sc) = event_type_reason sc /\
  event_time (merge_event d sc) = event_time sc /\
  event_location (merge_event d sc) = event_location sc.
Proof. destruct sc; cbn; auto. Qed.

(** The device of both events and of the trip of [device_trip] has the id
    of the device the trip started with. *)
Ltac trip_ids :=
  match goal with
  | F : heap_frame (eq ?r) (heap ?s) (heap ?s'), Hd : nth_error (heap ?s) ?r = Some ?d
    |- trip_events_ok _ _ _ (merge_event ?y (Provider.start_trip _ ?z _ _)) _ _ =>
      assert (device_id z = device_id d);
      [ match goal with Hz : nth_error (heap ?sx) r = Some z |- _ =>
          assert (heap sx = heap s) by congruence; congruence end
      | assert (device_id y = device_id d);
        [ let b := fresh "b" in let Hb := fresh "Hb" in
          destruct (frame_keeps_id _ _ _ _ _ F Hd) as [b Hb];
          match goal with Hy : nth_error (heap ?sy) r = Some y |- _ =>
            let Es := fresh "Es" in
            assert (Es : heap sy = heap s') by congruence;
            rewrite Es, Hb in Hy; injection Hy as <-; reflexivity end | ] ]
  end.

Section DeviceTrip.
Variable destination : point -> Q -> Q -> point.
Variable sqrt : Q -> Q.
Variable fuel : nat.
Variable g : generator.

Lemma device_trip_spec r d l t s status tr s' :
  Provider.device_trip destination sqrt fuel g r None (Some l) None (Some t) 0 TD_HOUR None s
    = Ok (status, tr) s' ->
  nth_error (heap s) r = Some d ->
  heap_frame (eq r) (heap s) (heap s') /\
  exists pu do_, status = [pu; do_] /\ trip_events_ok d t l pu do_ tr.
Proof.
  intros H Hd. unfold Provider.device_trip in H. cbv beta iota zeta in H.
  inv_ok; heap_facts;
  repeat match goal with Hr : deref _ _ = Ok _ _ |- _ => apply deref_inv in Hr as [? _] end;
  repeat match goal with u : unit |- _ => destruct u end;
  match goal with E : (_, _) = (_, _) |- _ => inversion E; subst status tr; clear E end.
  all: assert (F : heap_frame (eq r) (heap s) (heap s')) by
    (first [ apply frame_eq; congruence
           | match goal with Hdr : Provider.drain_battery _ _ _ ?s1 = Ok _ ?s2 |- _ =>
               apply drain_battery_frame in Hdr;
               replace (heap s) with (heap s1) by congruence;
               replace (heap s') with (heap s2) by congruence; exact Hdr end ]).
  all: split; [exact F|]; eexists _, _; split; [reflexivity|].
  all: trip_ids.
  all: match goal with
       | Ht : Util.random_date_from _ _ _ _ = Ok _ _,
         Hg : Random.gammavariate _ _ _ = Ok _ _ |- _ =>
           apply random_date_from_bounds in Ht; [|unfold TD_HOUR; lra];
           apply gammavariate_nonneg in Hg; [|lra]
       end.
  all: unfold trip_events_ok, merge_event, Provider.start_trip, Provider.end_trip,
         Provider.status_change_event;
       cbn [sc_device device_id event_type event_type_reason event_time event_location
            trip_device set_event_time set_battery].
  all: repeat split; try assumption; try reflexivity; lra.
Qed.
End DeviceTrip.

(** ** Traces, walks and list helpers *)

Lemma trace_app x a b : trace x (app a b) = app (trace x a) (trace x b).
Proof. apply filter_app. Qed.

Lemma trace_cons_eq x e l :
  device_id (sc_device e) = x -> trace x (e :: l) = e :: trace x l.
Proof. intros H. unfold trace. cbn. rewrite H, String.eqb_refl. reflexivity. Qed.

Lemma trace_cons_neq x e l :
  device_id (sc_device e) <> x -> trace x (e :: l) = trace x l.
Proof.
  intros H. unfold trace. cbn. destruct (String.eqb_spec (device_id (sc_device e)) x);
  [contradiction|reflexivity].
Qed.

Lemma walk_app t l a t' l' b t'' l'' :
  walk t l a t' l' -> walk t' l' b t'' l'' -> walk t l (app a b) t'' l''.
Proof.
  revert t l. induction a as [|e a IH]; cbn; intros t l H1 H2.
  - destruct H1 as [-> ->]. exact H2.
  - destruct H1 as (H & Ha & Hw). repeat split; eauto.
Qed.

Lemma walk_split t l a b t'' l'' :
  walk t l (app a b) t'' l'' -> exists t' l', walk t l a t' l' /\ walk t' l' b t'' l''.
Proof.
  revert t l. induction a as [|e a IH]; cbn; intros t l H.
  - exists t, l. auto.
  - destruct H as (H & Ha & Hw). destruct (IH _ _ Hw) as (t' & l' & H1 & H2).
    exists t', l'. auto.
Qed.

Lemma walk_bounds t l evs t' l' :
  walk t l evs t' l' ->
  Forall (fun e => t <= event_time e) evs /\ nondecreasing (map event_time evs) /\
  anchored l evs /\ t <= t'.
Proof.
  revert t l. induction evs as [|e evs IH]; cbn; intros t l H.
  - destruct H as [-> ->]. repeat split; auto. lra.
  - destruct H as (H & Ha & Hw). destruct (IH _ _ Hw) as (F & N & A & T).
    repeat split; auto.
    + constructor; [exact H|]. eapply Forall_impl; [|exact F]. cbn. intros e' He'. lra.
    + destruct evs as [|e2 evs]; [exact I|]. inversion F; subst. cbn. split; auto.
    + lra.
Qed.

Lemma Qeq_bool_self q : Qeq_bool q q = true.
Proof. apply Qeq_bool_iff. reflexivity. Qed.

Lemma list_string_eqb_refl l : list_string_eqb l l = true.
Proof. induction l; cbn; auto. rewrite String.eqb_refl. auto. Qed.

Lemma device_eqb_refl d : device_eqb d d = true.
Proof.
  destruct d as [a b c e f p bt et]. unfold device_eqb; cbn.
  rewrite !String.eqb_refl. cbn.
  destruct p; cbn; [rewrite list_string_eqb_refl|]; destruct bt; cbn;
    try rewrite Qeq_bool_self; destruct et; cbn; try rewrite Qeq_bool_self; reflexivity.
Qed.

Lemma device_eqb_id a b : device_eqb a b = true -> device_id a = device_id b.
Proof.
  unfold device_eqb. intros H. repeat (apply andb_prop in H as [H ?]).
  apply String.eqb_eq. assumption.
Qed.

Lemma index_of_found h l d k r :
  nth_error l k = Some r -> nth_error h r = Some d ->
  (forall k' r', (k' < k)%nat -> nth_error l k' = Some r' -> id_at h r' <> device_id d) ->
  index_of h l d = Some k.
Proof.
  revert k. induction l as [|r0 l IH]; intros [|k] Hk Hd Hne; cbn in *; try discriminate.
  - inversion Hk; subst. rewrite Hd, device_eqb_refl. reflexivity.
  - assert (Hr0 : id_at h r0 <> device_id d) by (apply (Hne O); [lia|reflexivity]).
    rewrite (IH k Hk Hd) by (intros k' r' Hk' Hr'; apply (Hne (S k')); [lia|exact Hr']).
    unfold id_at in Hr0. destruct (nth_error h r0) as [d0|]; [|reflexivity].
    destruct (device_eqb d0 d) eqn:E; [|reflexivity].
    apply device_eqb_id in E. contradiction.
Qed.

Lemma remove_at_last {A} (l : list A) x : remove_at (app l [x]) (List.length l) = l.
Proof. induction l; cbn; [reflexivity|]. rewrite IHl. destruct l; reflexivity. Qed.

Lemma id_at_frame X h h' r :
  heap_frame X h h' -> (r < List.length h)%nat -> id_at h' r = id_at h r.
Proof.
  intros F Hr. apply nth_error_Some in Hr. unfold id_at.
  destruct (nth_error h r) as [d|] eqn:E; [|contradiction].
  destruct (frame_keeps_id _ _ _ _ _ F E) as [b ->]. destruct d; reflexivity.
Qed.

Lemma get_at_inv {A} (l : list A) i s x s' :
  get_at l i s = Ok x s' -> nth_error l i = Some x /\ s' = s.
Proof. unfold get_at. destruct (nth_error l i); intros H; inversion H; auto. Qed.

Lemma set_at_inv {A} (l : list A) i x s l' s' :
  set_at l i x s = Ok l' s' -> (i < List.length l)%nat /\ l' = list_set l i x /\ s' = s.
Proof.
  unfold set_at. destruct (Nat.ltb_spec i (List.length l)); intros E; inversion E; auto.
Qed.

Lemma list_index_inv l d s i s' :
  list_index l d s = Ok i s' -> index_of (heap s) l d = Some i /\ s' = s.
Proof.
  unfold list_index. intros H. inv_ok. apply get_heap_inv in H0 as [-> ->]. auto.
Qed.

Lemma low_test_inv d s low s' :
  (if Provider.has_battery d then
     match battery_pct d with Some b => ret (Qltb b (1 # 5)) | None => raise KeyError end
   else ret false) s = Ok low s' -> low = lowb d /\ s' = s.
Proof.
  unfold lowb. destruct (Provider.has_battery d); cbn;
    [destruct (battery_pct d)|]; intros H; inversion H; auto.
Qed.

Lemma Forall2_nth_both {A B} (P : A -> B -> Prop) l1 l2 k da db :
  Forall2 P l1 l2 -> (k < List.length l1)%nat -> P (nth k l1 da) (nth k l2 db).
Proof.
  intros H; revert k; induction H; intros [|k] Hk; cbn in *; try lia; auto.
  apply IHForall2; lia.
Qed.

Lemma firstn_S_snoc {A} (l : list A) j d :
  (j < List.length l)%nat -> firstn (S j) l = app (firstn j l) [nth j l d].
Proof.
  revert j. induction l as [|a l IH]; intros [|j] Hj; cbn in *; try lia; auto.
  rewrite (IH j) by lia. reflexivity.
Qed.

Lemma combine_snoc {A B} (a : list A) (b : list B) x y :
  List.length a = List.length b -> combine (app a [x]) (app b [y]) = app (combine a b) [(x, y)].
Proof.
  revert b. induction a as [|u a IH]; intros [|v b] Hl; cbn in *; try lia; auto.
  rewrite IH by lia. reflexivity.
Qed.

Lemma nth_list_set_eq {A} (l : list A) i x d :
  (i < List.length l)%nat -> nth i (list_set l i x) d = x.
Proof. revert i. induction l; intros [|i] Hi; cbn in *; try lia; auto. apply IHl; lia. Qed.

Lemma nth_list_set_neq {A} (l : list A) i k x d :
  i <> k -> nth k (list_set l i x) d = nth k l d.
Proof. revert i k. induction l; intros [|i] [|k] Hik; cbn; auto; try lia. Qed.

Lemma frame_id X h h' r d :
  heap_frame X h h' -> nth_error h r = Some d ->
  exists d', nth_error h' r = Some d' /\ device_id d' = device_id d.
Proof.
  intros F H. destruct (frame_keeps_id _ _ _ _ _ F H) as [b Hb].
  exists (set_battery d b). split; [exact Hb|destruct d; reflexivity].
Qed.

Lemma frame_lt X h h' r : heap_frame X h h' -> (r < List.length h)%nat -> (r < List.length h')%nat.
Proof. intros [L _] H. lia. Qed.

Lemma frame_same X h h' r :
  heap_frame X h h' -> (r < List.length h)%nat -> ~ X r -> nth_error h' r = nth_error h r.
Proof.
  intros F Hr Hx. apply nth_error_Some in Hr.
  destruct (nth_error h r) as [d|] eqn:E; [|contradiction].
  eapply frame_untouched; eauto.
Qed.

Lemma nth_error_app_lt {A} (l l' : list A) r :
  (r < List.length l)%nat -> nth_error (app l l') r = nth_error l r.
Proof. intros H. apply nth_error_app1. exact H. Qed.

Lemma mapM_Forall2 {A B} (f : A -> M B) (P : A -> B -> Prop) l H s ys s' :
  (forall x s1 y s2, In x l -> heap s1 = H -> f x s1 = Ok y s2 -> P x y /\ heap s2 = H) ->
  heap s = H -> mapM f l s = Ok ys s' -> Forall2 P l ys /\ heap s' = H.
Proof.
  revert s ys. induction l as [|a l IH]; intros s ys Hf Hs Hm; cbn in Hm.
  - apply ret_inv in Hm as [<- ->]. auto.
  - apply bind_inv in Hm as (y & s1 & Hy & Hm). apply bind_inv in Hm as (ys' & s2 & Hys & Hm).
    apply ret_inv in Hm as [<- ->].
    destruct (Hf a s y s1 (or_introl eq_refl) Hs Hy) as [P1 E1].
    destruct (IH s1 ys') as [P2 E2]; auto.
    intros x s3 y' s4 Hx. apply Hf. right. exact Hx.
Qed.

Lemma Forall2_nth_error_l {A B} (P : A -> B -> Prop) l1 l2 p x :
  Forall2 P l1 l2 -> nth_error l1 p = Some x -> exists y, nth_error l2 p = Some y /\ P x y.
Proof.
  intros H. revert p. induction H as [|a b l1 l2 Hab H IH]; intros [|p] Hp; cbn in *;
    try discriminate.
  - inversion Hp; subst. eauto.
  - apply IH. exact Hp.
Qed.

Ltac hproj := cbn [Provider.h_active Provider.h_removed Provider.h_changes
                   Provider.h_trips Provider.h_times Provider.h_locations] in *.

Section HourSpec.
Variables (destination : point -> Q -> Q -> point) (sqrt : Q -> Q) (fuel : nat)
          (g : generator) (inactivity : Q).
Variables (devices : list ref) (ds : list device) (T0 : list Q) (L0 : list feature)
          (h0 : list device).
Hypothesis Hds : Forall2 (fun r d => nth_error h0 r = Some d) devices ds.
Hypothesis Hnd : NoDup (map device_id ds).
Hypothesis HT : List.length T0 = List.length devices.
Hypothesis HL : List.length L0 = List.length devices.

Lemma hs_len : List.length ds = List.length devices.
Proof. symmetry. eapply Forall2_length. exact Hds. Qed.

Lemma hs_nth k :
  (k < List.length devices)%nat ->
  nth_error devices k = Some (nth k devices O) /\
  nth_error h0 (nth k devices O) = Some (nth k ds dev0).
Proof.
  intros Hk. split.
  - apply nth_error_nth'. exact Hk.
  - exact (Forall2_nth_both _ _ _ k O dev0 Hds Hk).
Qed.

Lemma hs_ids k k' :
  (k < List.length devices)%nat -> (k' < List.length devices)%nat ->
  device_id (nth k ds dev0) = device_id (nth k' ds dev0) -> k = k'.
Proof.
  intros Hk Hk' E. pose proof hs_len as Hn.
  pose proof (proj1 (NoDup_nth (map device_id ds) (device_id dev0)) Hnd k k') as Hk2.
  rewrite !length_map, !map_nth in Hk2. apply Hk2; auto; lia.
Qed.

Lemma hs_refs k k' :
  (k < List.length devices)%nat -> (k' < List.length devices)%nat ->
  nth k devices O = nth k' devices O -> k = k'.
Proof.
  intros Hk Hk' E. apply hs_ids; auto.
  destruct (hs_nth k Hk) as [_ H1]. destruct (hs_nth k' Hk') as [_ H2].
  rewrite E in H1. rewrite H1 in H2. inversion H2. reflexivity.
Qed.

Lemma hs_in_firstn_ids x j :
  In x (map device_id (firstn j ds)) <->
  exists k, (k < j)%nat /\ (k < List.length devices)%nat /\ x = device_id (nth k ds dev0).
Proof.
  pose proof hs_len as Hn. split.
  - intros Hx. apply in_map_iff in Hx as (d & <- & Hd).
    apply (In_nth _ _ dev0) in Hd as (k & Hk & Hkd).
    rewrite length_firstn in Hk. rewrite nth_firstn in Hkd.
    destruct (Nat.ltb_spec k j); [|lia].
    exists k. split; [lia|]. split; [lia|]. rewrite Hkd. reflexivity.
  - intros (k & Hk & HkN & ->). apply in_map.
    assert (E : nth k (firstn j ds) dev0 = nth k ds dev0).
    { rewrite nth_firstn. destruct (Nat.ltb_spec k j); [reflexivity|lia]. }
    rewrite <- E. apply nth_In. rewrite length_firstn. lia.
Qed.

Lemma hs_in_firstn_refs a j :
  In a (firstn j devices) ->
  exists k, (k < j)%nat /\ (k < List.length devices)%nat /\ a = nth k devices O.
Proof.
  intros Ha. apply (In_nth _ _ O) in Ha as (k & Hk & Hka).
  rewrite length_firstn in Hk. rewrite nth_firstn in Hka.
  destruct (Nat.ltb_spec k j); [|lia]. exists k. repeat split; try lia; auto.
Qed.

Lemma hs_ids_firstn j :
  (j < List.length devices)%nat ->
  map device_id (firstn (S j) ds) = app (map device_id (firstn j ds)) [device_id (nth j ds dev0)].
Proof.
  intros Hj. pose proof hs_len. rewrite (firstn_S_snoc ds j dev0) by lia.
  rewrite map_app. reflexivity.
Qed.

Lemma hs_not_in_firstn j :
  (j < List.length devices)%nat -> ~ In (device_id (nth j ds dev0)) (map device_id (firstn j ds)).
Proof.
  intros Hj Hin. apply hs_in_firstn_ids in Hin as (k & Hk & HkN & Ek).
  apply hs_ids in Ek; lia.
Qed.

Lemma hs_in_firstn_S x j :
  In x (map device_id (firstn j ds)) -> In x (map device_id (firstn (S j) ds)).
Proof.
  rewrite !hs_in_firstn_ids. intros (k & Hk & HkN & E). exists k. repeat split; auto; lia.
Qed.

Lemma hs_refs_firstn_S r j :
  In r (firstn j devices) -> In r (firstn (S j) devices).
Proof.
  intros H. apply hs_in_firstn_refs in H as (k & Hk & HkN & ->).
  assert (E : nth k (firstn (S j) devices) O = nth k devices O).
  { rewrite nth_firstn. destruct (Nat.ltb_spec k (S j)); [reflexivity|lia]. }
  rewrite <- E. apply nth_In. rewrite length_firstn. lia.
Qed.

Lemma active_of_zero : active_of devices ds 0 = [].
Proof. reflexivity. Qed.

Lemma active_of_S j :
  (j < List.length devices)%nat ->
  active_of devices ds (S j) =
  app (active_of devices ds j)
      (if lowb (nth j ds dev0) then [] else [nth j devices O]).
Proof.
  intros Hj. pose proof hs_len. unfold active_of.
  rewrite (firstn_S_snoc devices j O) by lia. rewrite (firstn_S_snoc ds j dev0) by lia.
  rewrite combine_snoc by (rewrite !length_firstn; lia).
  rewrite filter_app, map_app. cbn. destruct (lowb (nth j ds dev0)); reflexivity.
Qed.

Lemma in_active_of j r :
  (j <= List.length devices)%nat -> In r (active_of devices ds j) ->
  exists k, (k < j)%nat /\ r = nth k devices O /\ lowb (nth k ds dev0) = false.
Proof.
  induction j as [|j IH]; intros Hj Hr; [contradiction|].
  rewrite active_of_S in Hr by lia. apply in_app_or in Hr as [Hr|Hr].
  - destruct (IH ltac:(lia) Hr) as (k & Hk & E & L). exists k. auto.
  - destruct (lowb (nth j ds dev0)) eqn:L; [contradiction|].
    destruct Hr as [<-|[]]. exists j. auto.
Qed.

Lemma hs_lt_h0 k : (k < List.length devices)%nat -> (nth k devices O < List.length h0)%nat.
Proof. intros Hk. apply nth_error_Some. destruct (hs_nth k Hk) as [_ ->]. discriminate. Qed.

Lemma hs_id_at X h k :
  heap_frame X h0 h -> (k < List.length devices)%nat ->
  id_at h (nth k devices O) = device_id (nth k ds dev0).
Proof.
  intros F Hk. rewrite (id_at_frame _ _ _ _ F (hs_lt_h0 k Hk)).
  unfold id_at. destruct (hs_nth k Hk) as [_ ->]. reflexivity.
Qed.

Lemma hour_inv_init :
  hour_inv g devices ds T0 L0 h0 0 (Provider.HourAcc [] [] [] [] T0 L0) h0.
Proof.
  unfold hour_inv; cbn.
  refine (conj HT (conj HL (conj (frame_refl _ _) (conj _ (conj _ (conj _
           (conj _ (conj _ (conj _ _))))))))).
  - intros k _. split; reflexivity.
  - intros k Hk. lia.
  - reflexivity.
  - constructor.
  - reflexivity.
  - constructor.
  - constructor.
Qed.

Lemma hour_inv_untouched j acc h :
  hour_inv g devices ds T0 L0 h0 j acc h -> (j < List.length devices)%nat ->
  nth_error h (nth j devices O) = Some (nth j ds dev0).
Proof.
  intros (Ht & Hl & Hf & _) Hj. destruct (hs_nth j Hj) as [_ Hh].
  eapply frame_untouched; [exact Hf|exact Hh|]. intros Hin.
  apply hs_in_firstn_refs in Hin as (k & Hk & HkN & Ek). apply hs_refs in Ek; lia.
Qed.

Lemma hour_case_mono k acc h act' removed' newc newt times' locs' h' :
  hour_case g ds T0 L0 k acc h ->
  trace (device_id (nth k ds dev0)) newc = [] ->
  (forall rr, In rr (Provider.h_removed acc) -> nth_error h' rr = nth_error h rr) ->
  incl (Provider.h_removed acc) removed' ->
  Forall (fun tr => device_id (trip_device tr) <> device_id (nth k ds dev0)) newt ->
  nth k times' 0 = nth k (Provider.h_times acc) 0 ->
  nth k locs' feat0 = nth k (Provider.h_locations acc) feat0 ->
  hour_case g ds T0 L0 k
    (Provider.HourAcc act' removed' (app (Provider.h_changes acc) newc)
                      (app (Provider.h_trips acc) newt) times' locs') h'.
Proof.
  unfold hour_case; cbv zeta;
    cbn [Provider.h_changes Provider.h_removed Provider.h_trips Provider.h_times
         Provider.h_locations].
  intros Hc Hn Hrm Hinc Htr Et El.
  rewrite trace_app, Hn, app_nil_r, Et, El.
  destruct (lowb (nth k ds dev0)); [|exact Hc].
  destruct Hc as (H1 & (rr & Hrr & Hh) & H3). split; [exact H1|]. split.
  - exists rr. split; [apply Hinc; exact Hrr|]. rewrite Hrm by exact Hrr. exact Hh.
  - apply Forall_app. auto.
Qed.

Lemma hour_inv_step_low j acc h :
  (j < List.length devices)%nat ->
  hour_inv g devices ds T0 L0 h0 j acc h ->
  lowb (nth j ds dev0) = true ->
  hour_inv g devices ds T0 L0 h0 (S j)
    (Provider.HourAcc (Provider.h_active acc)
       (app (Provider.h_removed acc) [List.length h])
       (app (Provider.h_changes acc)
            [Provider.device_lowbattery g (nth j ds dev0) (nth j T0 0) (nth j L0 feat0)])
       (Provider.h_trips acc) (Provider.h_times acc) (Provider.h_locations acc))
    (app h [set_event_time (nth j ds dev0) (Some (nth j T0 0))]).
Proof.
  intros Hj Inv Hlow. pose proof hs_len as Hn.
  pose proof (hs_not_in_firstn j Hj) as Hxj.
  destruct Inv as (Ht & Hl & Hf & Hrest & Hcase & Htr & Htrips & Hact & Hrb & Hperm).
  assert (Hlen0 : (List.length h0 <= List.length h)%nat) by apply Hf.
  assert (Hold : forall rr, In rr (Provider.h_removed acc) ->
            nth_error (app h [set_event_time (nth j ds dev0) (Some (nth j T0 0))]) rr =
            nth_error h rr).
  { intros rr Hrr. rewrite Forall_forall in Hrb. apply nth_error_app_lt. apply Hrb. exact Hrr. }
  assert (Hrb' : Forall (fun rr => (List.length h0 <= rr < List.length h)%nat /\
           exists k, (k < S j)%nat /\ lowb (nth k ds dev0) = true /\
             nth_error (app h [set_event_time (nth j ds dev0) (Some (nth j T0 0))]) rr =
             Some (set_event_time (nth k ds dev0) (Some (nth k T0 0))))
           (Provider.h_removed acc)).
  { rewrite Forall_forall in *. intros rr Hrr. destruct (Hrb rr Hrr) as (B & k & Hk & L & E).
    split; [exact B|]. exists k. split; [lia|]. split; [exact L|]. rewrite Hold; auto. }
  unfold hour_inv; cbn [Provider.h_active Provider.h_removed Provider.h_changes
                        Provider.h_trips Provider.h_times Provider.h_locations].
  split; [exact Ht|]. split; [exact Hl|]. split.
  { eapply frame_trans; [|apply frame_app].
    eapply frame_mono; [|exact Hf]. cbv beta. intros r' Hr'.
    apply hs_refs_firstn_S. exact Hr'. }
  split; [intros k Hk; apply Hrest; lia|]. split.
  { intros k Hk. destruct (Nat.eq_dec k j) as [->|Hkj].
    - unfold hour_case. cbv zeta. rewrite Hlow. hproj. split; [|split].
      + rewrite trace_app, (Htr _ Hxj). cbn [app]. rewrite trace_cons_eq; reflexivity.
      + exists (List.length h). split; [apply in_or_app; right; left; reflexivity|].
        rewrite nth_error_app2 by lia. rewrite Nat.sub_diag. reflexivity.
      + eapply Forall_impl; [|exact Htrips]. cbn. intros tr Hin E. rewrite E in Hin.
        contradiction.
    - assert (Hk' : (k < j)%nat) by lia.
      pose proof (hour_case_mono k acc h (Provider.h_active acc)
        (app (Provider.h_removed acc) [List.length h])
        [Provider.device_lowbattery g (nth j ds dev0) (nth j T0 0) (nth j L0 feat0)] []
        (Provider.h_times acc) (Provider.h_locations acc)
        (app h [set_event_time (nth j ds dev0) (Some (nth j T0 0))]) (Hcase k Hk')) as HM.
      rewrite app_nil_r in HM. apply HM; auto.
      + apply trace_cons_neq. cbn. intros E. apply hs_ids in E; lia.
      + intros rr Hrr. apply in_or_app. auto. }
  split.
  { intros x Hx. rewrite hs_ids_firstn in Hx by exact Hj.
    rewrite trace_app, Htr by (intros H; apply Hx, in_or_app; auto).
    apply trace_cons_neq. cbn. intros E. apply Hx, in_or_app. right. left. auto. }
  split.
  { eapply Forall_impl; [|exact Htrips]. intros tr. apply hs_in_firstn_S. }
  split.
  { rewrite active_of_S by exact Hj. rewrite Hlow, app_nil_r. exact Hact. }
  split.
  { apply Forall_app. split.
    - eapply Forall_impl; [|exact Hrb']. cbn. intros rr [Hr E]. rewrite length_app.
      split; [lia|exact E].
    - constructor; [|constructor]. rewrite length_app. cbn. split; [lia|].
      exists j. split; [lia|]. split; [exact Hlow|].
      rewrite nth_error_app2 by lia. rewrite Nat.sub_diag. reflexivity. }
  rewrite (firstn_S_snoc ds j dev0) by lia. rewrite filter_app. cbn. rewrite Hlow.
  rewrite !map_app. cbn. apply Permutation_app; [|].
  - erewrite map_ext_in; [exact Hperm|]. intros rr Hrr. unfold id_at. rewrite Hold by exact Hrr.
    reflexivity.
  - unfold id_at. rewrite nth_error_app2 by lia. rewrite Nat.sub_diag. reflexivity.
Qed.

Lemma hour_inv_step_active j acc h h' newc newt times' locs' :
  (j < List.length devices)%nat ->
  hour_inv g devices ds T0 L0 h0 j acc h ->
  lowb (nth j ds dev0) = false ->
  heap_frame (eq (nth j devices O)) h h' ->
  (forall x, x <> device_id (nth j ds dev0) -> trace x newc = []) ->
  Forall (fun tr => device_id (trip_device tr) = device_id (nth j ds dev0)) newt ->
  List.length times' = List.length devices -> List.length locs' = List.length devices ->
  (forall k, k <> j -> nth k times' 0 = nth k (Provider.h_times acc) 0 /\
                       nth k locs' feat0 = nth k (Provider.h_locations acc) feat0) ->
  walk (nth j T0 0) (f_point (nth j L0 feat0)) (trace (device_id (nth j ds dev0)) newc)
       (nth j times' 0) (f_point (nth j locs' feat0)) ->
  hour_inv g devices ds T0 L0 h0 (S j)
    (Provider.HourAcc (app (Provider.h_active acc) [nth j devices O]) (Provider.h_removed acc)
       (app (Provider.h_changes acc) newc) (app (Provider.h_trips acc) newt) times' locs') h'.
Proof.
  intros Hj Inv Hlow Hst Hnew Hnewt Ht' Hl' Hoth Hw. pose proof hs_len as Hn.
  pose proof (hs_not_in_firstn j Hj) as Hxj.
  destruct Inv as (Ht & Hl & Hf & Hrest & Hcase & Htr & Htrips & Hact & Hrb & Hperm).
  assert (Hlen0 : (List.length h0 <= List.length h)%nat) by apply Hf.
  assert (Hlen1 : (List.length h <= List.length h')%nat) by apply Hst.
  pose proof (hs_lt_h0 j Hj) as Haj.
  assert (Hold : forall rr, In rr (Provider.h_removed acc) -> nth_error h' rr = nth_error h rr).
  { intros rr Hrr. rewrite Forall_forall in Hrb. specialize (Hrb rr Hrr) as [Hrb _].
    eapply frame_same; [exact Hst|lia|]. lia. }
  unfold hour_inv; hproj.
  split; [exact Ht'|]. split; [exact Hl'|]. split.
  { eapply frame_trans.
    - eapply frame_mono; [|exact Hf]. cbv beta. intros r' Hr'.
      apply hs_refs_firstn_S. exact Hr'.
    - eapply frame_mono; [|exact Hst]. cbv beta. intros r' <-.
      rewrite (firstn_S_snoc devices j O) by lia. apply in_or_app. right. left. reflexivity. }
  split.
  { intros k Hk. destruct (Hoth k ltac:(lia)) as [-> ->]. apply Hrest. lia. }
  split.
  { intros k Hk. destruct (Nat.eq_dec k j) as [->|Hkj].
    - unfold hour_case. cbv zeta. rewrite Hlow. hproj.
      rewrite trace_app, (Htr _ Hxj). exact Hw.
    - apply (hour_case_mono k acc h); auto.
      + apply Hcase. lia.
      + apply Hnew. intros E. apply hs_ids in E; lia.
      + apply incl_refl.
      + eapply Forall_impl; [|exact Hnewt]. cbv beta. intros tr ->. intros E.
        apply hs_ids in E; lia.
      + apply Hoth. exact Hkj.
      + apply Hoth. exact Hkj. }
  split.
  { intros x Hx. rewrite hs_ids_firstn in Hx by exact Hj.
    rewrite trace_app, Htr by (intros H; apply Hx, in_or_app; auto).
    apply Hnew. intros E. apply Hx, in_or_app. right. left. auto. }
  split.
  { apply Forall_app. split.
    - eapply Forall_impl; [|exact Htrips]. intros tr. apply hs_in_firstn_S.
    - eapply Forall_impl; [|exact Hnewt]. cbv beta. intros tr ->.
      rewrite hs_ids_firstn by exact Hj. apply in_or_app. right. left. reflexivity. }
  split.
  { rewrite active_of_S by exact Hj. rewrite Hlow, Hact. reflexivity. }
  split.
  { rewrite Forall_forall in *. intros rr Hrr. destruct (Hrb rr Hrr) as (B & k & Hk & L & E).
    split; [lia|]. exists k. split; [lia|]. split; [exact L|]. rewrite Hold; auto. }
  rewrite (firstn_S_snoc ds j dev0) by lia. rewrite filter_app. cbn. rewrite Hlow.
  rewrite app_nil_r.
  erewrite map_ext_in; [exact Hperm|]. intros rr Hrr. unfold id_at. rewrite Hold by exact Hrr.
  reflexivity.
Qed.

Lemma hour_step j acc s acc' s' :
  (j < List.length devices)%nat ->
  hour_inv g devices ds T0 L0 h0 j acc (heap s) ->
  Provider.service_hour_step destination sqrt fuel g devices inactivity acc j s = Ok acc' s' ->
  hour_inv g devices ds T0 L0 h0 (S j) acc' (heap s').
Proof.
  intros Hj Inv H. pose proof hs_len as Hn.
  pose proof (hour_inv_untouched j acc (heap s) Inv Hj) as Ha.
  pose proof Inv as (Ht & Hl & Hf & Hrest & Hcase & Htr & Htrips & Hact & Hrb & Hperm).
  destruct (Hrest j (le_n j)) as [Etj Elj].
  destruct (hs_nth j Hj) as [Hdj _].
  unfold Provider.service_hour_step in H.
  apply bind_inv in H as (r & s1 & Hr & H). apply get_at_inv in Hr as [Hr ->].
  rewrite Hdj in Hr. injection Hr as <-.
  apply bind_inv in H as (loc & s2 & Hloc & H). apply get_at_inv in Hloc as [Hloc ->].
  apply (nth_error_nth _ _ feat0) in Hloc. rewrite Elj in Hloc. subst loc.
  apply bind_inv in H as (ct & s3 & Hct & H). apply get_at_inv in Hct as [Hct ->].
  apply (nth_error_nth _ _ 0) in Hct. rewrite Etj in Hct. subst ct.
  apply bind_inv in H as (d & s4 & Hd & H). apply deref_inv in Hd as [Hd ->].
  rewrite Ha in Hd. injection Hd as <-.
  apply bind_inv in H as (low & s5 & Hlow & H). apply low_test_inv in Hlow as [-> ->].
  destruct (lowb (nth j ds dev0)) eqn:Elow.
  - apply bind_inv in H as (i & s6 & Hi & H). apply list_index_inv in Hi as [Hi ->].
    apply bind_inv in H as (rr & s7 & Hrr & H). apply alloc_inv in Hrr as [-> Hh7].
    apply ret_inv in H as [<- ->]. rewrite Hh7.
    assert (Ei : i = List.length (Provider.h_active acc)).
    { erewrite index_of_found in Hi; [injection Hi as <-; reflexivity| | exact Ha | ].
      - rewrite nth_error_app2 by lia. rewrite Nat.sub_diag. reflexivity.
      - intros k' r' Hk' Hr'. rewrite nth_error_app1 in Hr' by exact Hk'.
        apply nth_error_In in Hr'. rewrite Hact in Hr'.
        apply in_active_of in Hr' as (k & Hk & -> & _); [|lia].
        rewrite (hs_id_at _ _ k Hf) by lia. intros E. apply hs_ids in E; lia. }
    subst i. rewrite remove_at_last.
    exact (hour_inv_step_low j acc (heap s) Hj Inv Elow).
  - apply bind_inv in H as (take & s6 & Htake & H).
    pose proof (pure_heap _ _ _ Htake) as E6.
    destruct take.
    + apply bind_inv in H as ([status tr] & s7 & Htrip & H).
      destruct (device_trip_spec destination sqrt fuel g _ (nth j ds dev0) _ _ _ _ _ _ Htrip)
        as (Fr & pu & do_ & -> & Tok); [rewrite E6; exact Ha|].
      apply bind_inv in H as (last & s8 & Hlast & H). apply get_at_inv in Hlast as [Hlast ->].
      cbn in Hlast. injection Hlast as <-.
      apply bind_inv in H as (times' & s9 & Hts & H). apply set_at_inv in Hts as (Hjt & -> & ->).
      apply bind_inv in H as (locs' & s10 & Hls & H). apply set_at_inv in Hls as (Hjl & -> & ->).
      apply ret_inv in H as [<- ->].
      destruct Tok as (I1 & I2 & I3 & R1 & R2 & R3 & R4 & T1 & T2 & L1).
      apply (hour_inv_step_active j acc (heap s) _ _ _ _ _ Hj Inv Elow).
      * rewrite <- E6. exact Fr.
      * intros x Hx. rewrite !trace_cons_neq by congruence. reflexivity.
      * constructor; [exact I3|constructor].
      * rewrite length_list_set. exact Ht.
      * rewrite length_list_set. exact Hl.
      * intros k Hk. rewrite !nth_list_set_neq by congruence. split; reflexivity.
      * rewrite !trace_cons_eq by assumption. rewrite !nth_list_set_eq by lia.
        unfold trace at 1. cbn [walk filter]. rewrite L1.
        repeat split; auto.
        unfold anchored_reason. rewrite R4. cbn. discriminate.
    + apply bind_inv in H as (u & s7 & Hu & H). apply ret_inv in H as [<- ->].
      assert (Fr : heap_frame (eq (nth j devices O)) (heap s6) (heap s')).
      { destruct (Provider.has_battery (nth j ds dev0)).
        - apply bind_inv in Hu as (rate & s8 & Hrate & Hu).
          rewrite <- (pure_heap _ _ _ Hrate). destruct u. eapply drain_battery_frame. exact Hu.
        - apply ret_inv in Hu as [_ ->]. apply frame_refl. }
      rewrite <- (app_nil_r (Provider.h_changes acc)), <- (app_nil_r (Provider.h_trips acc)).
      apply (hour_inv_step_active j acc (heap s) _ _ _ _ _ Hj Inv Elow).
      * rewrite <- E6. exact Fr.
      * intros x Hx. reflexivity.
      * constructor.
      * exact Ht.
      * exact Hl.
      * intros k Hk. split; reflexivity.
      * cbn. split; [exact Etj|rewrite Elj; reflexivity].
Qed.

Lemma hour_loop n j acc s acc' s' :
  (j + n = List.length devices)%nat ->
  hour_inv g devices ds T0 L0 h0 j acc (heap s) ->
  Provider.service_hour_loop destination sqrt fuel g devices inactivity (seq j n) acc s
    = Ok acc' s' ->
  hour_inv g devices ds T0 L0 h0 (List.length devices) acc' (heap s').
Proof.
  revert j acc s. induction n as [|n IH]; intros j acc s Hjn Inv H; cbn in H.
  - apply ret_inv in H as [<- ->]. rewrite <- Hjn, Nat.add_0_r. exact Inv.
  - apply bind_inv in H as (acc1 & s1 & H1 & H).
    apply (IH (S j) acc1 s1); [lia| |exact H].
    apply (hour_step j acc s); [lia|exact Inv|exact H1].
Qed.

Lemma service_hour_spec date hour s act' ts' ls' rem chg trips s' :
  heap s = h0 ->
  Provider.service_hour destination sqrt fuel g devices date hour T0 L0 inactivity s
    = Ok (act', ts', ls', rem, chg, trips) s' ->
  exists T L,
    hour_inv g devices ds T0 L0 h0 (List.length devices)
             (Provider.HourAcc act' rem chg trips T L) (heap s') /\
    Forall2 (fun a t => forall k, (k < List.length devices)%nat ->
                          a = nth k devices O -> t = nth k T 0) act' ts' /\
    Forall2 (fun a l => forall k, (k < List.length devices)%nat ->
                          a = nth k devices O -> l = nth k L feat0) act' ls'.
Proof.
  intros Hs H. pose proof hs_len as Hn. unfold Provider.service_hour in H.
  apply bind_inv in H as (acc & s1 & Hloop & H).
  assert (Inv : hour_inv g devices ds T0 L0 h0 (List.length devices) acc (heap s1)).
  { apply (hour_loop _ 0 (Provider.HourAcc [] [] [] [] T0 L0) s _ _ eq_refl);
    [rewrite Hs; apply hour_inv_init|exact Hloop]. }
  apply bind_inv in H as (ts & s2 & Hts & H). apply bind_inv in H as (ls & s3 & Hls & H).
  apply ret_inv in H as [E ->]. injection E as <- <- <- <- <- <-.
  pose proof Inv as (Ht & Hl & Hf & _ & _ & _ & _ & Hact & _).
  (* each active object is found at its own index of [devices] *)
  assert (Hidx : forall a s4 dd s5, In a (Provider.h_active acc) -> heap s4 = heap s1 ->
            deref a s4 = Ok dd s5 ->
            exists k, (k < List.length devices)%nat /\ a = nth k devices O /\
                      index_of (heap s1) devices dd = Some k).
  { intros a s4 dd s5 Ha E4 Hd. apply deref_inv in Hd as [Hd _]. rewrite E4 in Hd.
    rewrite Hact in Ha. apply in_active_of in Ha as (k & Hk & -> & _); [|lia].
    exists k. split; [lia|]. split; [reflexivity|].
    apply (index_of_found _ _ _ _ (nth k devices O)); [apply hs_nth; lia|exact Hd|].
    intros k' r' Hk' Hr'. apply nth_error_nth with (d := O) in Hr'. subst r'.
    change (nth k' devices O) with (@nth ref k' devices O).
    rewrite (hs_id_at _ _ k' Hf) by lia.
    assert (Ed : id_at (heap s1) (nth k devices O) = device_id dd)
      by (unfold id_at; rewrite Hd; reflexivity).
    rewrite <- Ed, (hs_id_at _ _ k Hf) by lia. intros E. apply hs_ids in E; lia. }
  assert (F1 : Forall2 (fun a t => forall k, (k < List.length devices)%nat ->
                          a = nth k devices O -> t = nth k (Provider.h_times acc) 0)
                 (Provider.h_active acc) ts /\ heap s2 = heap s1).
  { refine (mapM_Forall2 _ _ _ (heap s1) s1 _ _ _ eq_refl Hts).
    intros x s4 y s5 Hx E4 Hy.
    apply bind_inv in Hy as (dd & s6 & Hd & Hy). pose proof (deref_inv _ _ _ _ Hd) as [_ ->].
    destruct (Hidx _ _ _ _ Hx E4 Hd) as (k & Hk & -> & Hik).
    apply bind_inv in Hy as (i & s7 & Hi & Hy). apply list_index_inv in Hi as [Hi ->].
    rewrite E4, Hik in Hi. injection Hi as <-.
    apply get_at_inv in Hy as [Hy ->]. split; [|exact E4].
    intros k' Hk' Ek. apply hs_refs in Ek; [subst k'|lia|lia].
    apply nth_error_nth with (d := 0) in Hy. auto. }
  destruct F1 as [F1 E2].
  assert (F2 : Forall2 (fun a l => forall k, (k < List.length devices)%nat ->
                          a = nth k devices O -> l = nth k (Provider.h_locations acc) feat0)
                 (Provider.h_active acc) ls /\ heap s' = heap s1).
  { refine (mapM_Forall2 _ _ _ (heap s1) s2 _ _ _ E2 Hls).
    intros x s4 y s5 Hx E4 Hy.
    apply bind_inv in Hy as (dd & s6 & Hd & Hy). pose proof (deref_inv _ _ _ _ Hd) as [_ ->].
    destruct (Hidx _ _ _ _ Hx E4 Hd) as (k & Hk & -> & Hik).
    apply bind_inv in Hy as (i & s7 & Hi & Hy). apply list_index_inv in Hi as [Hi ->].
    rewrite E4, Hik in Hi. injection Hi as <-.
    apply get_at_inv in Hy as [Hy ->]. split; [|exact E4].
    intros k' Hk' Ek. apply hs_refs in Ek; [subst k'|lia|lia].
    apply nth_error_nth with (d := feat0) in Hy. auto. }
  destruct F2 as [F2 E3].
  exists (Provider.h_times acc), (Provider.h_locations acc). rewrite E3.
  destruct acc; cbn in *. split; [exact Inv|]. split; assumption.
Qed.

End HourSpec.

(** ** C7: devices with a low battery in [service_hour] *)

(** Claim C7: in [service_hour], a device of the roster whose battery is
    below [0.2] has exactly one event that hour, an
    [unavailable:low_battery] event at the device's current time and
    location; a copy of the device carrying that time as its [event_time]
    is in the removed list; the device is not in the active list; and no
    trip of that hour is one of the device's. *)
Theorem service_hour_low_battery destination sqrt fuel g inactivity devices ds
    date hour times locations s act' ts' ls' rem chg trips s' k r d b :
  Forall2 (fun r d => nth_error (heap s) r = Some d) devices ds ->
  NoDup (map device_id ds) ->
  List.length times = List.length devices ->
  List.length locations = List.length devices ->
  Provider.service_hour destination sqrt fuel g devices date hour times locations
    inactivity s = Ok (act', ts', ls', rem, chg, trips) s' ->
  nth_error devices k = Some r -> nth_error (heap s) r = Some d ->
  Provider.has_battery d = true -> battery_pct d = Some b -> b < 1 # 5 ->
  (exists e, trace (device_id d) chg = [e] /\
     event_type e = "unavailable" /\ event_type_reason e = "low_battery" /\
     event_time e = nth k times 0 /\ event_location e = nth k locations feat0) /\
  (exists rr, In rr rem /\
     nth_error (heap s') rr = Some (set_event_time d (Some (nth k times 0)))) /\
  ~ In r act' /\
  Forall (fun tr => device_id (trip_device tr) <> device_id d) trips.
Proof.
  intros Hds Hnd HT HL H Hr Hd Hb Hpct Hlt.
  destruct (service_hour_spec destination sqrt fuel g inactivity devices ds times
              locations (heap s) Hds Hnd HT HL date hour s _ _ _ _ _ _ _ eq_refl H)
    as (T & L & Inv & _ & _).
  assert (Hk : (k < List.length devices)%nat)
    by (apply nth_error_Some; rewrite Hr; discriminate).
  destruct (Forall2_nth_error_l _ _ _ _ _ Hds Hr) as (d' & Hd' & Hd'').
  rewrite Hd in Hd''. injection Hd'' as <-.
  apply nth_error_nth with (d := dev0) in Hd'.
  apply nth_error_nth with (d := O) in Hr.
  assert (Hlow : lowb d = true)
    by (unfold lowb; rewrite Hb, Hpct; cbn;
        destruct (Qltb b (1 # 5)) eqn:E; [reflexivity|apply Qltb_false in E; lra]).
  destruct Inv as (_ & _ & _ & _ & Hcase & _ & _ & Hact & _).
  specialize (Hcase k Hk). unfold hour_case in Hcase. cbn [Provider.h_changes
    Provider.h_removed Provider.h_trips Provider.h_active] in *.
  rewrite Hd', Hlow in Hcase. destruct Hcase as (Htr & Hrm & Htrips).
  refine (conj _ (conj Hrm (conj _ Htrips))).
  - eexists. split; [exact Htr|]. repeat split.
  - rewrite Hact. intros Hin.
    apply (in_active_of devices ds times locations (heap s) Hds HT HL) in Hin
      as (k' & Hk' & E & L'); [|lia].
    rewrite <- Hr in E.
    apply (hs_refs devices ds times locations (heap s) Hds Hnd HT HL) in E;
      [subst k'|exact Hk|exact Hk'].
    rewrite Hd', Hlow in L'. discriminate.
Qed.

Lemma service_hour_low_battery_witness :
  match Provider.service_hour east_destination newton_sqrt 10 gen_square [O; 1%nat] 0 8
          [0; 0] [feat0; feat0] 1 (state_of [low_scooter; bicycle] [1 # 2]) with
  | Ok (act', ts', ls', rem, chg, trips) s' =>
      (exists e, trace (device_id low_scooter) chg = [e] /\
         event_type e = "unavailable" /\ event_type_reason e = "low_battery" /\
         event_time e = 0 /\ event_location e = feat0) /\
      (exists rr, In rr rem /\
         nth_error (heap s') rr = Some (set_event_time low_scooter (Some 0))) /\
      ~ In O act' /\
      Forall (fun tr => device_id (trip_device tr) <> device_id low_scooter) trips
  | _ => False
  end.
Proof.
  destruct (Provider.service_hour east_destination newton_sqrt 10 gen_square [O; 1%nat] 0 8
              [0; 0] [feat0; feat0] 1 (state_of [low_scooter; bicycle] [1 # 2]))
    as [[[[[[act' ts'] ls'] rem] chg] trips] s'| |] eqn:E.
  - apply (service_hour_low_battery east_destination newton_sqrt 10 gen_square 1 [O; 1%nat]
             [low_scooter; bicycle] 0 8 [0; 0] [feat0; feat0]
             (state_of [low_scooter; bicycle] [1 # 2]) act' ts' ls' rem chg trips s'
             O O low_scooter (1 # 10)).
    + repeat constructor.
    + constructor; [cbv; intros [H|[]]; discriminate|constructor; [intros []|constructor]].
    + reflexivity.
    + reflexivity.
    + exact E.
    + reflexivity.
    + reflexivity.
    + reflexivity.
    + reflexivity.
    + reflexivity.
  - vm_compute in E. discriminate E.
  - vm_compute in E. discriminate E.
Defined.

(** ** Day-level facts *)

(** ** Sampling and filtering *)

Lemma perm_list_set {A} (L : list A) j y d :
  (j < List.length L)%nat -> Permutation (nth j L d :: list_set L j y) (app L [y]).
Proof.
  revert j. induction L as [|a L IH]; intros [|j] Hj; cbn in *; try lia.
  - constructor. apply Permutation_cons_append.
  - eapply perm_trans; [apply perm_swap|]. constructor. apply IH. lia.
Qed.

Lemma firstn_list_set_lt {A} (l : list A) n j x :
  (j < n)%nat -> firstn n (list_set l j x) = list_set (firstn n l) j x.
Proof.
  revert n j. induction l as [|a l IH]; intros [|n] [|j] Hj; cbn; try lia; auto.
  rewrite IH by lia. reflexivity.
Qed.

Lemma firstn_list_set_ge {A} (l : list A) n j x :
  (n <= j)%nat -> firstn n (list_set l j x) = firstn n l.
Proof.
  revert n j. induction l as [|a l IH]; intros [|n] [|j] Hj; cbn; try lia; auto.
  rewrite IH by lia. reflexivity.
Qed.

Lemma nth_firstn_lt {A} (l : list A) n j d :
  (j < n)%nat -> nth j (firstn n l) d = nth j l d.
Proof. intros H. rewrite nth_firstn. destruct (Nat.ltb_spec j n); [reflexivity|lia]. Qed.

Lemma randbelow_range m s j s' :
  (0 < m)%Z -> Random.randbelow m s = Ok j s' -> (0 <= j < m)%Z.
Proof.
  unfold Random.randbelow. intros Hm H. inv_ok. apply random_inv in H0 as (H0 & H1 & _).
  assert (Hm' : 0 < inject_Z m) by (change 0 with (inject_Z 0); rewrite <- Zlt_Qlt; exact Hm).
  split.
  - change 0%Z with (Qfloor 0). apply Qfloor_resp_le. nra.
  - rewrite Zlt_Qlt. eapply Qle_lt_trans; [apply Qfloor_le|]. nra.
Qed.

Lemma sample_pool_perm {A} (d : A) k : forall pool m s res s',
  (k <= m)%nat -> (m <= List.length pool)%nat ->
  Random.sample_pool d pool m k s = Ok res s' ->
  exists rest, Permutation (app res rest) (firstn m pool).
Proof.
  induction k as [|k IH]; intros pool m s res s' Hk Hm H; cbn [Random.sample_pool] in H.
  - apply ret_inv in H as [<- _]. exists (firstn m pool). reflexivity.
  - apply bind_inv in H as (j & s1 & Hj & H).
    apply randbelow_range in Hj; [|lia].
    apply bind_inv in H as (res' & s2 & Hr & H). apply ret_inv in H as [<- _].
    set (jn := Z.to_nat j) in *.
    assert (Hjn : (jn < m)%nat) by (unfold jn; lia).
    assert (Hk' : (k <= m - 1)%nat) by lia.
    assert (Hm' : (m - 1 <= List.length (list_set pool jn (nth (m - 1) pool d)))%nat)
      by (rewrite length_list_set; lia).
    destruct (IH _ _ _ _ _ Hk' Hm' Hr) as (rest & Hp).
    exists rest. cbn [app].
    eapply perm_trans; [apply perm_skip; exact Hp|].
    assert (Ef : firstn m pool = app (firstn (m - 1) pool) [nth (m - 1) pool d]).
    { rewrite <- firstn_S_snoc by lia. f_equal. lia. }
    rewrite Ef.
    destruct (Nat.eq_dec jn (m - 1)) as [E|E].
    + rewrite firstn_list_set_ge by lia. rewrite E. apply Permutation_cons_append.
    + rewrite firstn_list_set_lt by lia.
      rewrite <- (nth_firstn_lt pool (m - 1) jn d) by lia.
      apply perm_list_set. rewrite length_firstn. lia.
Qed.

Lemma sample_perm {A} (d : A) l k s res s' :
  Random.sample d l k s = Ok res s' -> exists rest, Permutation (app res rest) l.
Proof.
  unfold Random.sample. destruct ((0 <=? k)%Z && (k <=? Z.of_nat (List.length l))%Z) eqn:E;
    [|discriminate].
  apply andb_prop in E as [E1 E2]. apply Z.leb_le in E1, E2.
  intros H. apply sample_pool_perm in H; [|lia|lia].
  rewrite firstn_all in H. exact H.
Qed.

Lemma randint_range a b s n s' :
  (a <= b)%Z -> Random.randint a b s = Ok n s' -> (a <= n <= b)%Z.
Proof.
  unfold Random.randint, Random.randrange. intros Hab.
  destruct (Z.ltb_spec 0 (b + 1 - a)) as [Hw|Hw]; [|lia].
  intros H. apply bind_inv in H as (r & s1 & Hr & H). apply ret_inv in H as [<- _].
  apply randbelow_range in Hr; lia.
Qed.

Lemma Permutation_filter_l {A} (f : A -> bool) l l' :
  Permutation l l' -> Permutation (filter f l) (filter f l').
Proof.
  induction 1; cbn; auto.
  - destruct (f x); auto.
  - destruct (f x), (f y); auto. apply perm_swap.
  - eapply perm_trans; eauto.
Qed.

Lemma filter_split_perm {A} (f : A -> bool) l :
  Permutation (app (filter f l) (filter (fun x => negb (f x)) l)) l.
Proof.
  induction l as [|a l IH]; cbn; auto.
  destruct (f a); cbn.
  - constructor. exact IH.
  - eapply perm_trans; [apply Permutation_sym, Permutation_middle|]. constructor. exact IH.
Qed.


Lemma py_index_inv q s z s' : py_index q s = Ok z s' -> inject_Z z == q.
Proof.
  unfold py_index. destruct (Qeq_bool (inject_Z (Qfloor q)) q) eqn:E; [|discriminate].
  intros H. apply ret_inv in H as [<- _]. apply Qeq_bool_iff. exact E.
Qed.

Lemma random_date_from_after t mx s v s' :
  Util.random_date_from t None (Some mx) s = Ok v s' -> t <= v.
Proof.
  unfold Util.random_date_from. intros H.
  apply bind_inv in H as ([mn mx'] & s1 & H1 & H).
  apply bind_inv in H1 as (a & s2 & Ha & H1). apply ret_inv in H1 as [E _].
  injection E as <- <-.
  apply bind_inv in H as (off & s3 & Ho & H). apply ret_inv in H as [<- _].
  unfold Random.randint_float in Ha.
  apply bind_inv in Ha as (ia & s4 & Hia & Ha). apply py_index_inv in Hia.
  apply bind_inv in Ha as (ib & s5 & Hib & Ha). apply py_index_inv in Hib.
  assert (ia = 0%Z) as -> by (apply inject_Z_injective; exact Hia).
  unfold Random.randrange in Ha. destruct (Z.ltb_spec 0 (ib - 0)) as [Hw|Hw]; [|discriminate].
  apply bind_inv in Ha as (r & s6 & Hr & Ha). apply ret_inv in Ha as [<- _].
  apply randbelow_range in Hr; [|lia].
  assert (Hle : inject_Z (0 + r) + 1 <= inject_Z ib).
  { change 1 with (inject_Z 1). rewrite <- inject_Z_plus, <- Zle_Qle. lia. }
  assert (H0 : 0 <= inject_Z (0 + r)) by (change 0 with (inject_Z 0); rewrite <- Zle_Qle; lia).
  apply uniform_range in Ho; lra.
Qed.

Lemma mapM_frame {A B} (f : A -> M B) (P : A -> B -> Prop) X l s ys s' :
  (forall x s1 y s2, In x l -> heap_frame X (heap s) (heap s1) -> f x s1 = Ok y s2 ->
     P x y /\ heap_frame X (heap s1) (heap s2)) ->
  mapM f l s = Ok ys s' -> Forall2 P l ys /\ heap_frame X (heap s) (heap s').
Proof.
  intros Hf. revert s Hf ys. induction l as [|a l IH]; intros s Hf ys Hm; cbn in Hm.
  - apply ret_inv in Hm as [<- ->]. split; [constructor|apply frame_refl].
  - apply bind_inv in Hm as (y & s1 & Hy & Hm). apply bind_inv in Hm as (ys' & s2 & Hys & Hm).
    apply ret_inv in Hm as [<- ->].
    destruct (Hf a s y s1 (or_introl eq_refl) (frame_refl _ _) Hy) as [P1 F1].
    destruct (IH s1 (fun x s3 y' s4 Hx F Hf' => Hf x s3 y' s4 (or_intror Hx)
                   (frame_trans _ _ _ _ F1 F) Hf') ys' Hys) as [P2 F2].
    split; [constructor; assumption|]. eapply frame_trans; eassumption.
Qed.

Lemma NoDup_map_inj {A B} (f : A -> B) l a b :
  NoDup (map f l) -> In a l -> In b l -> f a = f b -> a = b.
Proof.
  induction l as [|c l IH]; cbn; intros Hn Ha Hb E; [contradiction|].
  inversion Hn as [|? ? Hc Hn']; subst.
  destruct Ha as [<-|Ha], Hb as [<-|Hb]; auto.
  - exfalso. apply Hc. rewrite E. apply in_map. exact Hb.
  - exfalso. apply Hc. rewrite <- E. apply in_map. exact Ha.
Qed.

Lemma Forall2_nth_self {A B} (l : list A) (bs : list B) da db (Q : nat -> B -> Prop) :
  Forall2 (fun a b => forall k, (k < List.length l)%nat -> a = nth k l da -> Q k b) l bs ->
  forall k, (k < List.length l)%nat -> Q k (nth k bs db).
Proof.
  intros H k Hk. exact (Forall2_nth_both _ _ _ k da db H Hk k Hk eq_refl).
Qed.

(** ** Traces of one event per device *)

Lemma trace_Forall2_out h refs evs x :
  Forall2 (fun r e => device_id (sc_device e) = id_at h r) refs evs ->
  ~ In x (map (id_at h) refs) -> trace x evs = [].
Proof.
  induction 1 as [|r e refs evs He H IH]; intros Hx; [reflexivity|].
  cbn [map] in Hx.
  rewrite trace_cons_neq by (rewrite He; intros E; apply Hx; left; exact E).
  apply IH. intros Hin. apply Hx. right. exact Hin.
Qed.

Lemma trace_Forall2_in h refs evs k :
  Forall2 (fun r e => device_id (sc_device e) = id_at h r) refs evs ->
  NoDup (map (id_at h) refs) -> (k < List.length refs)%nat ->
  trace (id_at h (nth k refs O)) evs = [nth k evs sc0].
Proof.
  intros H. revert k. induction H as [|r e refs evs He H IH]; intros k Hn Hk;
    cbn [map List.length] in *; [lia|].
  inversion Hn as [|? ? Hr Hn']; subst.
  destruct k as [|k].
  - cbn [nth]. rewrite trace_cons_eq by exact He. f_equal.
    apply (trace_Forall2_out h refs); assumption.
  - cbn [nth]. rewrite trace_cons_neq.
    + apply IH; [exact Hn'|lia].
    + rewrite He. intros E. apply Hr. rewrite E. apply in_map, nth_In. lia.
Qed.

(** ** [filter_not_in], [start_service], [end_service], [devices_recharged] *)

Lemma NoDup_app_disj {A} (l1 l2 : list A) a :
  NoDup (app l1 l2) -> In a l1 -> In a l2 -> False.
Proof.
  induction l1 as [|b l1 IH]; cbn; intros Hn H1 H2; [contradiction|].
  inversion Hn as [|? ? Hb Hn']; subst. destruct H1 as [<-|H1].
  - apply Hb, in_or_app. right. exact H2.
  - exact (IH Hn' H1 H2).
Qed.

Lemma filter_all_false {A} (f : A -> bool) l :
  (forall x, In x l -> f x = false) -> filter f l = [].
Proof.
  induction l as [|a l IH]; cbn; intros H; [reflexivity|].
  rewrite (H a (or_introl eq_refl)). apply IH. intros x Hx. apply H. right. exact Hx.
Qed.

Lemma filter_all_true {A} (f : A -> bool) l :
  (forall x, In x l -> f x = true) -> filter f l = l.
Proof.
  induction l as [|a l IH]; cbn; intros H; [reflexivity|].
  rewrite (H a (or_introl eq_refl)). f_equal. apply IH. intros x Hx. apply H. right. exact Hx.
Qed.

Lemma id_at_some h r d : nth_error h r = Some d -> id_at h r = device_id d.
Proof. unfold id_at. intros ->. reflexivity. Qed.

Lemma index_of_nodup h l k d :
  NoDup (map (id_at h) l) -> (k < List.length l)%nat -> nth_error h (nth k l O) = Some d ->
  index_of h l d = Some k.
Proof.
  intros Hn Hk Hd. apply (index_of_found _ _ _ _ (nth k l O)); [|exact Hd|].
  - apply nth_error_nth'. exact Hk.
  - intros k' r' Hk' Hr' E. rewrite <- (id_at_some _ _ _ Hd) in E.
    assert (Hr'' : r' = nth k' l O) by (symmetry; apply nth_error_nth; exact Hr').
    assert (Hin' : In r' l) by (eapply nth_error_In; exact Hr').
    pose proof (NoDup_map_inj _ _ _ _ Hn Hin' (nth_In _ _ Hk) E) as Er.
    pose proof (NoDup_map_inv _ _ Hn) as Hn'.
    assert (k' = k) by (apply (proj1 (NoDup_nth l O) Hn' k' k); [lia|exact Hk|congruence]). lia.
Qed.

Lemma filter_not_in_inv lst excl s res s' :
  Provider.filter_not_in lst excl s = Ok res s' ->
  heap s' = heap s /\
  exists ds, Forall2 (fun r d => nth_error (heap s) r = Some d) lst ds /\
    res = map fst (filter (fun p => negb (mem_of (heap s) excl (snd p))) (combine lst ds)).
Proof.
  unfold Provider.filter_not_in. intros H.
  apply bind_inv in H as (h & s1 & Hh & H). apply get_heap_inv in Hh as [-> ->].
  apply bind_inv in H as (ds & s2 & Hds & H). apply ret_inv in H as [<- <-].
  assert (FE : Forall2 (fun r d => nth_error (heap s) r = Some d) lst ds /\ heap s2 = heap s).
  { refine (mapM_Forall2 _ _ _ (heap s) s _ _ _ eq_refl Hds).
    intros x s3 y s4 _ E Hy. apply deref_inv in Hy as [Hy ->]. rewrite E in Hy.
    split; [exact Hy|exact E]. }
  destruct FE as [F E]. split; [exact E|]. exists ds. split; [exact F|reflexivity].
Qed.

Lemma filter_combine_refs h lst ds (f : device -> bool) :
  Forall2 (fun r d => nth_error h r = Some d) lst ds ->
  map fst (filter (fun p => f (snd p)) (combine lst ds)) = filter (fun r => f (nth r h dev0)) lst.
Proof.
  induction 1 as [|r d lst ds Hd H IH]; [reflexivity|]. cbn.
  rewrite (nth_error_nth _ _ _ Hd). destruct (f d); cbn; [f_equal|]; exact IH.
Qed.

Lemma mem_of_in h l r d : In r l -> nth_error h r = Some d -> mem_of h l d = true.
Proof.
  unfold mem_of. induction l as [|r' l IH]; cbn; intros Hin Hd; [contradiction|].
  destruct Hin as [->|Hin].
  - rewrite Hd, device_eqb_refl. reflexivity.
  - specialize (IH Hin Hd).
    destruct (nth_error h r') as [d'|]; [destruct (device_eqb d' d)|];
      [reflexivity| |]; destruct (index_of h l d); cbn; congruence.
Qed.

Lemma mem_of_out h l d :
  (forall r d', In r l -> nth_error h r = Some d' -> device_id d' <> device_id d) ->
  mem_of h l d = false.
Proof.
  unfold mem_of. induction l as [|r' l IH]; cbn; intros H; [reflexivity|].
  assert (IH' : index_of h l d = None).
  { specialize (IH (fun r d' Hr Hd' => H r d' (or_intror Hr) Hd')).
    destruct (index_of h l d); [discriminate|reflexivity]. }
  rewrite IH'. destruct (nth_error h r') as [d'|] eqn:E; [|reflexivity].
  destruct (device_eqb d' d) eqn:Eq; [|reflexivity].
  apply device_eqb_id in Eq. exfalso. exact (H r' d' (or_introl eq_refl) E Eq).
Qed.

Lemma Forall2_In_left {A B} (P : A -> B -> Prop) l1 l2 x :
  Forall2 P l1 l2 -> In x l1 -> exists y, In y l2 /\ P x y.
Proof.
  induction 1 as [|a b l1 l2 Hab H IH]; cbn; intros Hx; [contradiction|].
  destruct Hx as [<-|Hx]; [eauto|]. destruct (IH Hx) as (y & Hy & Py). eauto.
Qed.

Lemma filter_not_in_perm h lst excl rest ds :
  Forall2 (fun r d => nth_error h r = Some d) lst ds ->
  NoDup (map (id_at h) lst) -> Permutation (app excl rest) lst ->
  Permutation (map fst (filter (fun p => negb (mem_of h excl (snd p))) (combine lst ds))) rest.
Proof.
  intros F Hn P. rewrite (filter_combine_refs h lst ds (fun d => negb (mem_of h excl d)) F).
  assert (Hv : forall r, In r lst -> nth_error h r = Some (nth r h dev0)).
  { intros r Hr. destruct (Forall2_In_left _ _ _ _ F Hr) as (d & _ & Hd).
    rewrite (nth_error_nth _ _ _ Hd). exact Hd. }
  assert (Hnd : NoDup (app excl rest))
    by (eapply Permutation_NoDup; [apply Permutation_sym, P|apply (NoDup_map_inv _ _ Hn)]).
  rewrite (filter_ext_in _ (fun r => negb (existsb (Nat.eqb r) excl))).
  - eapply perm_trans; [apply Permutation_filter_l, Permutation_sym, P|].
    rewrite filter_app, filter_all_false, filter_all_true; [reflexivity| |].
    + intros r Hr. apply negb_true_iff, not_true_iff_false. intros Ex.
      apply existsb_exists in Ex as (r' & Hr' & Er). apply Nat.eqb_eq in Er. subst r'.
      exact (NoDup_app_disj _ _ _ Hnd Hr' Hr).
    + intros r Hr. apply negb_false_iff, existsb_exists. exists r.
      split; [exact Hr|apply Nat.eqb_refl].
  - intros r Hr. f_equal.
    destruct (existsb (Nat.eqb r) excl) eqn:Ex.
    + apply existsb_exists in Ex as (r' & Hr' & Er). apply Nat.eqb_eq in Er. subst r'.
      apply (mem_of_in _ _ r); [exact Hr'|exact (Hv r Hr)].
    + apply mem_of_out. intros r' d' Hr' Hd' E.
      assert (Hr'l : In r' lst)
        by (apply (Permutation_in _ P), in_or_app; left; exact Hr').
      rewrite <- (id_at_some _ _ _ Hd'), <- (id_at_some _ _ _ (Hv r Hr)) in E.
      pose proof (NoDup_map_inj _ _ _ _ Hn Hr'l Hr E) as <-.
      apply not_true_iff_false in Ex. apply Ex, existsb_exists. exists r'.
      split; [exact Hr'|apply Nat.eqb_refl].
Qed.

Lemma start_service_spec fuel g devs t0 s evs s' :
  Provider.start_service fuel g devs t0 s = Ok evs s' -> NoDup devs ->
  heap_frame (fun r => In r devs) (heap s) (heap s') /\
  Forall2 (fun r e => device_id (sc_device e) = id_at (heap s) r /\
             event_type e = "available" /\ event_type_reason e = "service_start" /\
             exists p, event_location e = to_feature p (event_time e)) devs evs /\
  (forall r d, In r devs -> nth_error (heap s) r = Some d ->
     nth_error (heap s') r =
       Some (set_battery d (if Provider.has_battery d then Some 1 else battery_pct d))).
Proof.
  revert s evs. induction devs as [|r rest IH]; intros s evs H Hnd;
    cbn [Provider.start_service] in H.
  - apply ret_inv in H as [<- ->]. split; [apply frame_refl|]. split; [constructor|].
    intros r d [].
  - inversion Hnd as [|? ? Hr Hnd']; subst.
    apply bind_inv in H as (t & s1 & Ht & H). pose proof (pure_heap _ _ _ Ht) as E1.
    apply bind_inv in H as (p & s2 & Hp & H). pose proof (pure_heap _ _ _ Hp) as E2.
    cbv zeta in H.
    apply bind_inv in H as (d & s3 & Hd & H). apply deref_inv in Hd as [Hd ->].
    rewrite E2, E1 in Hd.
    apply bind_inv in H as (u & s4 & Hu & H).
    set (B := set_battery d (if Provider.has_battery d then Some 1 else battery_pct d)).
    assert (H4 : heap_frame (eq r) (heap s) (heap s4) /\ nth_error (heap s4) r = Some B /\
                 forall r', r' <> r -> nth_error (heap s4) r' = nth_error (heap s) r').
    { unfold B. destruct (Provider.has_battery d).
      - destruct u. apply recharge_battery_inv in Hu as (d0 & Hd0 & E4).
        rewrite E2, E1, Hd in Hd0. injection Hd0 as <-. rewrite E4, E2, E1.
        split; [apply frame_store; exact Hd|]. split.
        + eapply nth_error_list_set_eq. exact Hd.
        + intros r' Hr'. apply nth_error_list_set_neq. congruence.
      - apply ret_inv in Hu as [_ <-]. rewrite set_battery_same, E2, E1.
        split; [apply frame_refl|]. split; [exact Hd|reflexivity]. }
    destruct H4 as (F4 & B4 & O4).
    apply bind_inv in H as (d' & s5 & Hd' & H). apply deref_inv in Hd' as [Hd' ->].
    apply bind_inv in H as (evs' & s6 & Hevs & H). apply ret_inv in H as [<- ->].
    destruct (IH s4 evs' Hevs Hnd') as (F & Fe & Fb).
    assert (Ids : forall r', id_at (heap s4) r' = id_at (heap s) r').
    { intros r'. destruct (Nat.eq_dec r' r) as [->|Ne].
      - rewrite (id_at_some _ _ _ B4), (id_at_some _ _ _ Hd). reflexivity.
      - unfold id_at. rewrite (O4 r' Ne). reflexivity. }
    split; [|split].
    + eapply frame_trans.
      * eapply frame_mono; [|exact F4]. intros r' <-. left. reflexivity.
      * eapply frame_mono; [|exact F]. intros r' Hr'. right. exact Hr'.
    + constructor.
      * destruct (merge_event_fields d' (Provider.status_change_event g d "available"
                    "service_start" t (to_feature p t))) as (M1 & M2 & M3 & M4 & M5).
        rewrite M1, M2, M3, M4, M5.
        split; [|split; [reflexivity|split; [reflexivity|exists p; reflexivity]]].
        rewrite (id_at_some _ _ _ Hd). reflexivity.
      * eapply Forall2_impl; [|exact Fe]. intros r' e [He Hrest]. split; [|exact Hrest].
        rewrite He. apply Ids.
    + intros r' d0 [<-|Hin] Hd0.
      * rewrite Hd in Hd0. injection Hd0 as <-.
        rewrite (frame_untouched _ _ _ _ _ F B4 Hr). reflexivity.
      * apply Fb; [exact Hin|]. rewrite O4; [exact Hd0|]. intros ->. contradiction.
Qed.

Lemma end_service_spec fuel g devs end_t locs s evs s' :
  Provider.end_service fuel g devs end_t (Some locs) s = Ok evs s' ->
  NoDup (map (id_at (heap s)) devs) ->
  heap s' = heap s /\
  Forall2 (fun r e => device_id (sc_device e) = id_at (heap s) r) devs evs /\
  (forall k, (k < List.length devs)%nat ->
     event_type (nth k evs sc0) = "removed" /\
     event_type_reason (nth k evs sc0) = "service_end" /\
     end_t <= event_time (nth k evs sc0) /\
     f_point (event_location (nth k evs sc0)) = f_point (nth k locs feat0)).
Proof.
  intros H Hn. unfold Provider.end_service in H.
  assert (FE : Forall2 (fun r e => device_id (sc_device e) = id_at (heap s) r /\
                 forall k, (k < List.length devs)%nat -> r = nth k devs O ->
                   event_type e = "removed" /\
                   event_type_reason e = "service_end" /\ end_t <= event_time e /\
                   f_point (event_location e) = f_point (nth k locs feat0)) devs evs /\
               heap s' = heap s).
  { refine (mapM_Forall2 _ _ _ (heap s) s _ _ _ eq_refl H).
    intros x s1 y s2 Hx E1 Hy.
    apply bind_inv in Hy as (t & s3 & Ht & Hy). pose proof (pure_heap _ _ _ Ht) as E3.
    apply random_date_from_after in Ht.
    apply bind_inv in Hy as (pt & s4 & Hp & Hy).
    apply bind_inv in Hp as (d & s5 & Hd & Hp). apply deref_inv in Hd as [Hd ->].
    apply bind_inv in Hp as (i & s6 & Hi & Hp). apply list_index_inv in Hi as [Hi ->].
    apply bind_inv in Hp as (f & s7 & Hf & Hp). apply get_at_inv in Hf as [Hf ->].
    apply ret_inv in Hp as [<- <-].
    cbv zeta in Hy.
    apply bind_inv in Hy as (d2 & s8 & Hd2 & Hy). apply deref_inv in Hd2 as [Hd2 ->].
    apply ret_inv in Hy as [<- <-].
    rewrite E3, E1 in Hd, Hi, Hd2. rewrite Hd in Hd2. injection Hd2 as <-.
    destruct (merge_event_fields d (Provider.status_change_event g d "removed"
                "service_end" t (to_feature (extract_point f) t))) as (M1 & M2 & M3 & M4 & M5).
    split; [split|rewrite E3; exact E1].
    - rewrite M1. cbn. rewrite (id_at_some _ _ _ Hd). reflexivity.
    - intros k Hk ->. rewrite (index_of_nodup _ _ k _ Hn Hk Hd) in Hi.
      injection Hi as <-. rewrite (nth_error_nth _ _ _ Hf).
      rewrite M2, M3, M4, M5. cbn. split; [reflexivity|]. split; [reflexivity|].
      split; [exact Ht|reflexivity]. }
  destruct FE as [F E]. split; [exact E|]. split.
  - eapply Forall2_impl; [|exact F]. intros r e [He _]. exact He.
  - apply (Forall2_nth_self devs evs O sc0 (fun k e =>
      event_type e = "removed" /\
      event_type_reason e = "service_end" /\ end_t <= event_time e /\
      f_point (event_location e) = f_point (nth k locs feat0))).
    eapply Forall2_impl; [|exact F]. intros r e [_ He]. exact He.
Qed.

Lemma map_id_at_frame X h h' l :
  heap_frame X h h' -> Forall (fun r => (r < List.length h)%nat) l ->
  map (id_at h') l = map (id_at h) l.
Proof.
  intros F Hl. apply map_ext_in. intros r Hr.
  apply (id_at_frame _ _ _ _ F). rewrite Forall_forall in Hl. auto.
Qed.

Lemma devices_recharged_spec fuel g recharged ts s evs s' :
  Provider.devices_recharged fuel g recharged (Provider.TimeList ts) Provider.LocNone s
    = Ok evs s' ->
  Forall (fun r => (r < List.length (heap s))%nat) recharged ->
  NoDup (map (id_at (heap s)) recharged) ->
  heap_frame (fun r => In r recharged) (heap s) (heap s') /\
  Forall2 (fun r e => device_id (sc_device e) = id_at (heap s) r) recharged evs /\
  (forall k, (k < List.length recharged)%nat ->
     event_type_reason (nth k evs sc0) = "maintenance_drop_off" /\
     event_time (nth k evs sc0) = nth k ts 0).
Proof.
  intros H Hv Hn. unfold Provider.devices_recharged in H.
  assert (FE : Forall2 (fun r e => device_id (sc_device e) = id_at (heap s) r /\
                 forall k, (k < List.length recharged)%nat -> r = nth k recharged O ->
                   event_type_reason e = "maintenance_drop_off" /\ event_time e = nth k ts 0)
                 recharged evs /\
               heap_frame (fun r => In r recharged) (heap s) (heap s')).
  { refine (mapM_frame _ _ _ _ s _ _ _ H).
    intros x s1 y s2 Hx F1 Hy.
    assert (Hn1 : NoDup (map (id_at (heap s1)) recharged))
      by (rewrite (map_id_at_frame _ _ _ _ F1 Hv); exact Hn).
    apply bind_inv in Hy as (d & s3 & Hd & Hy). apply deref_inv in Hd as [Hd ->].
    apply bind_inv in Hy as (t & s4 & Ht & Hy).
    destruct (Nat.eqb (List.length ts) (List.length recharged)); [|discriminate].
    apply bind_inv in Ht as (i & s5 & Hi & Ht). apply list_index_inv in Hi as [Hi ->].
    apply get_at_inv in Ht as [Ht ->].
    apply bind_inv in Hy as (loc & s6 & Hl & Hy).
    apply bind_inv in Hl as (p & s7 & Hp & Hl). pose proof (pure_heap _ _ _ Hp) as E7.
    apply ret_inv in Hl as [<- <-].
    unfold Provider.device_recharged in Hy.
    apply bind_inv in Hy as (u & s8 & Hu & Hy). destruct u.
    apply recharge_battery_inv in Hu as (d0 & Hd0 & E8).
    rewrite E7, Hd in Hd0. injection Hd0 as <-.
    apply bind_inv in Hy as (d1 & s9 & Hd1 & Hy). apply deref_inv in Hd1 as [Hd1 ->].
    apply ret_inv in Hy as [<- <-].
    assert (Hs : (x < List.length (heap s))%nat) by (rewrite Forall_forall in Hv; auto).
    assert (Id : device_id d = id_at (heap s) x)
      by (rewrite <- (id_at_some _ _ _ Hd); apply (id_at_frame _ _ _ _ F1 Hs)).
    split; [split|].
    - cbn. rewrite E8, E7 in Hd1. rewrite (nth_error_list_set_eq _ _ _ _ Hd) in Hd1.
      injection Hd1 as <-. cbn. exact Id.
    - intros k Hk ->. rewrite (index_of_nodup _ _ k _ Hn1 Hk Hd) in Hi. injection Hi as <-.
      cbn. split; [reflexivity|]. symmetry. apply nth_error_nth. exact Ht.
    - rewrite E8, E7. eapply frame_mono; [|apply frame_store; exact Hd].
      intros r <-. exact Hx. }
  destruct FE as [F Fr]. split; [exact Fr|]. split.
  - eapply Forall2_impl; [|exact F]. intros r e [He _]. exact He.
  - apply (Forall2_nth_self recharged evs O sc0 (fun k e =>
      event_type_reason e = "maintenance_drop_off" /\ event_time e = nth k ts 0)).
    eapply Forall2_impl; [|exact F]. intros r e [_ He]. exact He.
Qed.

Lemma recharge_step_spec fuel g removed active times locs s recharged active' times' locs'
    removed' events s' :
  Provider.recharge_step fuel g removed active times locs s
    = Ok (recharged, active', times', locs', removed', events) s' ->
  Forall (fun r => (r < List.length (heap s))%nat) removed ->
  NoDup (map (id_at (heap s)) removed) ->
  exists rest,
    Permutation (app recharged rest) removed /\ Permutation removed' rest /\
    active' = app active recharged /\
    heap_frame (fun r => In r recharged) (heap s) (heap s') /\
    Forall2 (fun r e => device_id (sc_device e) = id_at (heap s) r) recharged events /\
    (forall k, (k < List.length recharged)%nat ->
       event_type_reason (nth k events sc0) = "maintenance_drop_off" /\
       dev_event_time (nth (nth k recharged O) (heap s) dev0)
         = Some (event_time (nth k events sc0))) /\
    times' = app times (map event_time events) /\
    locs' = app locs (map event_location events).
Proof.
  intros H Hv Hn. unfold Provider.recharge_step in H.
  apply bind_inv in H as (n & s1 & Hn1 & H). pose proof (pure_heap _ _ _ Hn1) as E1.
  apply bind_inv in H as (rc & s2 & Hrc & H). pose proof (pure_heap _ _ _ Hrc) as E2.
  destruct (sample_perm _ _ _ _ _ _ Hrc) as (rest & Hp).
  assert (Hnr : NoDup (map (id_at (heap s)) rc)).
  { apply (NoDup_app_remove_r _ (map (id_at (heap s)) rest)). rewrite <- map_app.
    eapply Permutation_NoDup; [apply Permutation_map, Permutation_sym, Hp|exact Hn]. }
  assert (Hvr : Forall (fun r => (r < List.length (heap s))%nat) rc).
  { rewrite Forall_forall in *. intros r Hr. apply Hv.
    apply (Permutation_in _ Hp), in_or_app. left. exact Hr. }
  destruct (Nat.ltb 0 (List.length rc)) eqn:Elt.
  - apply bind_inv in H as (ts & s3 & Hts & H).
    assert (FT : Forall2 (fun r t => exists d, nth_error (heap s) r = Some d /\
                                               dev_event_time d = Some t) rc ts /\
                 heap s3 = heap s).
    { refine (mapM_Forall2 _ _ _ (heap s) s2 _ _ _ (eq_trans E2 E1) Hts).
      intros x s4 y s5 _ E4 Hy.
      apply bind_inv in Hy as (d & s6 & Hd & Hy). apply deref_inv in Hd as [Hd ->].
      destruct (dev_event_time d) as [t|] eqn:Et; [|discriminate].
      apply ret_inv in Hy as [<- <-]. rewrite E4 in Hd. split; [eauto|exact E4]. }
    destruct FT as [FT E3].
    apply bind_inv in H as (evs & s4 & Hevs & H).
    rewrite <- E3 in Hvr, Hnr.
    destruct (devices_recharged_spec _ _ _ _ _ _ _ Hevs Hvr Hnr) as (F4 & Fe & Fk).
    rewrite E3 in Hvr, Hnr, F4, Fe.
    apply bind_inv in H as (rm & s5 & Hrm & H).
    apply ret_inv in H as [E <-]. injection E as <- <- <- <- <- <-.
    destruct (filter_not_in_inv _ _ _ _ _ Hrm) as (E5 & ds & Fds & ->).
    exists rest. split; [exact Hp|]. split.
    + apply (filter_not_in_perm _ _ _ _ _ Fds); [|exact Hp].
      rewrite (map_id_at_frame _ _ _ _ F4 Hv). exact Hn.
    + split; [reflexivity|]. split; [rewrite E5; exact F4|]. split; [exact Fe|].
      split; [|split; reflexivity].
      intros k Hk. destruct (Fk k Hk) as [R T]. split; [exact R|].
      rewrite T.
      destruct (Forall2_nth_both _ _ _ k O 0 FT Hk) as (d & Hd & Et).
      rewrite (nth_error_nth _ _ _ Hd). exact Et.
  - apply ret_inv in H as [E <-]. injection E as <- <- <- <- <- <-.
    apply Nat.ltb_ge in Elt. destruct rc; [|cbn in Elt; lia].
    exists removed. split; [reflexivity|]. split; [reflexivity|].
    split; [rewrite app_nil_r; reflexivity|].
    split; [rewrite E2, E1; apply frame_refl|]. split; [constructor|].
    split; [intros k Hk; cbn in Hk; lia|]. split; rewrite app_nil_r; reflexivity.
Qed.



Lemma started_app start_t x chg extra t l t' l' :
  started start_t x chg t l -> walk t l (trace x extra) t' l' ->
  started start_t x (app chg extra) t' l'.
Proof.
  intros (ss & mid & E & R & W) W2. exists ss, (app mid (trace x extra)).
  rewrite trace_app, E. split; [reflexivity|]. split; [exact R|].
  eapply walk_app; eassumption.
Qed.

Lemma started_nil start_t x chg extra t l :
  started start_t x chg t l -> trace x extra = [] -> started start_t x (app chg extra) t l.
Proof. intros H E. eapply started_app; [exact H|]. rewrite E. cbn. auto. Qed.

Lemma ids_disjoint h A R a b :
  NoDup (map (id_at h) (app A R)) -> In a A -> In b R -> id_at h a <> id_at h b.
Proof.
  intros Hn Ha Hb E. assert (a = b) as <-.
  { eapply NoDup_map_inj; [exact Hn|apply in_or_app; left; exact Ha|
                           apply in_or_app; right; exact Hb|exact E]. }
  exact (NoDup_app_disj A R a (NoDup_map_inv _ _ Hn) Ha Hb).
Qed.

Lemma nth_map_time l i : nth i (map event_time l) 0 = event_time (nth i l sc0).
Proof. revert i; induction l; intros [|i]; cbn; auto. Qed.

Lemma nth_map_loc l i : nth i (map event_location l) feat0 = event_location (nth i l sc0).
Proof. revert i; induction l; intros [|i]; cbn; auto. Qed.

Lemma id_at_nth h r : (r < List.length h)%nat -> id_at h r = device_id (nth r h dev0).
Proof.
  intros Hr. unfold id_at. destruct (nth_error h r) as [d|] eqn:E.
  - rewrite (nth_error_nth _ _ _ E). reflexivity.
  - apply nth_error_None in E. lia.
Qed.

Lemma Forall2_deref h l :
  Forall (fun r => (r < List.length h)%nat) l ->
  Forall2 (fun r d => nth_error h r = Some d) l (map (fun r => nth r h dev0) l).
Proof.
  induction 1 as [|r l Hr H IH]; constructor; [|exact IH].
  apply nth_error_nth'. exact Hr.
Qed.

Lemma map_id_deref h l :
  Forall (fun r => (r < List.length h)%nat) l ->
  map device_id (map (fun r => nth r h dev0) l) = map (id_at h) l.
Proof.
  induction 1 as [|r l Hr H IH]; [reflexivity|]. cbn. rewrite IH, id_at_nth by exact Hr.
  reflexivity.
Qed.

Lemma filter_map_comm {A B} (f : B -> bool) (g : A -> B) l :
  filter f (map g l) = map g (filter (fun x => f (g x)) l).
Proof. induction l as [|a l IH]; cbn; [reflexivity|]. destruct (f (g a)); cbn; congruence. Qed.

Lemma Forall_filter_sub {A} (P : A -> Prop) f l : Forall P l -> Forall P (filter f l).
Proof.
  rewrite !Forall_forall. intros H x Hx. apply filter_In in Hx as [Hx _]. auto.
Qed.

Section DaySpec.
Variables (start_t : Q) (X : list string) (I : list ref) (C0 : list status_change)
          (h1 : list device).
Hypothesis HX : NoDup X.
Hypothesis HI : Forall (fun r => (r < List.length h1)%nat /\ ~ In (id_at h1 r) X) I.

Lemma day_not_inactive acc h r :
  day_inv start_t X I C0 h1 acc h ->
  In r (app (Provider.d_active acc) (Provider.d_removed acc)) -> ~ In r I.
Proof.
  intros (_ & _ & Hv & Hp & _ & _ & _ & _ & Hf) Hr HrI.
  rewrite Forall_forall in HI, Hv. destruct (HI r HrI) as [Hr1 Hx].
  apply Hx. rewrite <- (id_at_frame _ _ _ _ Hf Hr1).
  apply (Permutation_in _ Hp), in_map, Hr.
Qed.

Lemma day_nodup acc h :
  day_inv start_t X I C0 h1 acc h ->
  NoDup (map (id_at h) (app (Provider.d_active acc) (Provider.d_removed acc))).
Proof.
  intros (_ & _ & _ & Hp & _). eapply Permutation_NoDup; [apply Permutation_sym, Hp|exact HX].
Qed.

Lemma day_recharge fuel g acc s recharged active times locations removed events s' :
  day_inv start_t X I C0 h1 acc (heap s) ->
  Provider.recharge_step fuel g (Provider.d_removed acc) (Provider.d_active acc)
    (Provider.d_times acc) (Provider.d_locations acc) s
    = Ok (recharged, active, times, locations, removed, events) s' ->
  day_inv start_t X I C0 h1
    (Provider.DayAcc active times locations removed
       (app (Provider.d_changes acc) events) (Provider.d_trips acc)) (heap s').
Proof.
  intros Inv H.
  pose proof (day_nodup _ _ Inv) as Hn.
  pose proof (fun r => day_not_inactive _ _ r Inv) as HnI.
  destruct acc as [A Ts Ls R C Tr].
  destruct Inv as (Lt & Ll & Hv & Hp & Hpos & Hrem & Htr & Hout & Hf).
  cbn [Provider.d_active Provider.d_times Provider.d_locations Provider.d_removed
       Provider.d_changes Provider.d_trips] in *.
  assert (HvAll : forall r, In r (app A R) -> (r < List.length (heap s))%nat)
    by (rewrite Forall_forall in Hv; exact Hv).
  pose proof Hv as Hv'. apply Forall_app in Hv' as [HvA HvR].
  assert (HnR : NoDup (map (id_at (heap s)) R))
    by (rewrite map_app in Hn; exact (NoDup_app_remove_l _ _ Hn)).
  destruct (recharge_step_spec _ _ _ _ _ _ _ _ _ _ _ _ _ _ H HvR HnR)
    as (rest & Prc & Prm & -> & F & Fe & Fk & -> & ->).
  assert (Hrc_R : forall r, In r recharged -> In r R)
    by (intros r Hr; apply (Permutation_in _ Prc), in_or_app; left; exact Hr).
  assert (Hrm_R : forall r, In r removed -> In r R)
    by (intros r Hr; apply (Permutation_in _ Prc), in_or_app; right;
        apply (Permutation_in _ Prm), Hr).
  assert (HnRR : NoDup (app recharged rest))
    by (eapply Permutation_NoDup; [apply Permutation_sym, Prc|exact (NoDup_map_inv _ _ HnR)]).
  assert (Hnrc : NoDup (map (id_at (heap s)) recharged)).
  { apply (NoDup_app_remove_r _ (map (id_at (heap s)) rest)). rewrite <- map_app.
    eapply Permutation_NoDup; [apply Permutation_map, Permutation_sym, Prc|exact HnR]. }
  assert (Hlen : List.length events = List.length recharged)
    by (symmetry; exact (Forall2_length Fe)).
  assert (Hall : forall r, In r (app (app A recharged) removed) -> In r (app A R)).
  { intros r Hr. apply in_app_or in Hr as [Hr|Hr]; [apply in_app_or in Hr as [Hr|Hr]|];
      apply in_or_app; auto. }
  assert (Hrc_out : forall x, ~ In x X -> ~ In x (map (id_at (heap s)) recharged)).
  { intros x Hx Hin. apply in_map_iff in Hin as (r' & <- & Hr'). apply Hx.
    apply (Permutation_in _ Hp), in_map, in_or_app. right. auto. }
  unfold day_inv; cbn [Provider.d_active Provider.d_times
    Provider.d_locations Provider.d_removed Provider.d_changes Provider.d_trips].
  split; [rewrite !length_app, length_map; lia|].
  split; [rewrite !length_app, length_map; lia|].
  assert (Hv2 : Forall (fun r => (r < List.length (heap s))%nat)
                       (app (app A recharged) removed))
    by (apply Forall_forall; intros r Hr; apply HvAll, Hall, Hr).
  split.
  { eapply Forall_impl; [|exact Hv2]. intros r Hr. exact (frame_lt _ _ _ _ F Hr). }
  split.
  { rewrite (map_id_at_frame _ _ _ _ F Hv2). eapply perm_trans; [|exact Hp].
    apply Permutation_map. rewrite <- app_assoc. apply Permutation_app_head.
    eapply perm_trans; [apply Permutation_app_head, Prm|exact Prc]. }
  split.
  { intros p Hp'. rewrite length_app in Hp'.
    destruct (Nat.lt_ge_cases p (List.length A)) as [HpA|HpA].
    - rewrite !app_nth1 by lia.
      rewrite (id_at_frame _ _ _ _ F) by (apply HvAll, in_or_app; left; apply nth_In; lia).
      apply started_nil; [apply Hpos; exact HpA|].
      apply (trace_Forall2_out (heap s) recharged); [exact Fe|]. intros Hin.
      apply in_map_iff in Hin as (r' & E' & Hr').
      apply (ids_disjoint _ A R (nth p A O) r' Hn); [apply nth_In; lia|auto|].
      symmetry. exact E'.
    - rewrite !app_nth2 by lia. rewrite Lt, Ll, nth_map_time, nth_map_loc.
      set (i := (p - List.length A)%nat). assert (Hi : (i < List.length recharged)%nat) by lia.
      set (r := nth i recharged O).
      assert (HrR : In r R) by (apply Hrc_R, nth_In; exact Hi).
      rewrite Forall_forall in Hrem. destruct (Hrem r HrR) as (d & t & l & Hd & Ht & Hs).
      destruct (Fk i Hi) as [Rs Et]. fold r in Et.
      rewrite (nth_error_nth _ _ _ Hd), Ht in Et. injection Et as ->.
      rewrite (id_at_frame _ _ _ _ F) by (apply HvAll, in_or_app; right; exact HrR).
      rewrite (id_at_some _ _ _ Hd). eapply started_app; [exact Hs|].
      rewrite <- (id_at_some _ _ _ Hd).
      unfold r. rewrite (trace_Forall2_in _ _ _ _ Fe Hnrc Hi). cbn [walk].
      split; [apply Qle_refl|]. split; [|split; reflexivity].
      unfold anchored_reason. rewrite Rs. cbn. discriminate. }
  split.
  { apply Forall_forall. intros r Hr.
    rewrite Forall_forall in Hrem. destruct (Hrem r (Hrm_R r Hr)) as (d & t & l & Hd & Ht & Hs).
    assert (Hrest : In r rest) by (apply (Permutation_in _ Prm), Hr).
    assert (Hnrc' : ~ In r recharged) by (intros Hin; exact (NoDup_app_disj _ _ _ HnRR Hin Hrest)).
    exists d, t, l. split; [exact (frame_untouched _ _ _ _ _ F Hd Hnrc')|].
    split; [exact Ht|]. apply started_nil; [exact Hs|].
    apply (trace_Forall2_out (heap s) recharged); [exact Fe|]. intros Hin.
    apply in_map_iff in Hin as (r' & E' & Hr').
    rewrite <- (id_at_some _ _ _ Hd) in E'.
    assert (r' = r) as <- by (eapply NoDup_map_inj; [exact HnR|auto|exact (Hrm_R r Hr)|exact E']).
    contradiction. }
  split; [exact Htr|].
  split.
  { intros x Hx. rewrite trace_app, (Hout x Hx).
    rewrite (trace_Forall2_out (heap s) recharged events x Fe (Hrc_out x Hx)).
    apply app_nil_r. }
  eapply frame_trans; [exact Hf|]. eapply frame_mono; [|exact F].
  intros r Hr. apply HnI, in_or_app. right. auto.
Qed.

Lemma day_hour destination sqrt fuel g date hour inactivity acc s act' ts' ls' rem hc ht s' :
  day_inv start_t X I C0 h1 acc (heap s) ->
  Provider.service_hour destination sqrt fuel g (Provider.d_active acc) date hour
    (Provider.d_times acc) (Provider.d_locations acc) inactivity s
    = Ok (act', ts', ls', rem, hc, ht) s' ->
  day_inv start_t X I C0 h1
    (Provider.DayAcc act' ts' ls' (app (Provider.d_removed acc) rem)
       (app (Provider.d_changes acc) hc) (app (Provider.d_trips acc) ht)) (heap s').
Proof.
  intros Inv H.
  pose proof (day_nodup _ _ Inv) as Hn.
  pose proof (fun r => day_not_inactive _ _ r Inv) as HnI.
  destruct acc as [A Ts Ls R C Tr].
  destruct Inv as (Lt & Ll & Hv & Hp & Hpos & Hrem & Htr & Hout & Hf).
  cbn [Provider.d_active Provider.d_times Provider.d_locations Provider.d_removed
       Provider.d_changes Provider.d_trips] in *.
  pose proof Hv as Hv'. apply Forall_app in Hv' as [HvA HvR].
  set (ds := map (fun r => nth r (heap s) dev0) A).
  assert (Hds : Forall2 (fun r d => nth_error (heap s) r = Some d) A ds)
    by exact (Forall2_deref _ _ HvA).
  assert (Eids : map device_id ds = map (id_at (heap s)) A) by exact (map_id_deref _ _ HvA).
  assert (Hnd : NoDup (map device_id ds))
    by (rewrite Eids; rewrite map_app in Hn; exact (NoDup_app_remove_r _ _ Hn)).
  destruct (service_hour_spec destination sqrt fuel g inactivity A ds Ts Ls (heap s)
              Hds Hnd Lt Ll date hour s act' ts' ls' rem hc ht s' eq_refl H)
    as (T & L & Inv & F1 & F2).
  destruct Inv as (Ht & Hl & Hfr & _ & Hcase & Htrc & Htrips & Hact & Hrb & Hperm).
  hproj.
  assert (EA : firstn (List.length A) A = A) by apply firstn_all.
  assert (Eds : firstn (List.length A) ds = ds)
    by (apply firstn_all2; exact (Nat.eq_le_incl _ _ (length_map _ A))).
  rewrite EA in Hfr. rewrite Eds in Htrc, Htrips, Hperm.
  set (lo := fun r => lowb (nth r (heap s) dev0)).
  assert (Eact : act' = filter (fun r => negb (lo r)) A).
  { rewrite Hact. unfold active_of. rewrite EA, Eds.
    exact (filter_combine_refs _ _ _ (fun d => negb (lowb d)) Hds). }
  assert (HvAct : Forall (fun r => (r < List.length (heap s))%nat) act')
    by (rewrite Eact; apply Forall_filter_sub; exact HvA).
  assert (Hrem_ids : Permutation (map (id_at (heap s')) rem)
                                 (map (id_at (heap s)) (filter lo A))).
  { rewrite <- (map_id_deref (heap s) (filter lo A)) by (apply Forall_filter_sub; exact HvA).
    change ds with (map (fun r => nth r (heap s) dev0) A) in Hperm.
    rewrite filter_map_comm in Hperm. exact Hperm. }
  assert (HidX : forall r, In r A -> In (id_at (heap s) r) X)
    by (intros r Hr; apply (Permutation_in _ Hp), in_map, in_or_app; left; exact Hr).
  assert (Hds_out : forall x, ~ In x X -> ~ In x (map device_id ds)).
  { intros x Hx Hin. rewrite Eids in Hin. apply in_map_iff in Hin as (r & <- & Hr).
    exact (Hx (HidX r Hr)). }
  unfold day_inv; cbn [Provider.d_active Provider.d_times
    Provider.d_locations Provider.d_removed Provider.d_changes Provider.d_trips].
  split; [symmetry; exact (Forall2_length F1)|].
  split; [symmetry; exact (Forall2_length F2)|].
  split.
  { apply Forall_app. split; [|apply Forall_app; split].
    - eapply Forall_impl; [|exact HvAct]. intros r Hr. exact (frame_lt _ _ _ _ Hfr Hr).
    - eapply Forall_impl; [|exact HvR]. intros r Hr. exact (frame_lt _ _ _ _ Hfr Hr).
    - eapply Forall_impl; [|exact Hrb]. intros r [Hr _]. lia. }
  split.
  { rewrite !map_app, (map_id_at_frame _ _ _ _ Hfr HvAct), (map_id_at_frame _ _ _ _ Hfr HvR).
    eapply perm_trans; [apply Permutation_app_head, Permutation_app_head, Hrem_ids|].
    eapply perm_trans; [|exact Hp]. rewrite map_app.
    eapply perm_trans; [apply Permutation_app_head, Permutation_app_comm|].
    rewrite app_assoc. apply Permutation_app_tail. rewrite Eact, <- map_app.
    apply Permutation_map. eapply perm_trans; [apply Permutation_app_comm|].
    apply filter_split_perm. }
  split.
  { intros p Hp'. set (r := nth p act' O).
    assert (Hr : In r act') by (apply nth_In; exact Hp').
    pose proof Hr as Hr'. rewrite Hact in Hr'.
    destruct (in_active_of A ds Ts Ls (heap s) Hds Lt Ll (List.length A) r (le_n _) Hr')
      as (k & Hk & Er & Lk).
    rewrite (Forall2_nth_both _ _ _ p O 0 F1 Hp' k Hk Er).
    rewrite (Forall2_nth_both _ _ _ p O feat0 F2 Hp' k Hk Er).
    pose proof (Hcase k Hk) as Hc. unfold hour_case in Hc. cbv zeta in Hc.
    rewrite Lk in Hc. hproj.
    rewrite (id_at_frame _ _ _ _ Hfr) by (rewrite Forall_forall in HvAct; auto).
    rewrite Er. eapply started_app; [apply Hpos; exact Hk|].
    rewrite (hs_id_at A ds (heap s) Hds (fun _ => False) (heap s) k (frame_refl _ _) Hk). exact Hc. }
  split.
  { apply Forall_app. split.
    - apply Forall_forall. intros r Hr. rewrite Forall_forall in Hrem.
      destruct (Hrem r Hr) as (d & t & l & Hd & Htd & Hs).
      assert (HrA : ~ In r A)
        by (intros HrA; exact (NoDup_app_disj _ _ _ (NoDup_map_inv _ _ Hn) HrA Hr)).
      exists d, t, l. split; [exact (frame_untouched _ _ _ _ _ Hfr Hd HrA)|].
      split; [exact Htd|]. apply started_nil; [exact Hs|]. apply Htrc.
      rewrite Eids. intros Hin. apply in_map_iff in Hin as (r' & E' & Hr').
      rewrite <- (id_at_some _ _ _ Hd) in E'.
      exact (ids_disjoint _ A R r' r Hn Hr' Hr E').
    - eapply Forall_impl; [|exact Hrb]. intros rr (_ & k & Hk & Lk & Hrr).
      pose proof (Hcase k Hk) as Hc. unfold hour_case in Hc. cbv zeta in Hc.
      rewrite Lk in Hc. hproj. destruct Hc as (Htk & _ & _).
      eexists _, (nth k Ts 0), _. split; [exact Hrr|].
      split; [destruct (nth k ds dev0); reflexivity|].
      replace (device_id (set_event_time (nth k ds dev0) (Some (nth k Ts 0))))
        with (device_id (nth k ds dev0)) by (destruct (nth k ds dev0); reflexivity).
      rewrite <- (hs_id_at A ds (heap s) Hds (fun _ => False) (heap s) k (frame_refl _ _) Hk).
      eapply started_app; [apply Hpos; exact Hk|].
      rewrite (hs_id_at A ds (heap s) Hds (fun _ => False) (heap s) k (frame_refl _ _) Hk), Htk.
      cbn [walk Provider.device_lowbattery Provider.status_change_event
           event_time event_location].
      split; [apply Qle_refl|]. split; [intros _; reflexivity|]. split; reflexivity. }
  split.
  { apply Forall_app. split; [exact Htr|]. eapply Forall_impl; [|exact Htrips].
    intros tr Hin. rewrite Eids in Hin. apply in_map_iff in Hin as (r & E & Hr).
    rewrite <- E. exact (HidX r Hr). }
  split.
  { intros x Hx. rewrite trace_app, (Hout x Hx), (Htrc x (Hds_out x Hx)). apply app_nil_r. }
  eapply frame_trans; [exact Hf|]. eapply frame_mono; [|exact Hfr].
  intros r Hr. apply HnI, in_or_app. left. exact Hr.
Qed.

Lemma day_loop destination sqrt fuel g date inactivity n : forall hour acc s acc' s',
  day_inv start_t X I C0 h1 acc (heap s) ->
  Provider.service_day_loop destination sqrt fuel g date inactivity hour n acc s
    = Ok acc' s' ->
  day_inv start_t X I C0 h1 acc' (heap s').
Proof.
  induction n as [|n IH]; intros hour acc s acc' s' Inv H;
    cbn [Provider.service_day_loop] in H.
  - apply ret_inv in H as [<- ->]. exact Inv.
  - apply bind_inv in H as (p & s1 & H1 & H).
    destruct p as [[[[[rc act] ts] ls] rm] evs].
    apply bind_inv in H as (q & s2 & H2 & H).
    destruct q as [[[[[act' ts'] ls'] rem] hc] ht].
    eapply IH; [|exact H].
    apply (day_hour destination sqrt fuel g date hour inactivity
             (Provider.DayAcc act ts ls rm (app (Provider.d_changes acc) evs)
                              (Provider.d_trips acc)) s1); [|exact H2].
    eapply day_recharge. exact Inv. exact H1.
Qed.

End DaySpec.

Lemma nth_map_lt {A B} (f : A -> B) l p da db :
  (p < List.length l)%nat -> nth p (map f l) db = f (nth p l da).
Proof. revert p. induction l; intros [|p] Hp; cbn in *; try lia; auto. apply IHl. lia. Qed.

Lemma service_day_spec destination sqrt fuel g devs date hour_open hour_closed inactivity
    s chg trips s' start_t end_t :
  Forall (fun r => (r < List.length (heap s))%nat) devs ->
  NoDup (map (id_at (heap s)) devs) ->
  Provider.replace_hour date hour_open s = Ok start_t s ->
  Provider.replace_hour date hour_closed s = Ok end_t s ->
  Provider.service_day destination sqrt fuel g devs date hour_open hour_closed inactivity s
    = Ok (chg, trips) s' ->
  (forall r d, In r devs -> nth_error (heap s) r = Some d ->
     exists ss mid tl t' l', trace (device_id d) chg = ss :: app mid tl /\
       event_type_reason ss = "service_start" /\
       walk start_t (f_point (event_location ss)) mid t' l' /\
       (tl = [] \/ exists se, tl = [se] /\ event_type_reason se = "service_end" /\
                  end_t <= event_time se /\ f_point (event_location se) = l')) /\
  (forall inactive s1,
     Random.sample O devs (py_int (inject_Z (Z.of_nat (List.length devs)) * inactivity)) s
       = Ok inactive s1 ->
     forall r d, In r inactive -> nth_error (heap s) r = Some d ->
     exists ss se, trace (device_id d) chg = [ss; se] /\
       event_type ss = "available" /\ event_type_reason ss = "service_start" /\
       event_type se = "removed" /\ event_type_reason se = "service_end" /\
       f_point (event_location se) = f_point (event_location ss) /\
       Forall (fun tr => device_id (trip_device tr) <> device_id d) trips /\
       nth_error (heap s') r =
         Some (set_battery d (if Provider.has_battery d then Some 1 else battery_pct d))).
Proof.
  intros Hv Hn Hst Hen H. unfold Provider.service_day in H.
  apply bind_inv in H as (st & s0 & E0 & H). rewrite Hst in E0. injection E0 as <- <-.
  apply bind_inv in H as (et & s0 & E0 & H). rewrite Hen in E0. injection E0 as <- <-.
  apply bind_inv in H as (ina & s1 & Hs1 & H). pose proof (pure_heap _ _ _ Hs1) as E1.
  destruct (sample_perm _ _ _ _ _ _ Hs1) as (rest & Prest).
  assert (Hnd_all : NoDup (map (id_at (heap s)) (app ina rest)))
    by (eapply Permutation_NoDup; [apply Permutation_map, Permutation_sym, Prest|exact Hn]).
  assert (Hv_dev : forall r, In r devs -> (r < List.length (heap s))%nat)
    by (rewrite Forall_forall in Hv; exact Hv).
  assert (Hina_dev : forall r, In r ina -> In r devs)
    by (intros r Hr; apply (Permutation_in _ Prest), in_or_app; left; exact Hr).
  assert (Hrest_dev : forall r, In r rest -> In r devs)
    by (intros r Hr; apply (Permutation_in _ Prest), in_or_app; right; exact Hr).
  assert (HnI : NoDup (map (id_at (heap s)) ina))
    by (rewrite map_app in Hnd_all; exact (NoDup_app_remove_r _ _ Hnd_all)).
  assert (HnR : NoDup (map (id_at (heap s)) rest))
    by (rewrite map_app in Hnd_all; exact (NoDup_app_remove_l _ _ Hnd_all)).
  assert (HvI : Forall (fun r => (r < List.length (heap s))%nat) ina)
    by (apply Forall_forall; intros r Hr; apply Hv_dev, Hina_dev, Hr).
  apply bind_inv in H as (ist & s2 & Hs2 & H).
  destruct (start_service_spec _ _ _ _ _ _ _ Hs2 (NoDup_map_inv _ _ HnI)) as (F2 & Fist & Bat).
  rewrite E1 in F2, Fist, Bat. cbv zeta in H.
  apply bind_inv in H as (ien & s3 & Hs3 & H).
  assert (HnI2 : NoDup (map (id_at (heap s2)) ina))
    by (rewrite (map_id_at_frame _ _ _ _ F2 HvI); exact HnI).
  destruct (end_service_spec _ _ _ _ _ _ _ _ Hs3 HnI2) as (E3 & Fien & Kien).
  apply bind_inv in H as (act & s4 & Hs4 & H).
  destruct (filter_not_in_inv _ _ _ _ _ Hs4) as (E4 & ds & Fds & Eact).
  assert (Pact : Permutation act rest).
  { rewrite Eact. apply (filter_not_in_perm _ _ _ _ _ Fds); [|exact Prest].
    rewrite E3, (map_id_at_frame _ _ _ _ F2 Hv). exact Hn. }
  assert (Hact_dev : forall r, In r act -> In r rest)
    by (intros r Hr; apply (Permutation_in _ Pact), Hr).
  assert (HnA : NoDup (map (id_at (heap s)) act))
    by (eapply Permutation_NoDup; [apply Permutation_map, Permutation_sym, Pact|exact HnR]).
  assert (HvA : Forall (fun r => (r < List.length (heap s))%nat) act)
    by (apply Forall_forall; intros r Hr; apply Hv_dev, Hrest_dev, Hact_dev, Hr).
  apply bind_inv in H as (sev & s5 & Hs5 & H).
  destruct (start_service_spec _ _ _ _ _ _ _ Hs5 (NoDup_map_inv _ _ HnA)) as (F5 & Fsev & _).
  rewrite E4, E3 in F5, Fsev. cbv zeta in H.
  apply bind_inv in H as (acc & s6 & Hs6 & H).
  apply bind_inv in H as (ends & s7 & Hs7 & H). apply ret_inv in H as [E <-].
  injection E as <- <-.
  assert (Fh5 : heap_frame (fun _ => True) (heap s) (heap s5)).
  { eapply frame_trans; eapply frame_mono; [| exact F2 | | exact F5]; auto. }
  assert (Id2 : forall r, In r devs -> id_at (heap s2) r = id_at (heap s) r)
    by (intros r Hr; exact (id_at_frame _ _ _ _ F2 (Hv_dev r Hr))).
  assert (Id5 : forall r, In r devs -> id_at (heap s5) r = id_at (heap s) r)
    by (intros r Hr; exact (id_at_frame _ _ _ _ Fh5 (Hv_dev r Hr))).
  assert (Hdisj : forall a b, In a ina -> In b act -> id_at (heap s) a <> id_at (heap s) b)
    by (intros a b Ha Hb; exact (ids_disjoint _ ina rest a b Hnd_all Ha (Hact_dev b Hb))).
  set (X := map (id_at (heap s5)) act).
  set (C0 := app (app ist ien) sev).
  assert (EX : X = map (id_at (heap s)) act)
    by (apply (map_id_at_frame _ _ _ _ Fh5 HvA)).
  assert (HX : NoDup X) by (rewrite EX; exact HnA).
  assert (HI : Forall (fun r => (r < List.length (heap s5))%nat /\
                                ~ In (id_at (heap s5) r) X) ina).
  { apply Forall_forall. intros r Hr. split.
    - exact (frame_lt _ _ _ _ Fh5 (Hv_dev r (Hina_dev r Hr))).
    - rewrite EX, (Id5 r (Hina_dev r Hr)). intros Hin.
      apply in_map_iff in Hin as (b & E & Hb). exact (Hdisj r b Hr Hb (eq_sym E)). }
  assert (Hids_ist : Forall2 (fun r e => device_id (sc_device e) = id_at (heap s) r) ina ist)
    by (eapply Forall2_impl; [|exact Fist]; intros r e [He _]; exact He).
  assert (Hids_sev : Forall2 (fun r e => device_id (sc_device e) = id_at (heap s2) r) act sev)
    by (eapply Forall2_impl; [|exact Fsev]; intros r e [He _]; exact He).
  assert (HnA2 : NoDup (map (id_at (heap s2)) act))
    by (rewrite (map_id_at_frame _ _ _ _ F2 HvA); exact HnA).
  assert (Init : day_inv start_t X ina C0 (heap s5)
                   (Provider.DayAcc act (map (fun _ => start_t) sev) (map event_location sev)
                                    [] C0 []) (heap s5)).
  { unfold day_inv; cbn [Provider.d_active Provider.d_times Provider.d_locations
      Provider.d_removed Provider.d_changes Provider.d_trips].
    assert (La : List.length sev = List.length act) by (symmetry; exact (Forall2_length Fsev)).
    split; [rewrite length_map; exact La|].
    split; [rewrite length_map; exact La|].
    rewrite app_nil_r.
    split; [eapply Forall_impl; [|exact HvA]; intros r Hr; exact (frame_lt _ _ _ _ Fh5 Hr)|].
    split; [reflexivity|].
    split.
    { intros p Hp. set (r := nth p act O).
      assert (Hr : In r act) by (apply nth_In; exact Hp).
      assert (Hrd : In r devs) by (apply Hrest_dev, Hact_dev, Hr).
      exists (nth p sev sc0), []. split; [|split; [|cbn [walk]; split]].
      - unfold C0. rewrite !trace_app, (Id5 r Hrd), <- (Id2 r Hrd).
        unfold r. rewrite (trace_Forall2_in _ _ _ _ Hids_sev HnA2 Hp). fold r.
        rewrite (trace_Forall2_out (heap s2) ina ien); [|exact Fien|].
        + rewrite (trace_Forall2_out (heap s) ina ist); [reflexivity|exact Hids_ist|].
          rewrite (Id2 r Hrd). intros Hin. apply in_map_iff in Hin as (a & E & Ha).
          exact (Hdisj a r Ha Hr E).
        + rewrite (map_id_at_frame _ _ _ _ F2 HvI), (Id2 r Hrd). intros Hin.
          apply in_map_iff in Hin as (a & E & Ha). exact (Hdisj a r Ha Hr E).
      - exact (proj1 (proj2 (proj2 (Forall2_nth_both _ _ _ p O sc0 Fsev Hp)))).
      - rewrite (nth_map_lt _ _ p sc0 0) by lia. reflexivity.
      - rewrite nth_map_loc. reflexivity. }
    split; [constructor|]. split; [constructor|]. split; [reflexivity|].
    apply frame_refl. }
  pose proof (day_loop start_t X ina C0 (heap s5) HX HI _ _ _ _ _ _ _ _ _ _ _ _ Init Hs6) as Inv.
  pose proof (day_nodup start_t X ina C0 (heap s5) HX _ _ Inv) as Hn6.
  pose proof (fun r => day_not_inactive start_t X ina C0 (heap s5) HI acc _ r Inv) as HnI6.
  destruct Inv as (Lt & Ll & Hv6 & Hp6 & Hpos & Hrem & Htr & Hout & Hf6).
  assert (Hn6a : NoDup (map (id_at (heap s6)) (Provider.d_active acc)))
    by (rewrite map_app in Hn6; exact (NoDup_app_remove_r _ _ Hn6)).
  destruct (end_service_spec _ _ _ _ _ _ _ _ Hs7 Hn6a) as (E7 & Fends & Kends).
  assert (Inact : forall r d, In r ina -> nth_error (heap s) r = Some d ->
     exists ss se, trace (device_id d) (app (Provider.d_changes acc) ends) = [ss; se] /\
       event_type ss = "available" /\ event_type_reason ss = "service_start" /\
       event_type se = "removed" /\ event_type_reason se = "service_end" /\
       end_t <= event_time se /\
       f_point (event_location se) = f_point (event_location ss) /\
       Forall (fun tr => device_id (trip_device tr) <> device_id d) (Provider.d_trips acc) /\
       nth_error (heap s7) r =
         Some (set_battery d (if Provider.has_battery d then Some 1 else battery_pct d))).
  { intros r d Hr Hd. rewrite <- (id_at_some _ _ _ Hd).
    assert (Hrd : In r devs) by (apply Hina_dev, Hr).
    destruct (In_nth _ _ O Hr) as (k & Hk & Ek0).
    assert (Ek : @nth ref k ina O = r) by exact Ek0.
    assert (Hk' : In (@nth ref k ina O) devs) by (rewrite Ek; exact Hrd).
    assert (HxX : ~ In (id_at (heap s) r) X)
      by (rewrite Forall_forall in HI; rewrite <- (Id5 r Hrd); exact (proj2 (HI r Hr))).
    exists (nth k ist sc0), (nth k ien sc0).
    destruct (Kien k Hk) as (T1 & R1 & Te & P1).
    destruct (Forall2_nth_both _ _ _ k O sc0 Fist Hk) as (_ & T0 & R0 & _).
    split; [|split; [exact T0|split; [exact R0|split; [exact T1|split; [exact R1|
      split; [exact Te|split]]]]]].
    - rewrite trace_app, (Hout _ HxX).
      rewrite (trace_Forall2_out (heap s6) (Provider.d_active acc) ends); [|exact Fends|].
      + unfold C0. rewrite !trace_app.
        rewrite <- Ek, (trace_Forall2_in _ _ _ _ Hids_ist HnI Hk).
        rewrite <- (Id2 _ Hk'), (trace_Forall2_in _ _ _ _ Fien HnI2 Hk).
        rewrite (Id2 _ Hk'), Ek.
        rewrite (trace_Forall2_out (heap s2) act sev); [reflexivity|exact Hids_sev|].
        rewrite (map_id_at_frame _ _ _ _ F2 HvA). intros Hin.
        apply in_map_iff in Hin as (b & E & Hb). exact (Hdisj r b Hr Hb (eq_sym E)).
      + intros Hin. apply HxX. apply (Permutation_in _ Hp6), in_map_iff.
        apply in_map_iff in Hin as (b & E & Hb). exists b. split; [exact E|].
        apply in_or_app. left. exact Hb.
    - rewrite P1, (nth_map_loc ist k). reflexivity.
    - split.
      + eapply Forall_impl; [|exact Htr]. intros tr Htx E. apply HxX. rewrite <- E. exact Htx.
      + rewrite E7. apply (frame_untouched _ _ _ _ _ Hf6); [|intros Hn'; exact (Hn' Hr)].
        apply (frame_untouched _ _ _ _ _ F5); [|intros Hra; exact (Hdisj r r Hr Hra eq_refl)].
        apply (Bat r d Hr Hd). }
  split.
  - intros r d Hr Hd.
    assert (Hr' : In r (app ina rest)) by (apply (Permutation_in _ (Permutation_sym Prest)), Hr).
    apply in_app_or in Hr' as [Hri|Hrr].
    + destruct (Inact r d Hri Hd) as (ss & se & Etr & _ & Rs & _ & Re & Te & Pe & _).
      exists ss, [], [se], start_t, (f_point (event_location ss)).
      split; [exact Etr|]. split; [exact Rs|]. split; [cbn; auto|].
      right. exists se. auto.
    + assert (Hra : In r act) by (apply (Permutation_in _ (Permutation_sym Pact)), Hrr).
      assert (HxX : In (id_at (heap s) r) X) by (rewrite EX; apply in_map; exact Hra).
      apply (Permutation_in _ (Permutation_sym Hp6)) in HxX.
      apply in_map_iff in HxX as (r' & E' & Hr').
      rewrite <- (id_at_some _ _ _ Hd), <- E'.
      apply in_app_or in Hr' as [HrA|HrR].
      * destruct (In_nth _ _ O HrA) as (p & Hp & Ep0).
        assert (Ep : @nth ref p (Provider.d_active acc) O = r') by exact Ep0. rewrite <- Ep.
        destruct (Hpos p Hp) as (ss & mid & Etr & Rs & W).
        destruct (Kends p Hp) as (_ & Re & Te & Pe).
        exists ss, mid, [nth p ends sc0], (nth p (Provider.d_times acc) 0),
          (f_point (nth p (Provider.d_locations acc) feat0)).
        split; [rewrite trace_app, Etr, (trace_Forall2_in _ _ _ _ Fends Hn6a Hp); reflexivity|].
        split; [exact Rs|]. split; [exact W|]. right. exists (nth p ends sc0). auto.
      * rewrite Forall_forall in Hrem.
        destruct (Hrem r' HrR) as (d' & t & l & Hd' & _ & (ss & mid & Etr & Rs & W)).
        rewrite (id_at_some _ _ _ Hd').
        exists ss, mid, [], t, l. split.
        -- rewrite trace_app, Etr,
             (trace_Forall2_out (heap s6) (Provider.d_active acc) ends); [reflexivity|exact Fends|].
           intros Hin. apply in_map_iff in Hin as (b & E & Hb).
           rewrite <- (id_at_some _ _ _ Hd') in E.
           exact (ids_disjoint _ _ _ b r' Hn6 Hb HrR E).
        -- split; [exact Rs|]. split; [exact W|]. left. reflexivity.
  - intros ina' s1' Hs1' r d Hr Hd. pose proof (eq_trans (eq_sym Hs1) Hs1') as E'.
    injection E' as E' _. subst ina'.
    destruct (Inact r d Hr Hd) as (ss & se & Etr & T0 & R0 & T1 & R1 & _ & P1 & Htr' & Hb).
    exists ss, se. auto 10.
Qed.

Lemma replace_hour_state date h s v s' : Provider.replace_hour date h s = Ok v s' -> s' = s.
Proof.
  unfold Provider.replace_hour. destruct (_ && _); cbv [ret raise]; intros H; inversion H.
  reflexivity.
Qed.

Lemma service_day_hours destination sqrt fuel g devs date hour_open hour_closed inactivity
    s x s' :
  Provider.service_day destination sqrt fuel g devs date hour_open hour_closed inactivity s
    = Ok x s' ->
  exists start_t end_t, Provider.replace_hour date hour_open s = Ok start_t s /\
                        Provider.replace_hour date hour_closed s = Ok end_t s.
Proof.
  unfold Provider.service_day. intros H.
  apply bind_inv in H as (st & s0 & E0 & H). pose proof (replace_hour_state _ _ _ _ _ E0); subst s0.
  apply bind_inv in H as (et & s1 & E1 & _). pose proof (replace_hour_state _ _ _ _ _ E1); subst s1.
  eauto.
Qed.

Lemma walk_anchored t l mid t' l' tl :
  walk t l mid t' l' ->
  (tl = [] \/ exists se, tl = [se] /\ f_point (event_location se) = l') ->
  anchored l (app mid tl).
Proof.
  revert t l. induction mid as [|e mid IH]; cbn; intros t l W Htl.
  - destruct W as [-> ->]. destruct Htl as [->|(se & -> & Pe)]; cbn; auto.
  - destruct W as (_ & Ha & W). split; [exact Ha|]. exact (IH _ _ W Htl).
Qed.

(** C1: for every device of the roster that service_day leaves active for
    the day, the trace of its events opens with its service_start, then
    has events of non-decreasing times, none before the day's opening
    time, and at most one further event: a service_end at or after the
    closing time.  That service_end is not ordered against the events
    before it: a trip can end after the closing time. *)
Theorem service_day_event_order destination sqrt fuel g devs date hour_open hour_closed
    inactivity s chg trips s' start_t end_t r d :
  Forall (fun r => (r < List.length (heap s))%nat) devs ->
  NoDup (map (id_at (heap s)) devs) ->
  Provider.replace_hour date hour_open s = Ok start_t s ->
  Provider.replace_hour date hour_closed s = Ok end_t s ->
  Provider.service_day destination sqrt fuel g devs date hour_open hour_closed inactivity s
    = Ok (chg, trips) s' ->
  In r devs -> nth_error (heap s) r = Some d ->
  exists ss mid tl, trace (device_id d) chg = ss :: app mid tl /\
    event_type_reason ss = "service_start" /\
    Forall (fun e => start_t <= event_time e) mid /\
    nondecreasing (map event_time mid) /\
    (tl = [] \/ exists se, tl = [se] /\ event_type_reason se = "service_end" /\
                           end_t <= event_time se).
Proof.
  intros Hv Hn Hst Hen H Hr Hd.
  destruct (service_day_spec _ _ _ _ _ _ _ _ _ _ _ _ _ _ _ Hv Hn Hst Hen H) as [P _].
  destruct (P r d Hr Hd) as (ss & mid & tl & t' & l' & Etr & Rs & W & Htl).
  destruct (walk_bounds _ _ _ _ _ W) as (Fa & Nd & _ & _).
  exists ss, mid, tl. split; [exact Etr|]. split; [exact Rs|]. split; [exact Fa|].
  split; [exact Nd|]. destruct Htl as [->|(se & -> & Re & Te & _)]; [left; reflexivity|].
  right. exists se. auto.
Qed.

Lemma service_day_event_order_witness :
  match Provider.service_day east_destination newton_sqrt 10 gen_square [O] 0 8 8 0
          (state_of [bicycle] day_tape) with
  | Ok (chg, trips) s' =>
      exists ss mid tl, trace (device_id bicycle) chg = ss :: app mid tl /\
        event_type_reason ss = "service_start" /\
        Forall (fun e => 28800 <= event_time e) mid /\
        nondecreasing (map event_time mid) /\
        (tl = [] \/ exists se, tl = [se] /\ event_type_reason se = "service_end" /\
                               28800 <= event_time se)
  | _ => False
  end.
Proof.
  destruct (Provider.service_day east_destination newton_sqrt 10 gen_square [O] 0 8 8 0
              (state_of [bicycle] day_tape)) as [[chg trips] s'| |] eqn:E.
  - apply (service_day_event_order east_destination newton_sqrt 10 gen_square [O] 0 8 8 0
             (state_of [bicycle] day_tape) chg trips s' 28800 28800 O bicycle).
    + repeat constructor.
    + repeat constructor. intros [].
    + reflexivity.
    + reflexivity.
    + exact E.
    + left. reflexivity.
    + reflexivity.
  - vm_compute in E. discriminate E.
  - vm_compute in E. discriminate E.
Defined.

Lemma service_day_service_end_before_drop_off :
  match Provider.service_day east_destination newton_sqrt 10 gen_square [O] 0 8 8 0
          (state_of [bicycle] day_tape) with
  | Ok (chg, trips) s' => ~ nondecreasing (map event_time (trace (device_id bicycle) chg))
  | _ => False
  end.
Proof. vm_compute. intros (_ & _ & H & _). apply H. reflexivity. Qed.

(** C2: for every device of the roster that service_day leaves active for
    the day, its trace opens with its service_start, and each later
    user_pick_up, low_battery or service_end event is at the point of the
    event before it ([anchored]).  A user_drop_off is where its trip ends;
    a maintenance_drop_off is at a fresh random point, not where the
    low_battery event before it left the device. *)
Theorem service_day_event_locations destination sqrt fuel g devs date hour_open hour_closed
    inactivity s chg trips s' r d :
  Forall (fun r => (r < List.length (heap s))%nat) devs ->
  NoDup (map (id_at (heap s)) devs) ->
  Provider.service_day destination sqrt fuel g devs date hour_open hour_closed inactivity s
    = Ok (chg, trips) s' ->
  In r devs -> nth_error (heap s) r = Some d ->
  exists ss rest, trace (device_id d) chg = ss :: rest /\
    event_type_reason ss = "service_start" /\
    anchored (f_point (event_location ss)) rest.
Proof.
  intros Hv Hn H Hr Hd.
  destruct (service_day_hours _ _ _ _ _ _ _ _ _ _ _ _ H) as (st & et & Hst & Hen).
  destruct (service_day_spec _ _ _ _ _ _ _ _ _ _ _ _ _ _ _ Hv Hn Hst Hen H) as [P _].
  destruct (P r d Hr Hd) as (ss & mid & tl & t' & l' & Etr & Rs & W & Htl).
  exists ss, (app mid tl). split; [exact Etr|]. split; [exact Rs|].
  apply (walk_anchored _ _ _ _ _ _ W).
  destruct Htl as [->|(se & -> & _ & _ & Pe)]; [left; reflexivity|right; eauto].
Qed.

Lemma service_day_event_locations_witness :
  match Provider.service_day east_destination isqrt 10 gen_square [O] 0 8 10 0
          (state_of [scooter] recharge_tape) with
  | Ok (chg, trips) s' =>
      exists ss rest, trace (device_id scooter) chg = ss :: rest /\
        event_type_reason ss = "service_start" /\
        anchored (f_point (event_location ss)) rest
  | _ => False
  end.
Proof.
  destruct (Provider.service_day east_destination isqrt 10 gen_square [O] 0 8 10 0
              (state_of [scooter] recharge_tape)) as [[chg trips] s'| |] eqn:E.
  - apply (service_day_event_locations east_destination isqrt 10 gen_square [O] 0 8 10 0
             (state_of [scooter] recharge_tape) chg trips s' O scooter).
    + repeat constructor.
    + repeat constructor. intros [].
    + exact E.
    + left. reflexivity.
    + reflexivity.
  - vm_compute in E. discriminate E.
  - vm_compute in E. discriminate E.
Defined.

Lemma service_day_drop_off_elsewhere :
  match Provider.service_day east_destination isqrt 10 gen_square [O] 0 8 10 0
          (state_of [scooter] recharge_tape) with
  | Ok (chg, trips) s' =>
      let tr := trace (device_id scooter) chg in
      event_type_reason (nth 3 tr sc0) = "low_battery" /\
      event_type_reason (nth 4 tr sc0) = "maintenance_drop_off" /\
      f_point (event_location (nth 4 tr sc0)) <> f_point (event_location (nth 3 tr sc0))
  | _ => False
  end.
Proof.
  vm_compute. split; [reflexivity|]. split; [reflexivity|]. intros H. inversion H.
Qed.

(** C8: every device sampled as inactive by service_day has exactly two
    events that day, an available:service_start and a removed:service_end
    at the same point, takes no trip, and ends the day with its battery
    recharged to 1.0 when it has one (its battery field unchanged
    otherwise): start_service recharges it. *)
Theorem service_day_inactive_devices destination sqrt fuel g devs date hour_open hour_closed
    inactivity s chg trips s' inactive s1 r d :
  Forall (fun r => (r < List.length (heap s))%nat) devs ->
  NoDup (map (id_at (heap s)) devs) ->
  Provider.service_day destination sqrt fuel g devs date hour_open hour_closed inactivity s
    = Ok (chg, trips) s' ->
  Random.sample O devs (py_int (inject_Z (Z.of_nat (List.length devs)) * inactivity)) s
    = Ok inactive s1 ->
  In r inactive -> nth_error (heap s) r = Some d ->
  exists ss se, trace (device_id d) chg = [ss; se] /\
    event_type ss = "available" /\ event_type_reason ss = "service_start" /\
    event_type se = "removed" /\ event_type_reason se = "service_end" /\
    f_point (event_location se) = f_point (event_location ss) /\
    Forall (fun tr => device_id (trip_device tr) <> device_id d) trips /\
    nth_error (heap s') r =
      Some (set_battery d (if Provider.has_battery d then Some 1 else battery_pct d)).
Proof.
  intros Hv Hn H Hs Hr Hd.
  destruct (service_day_hours _ _ _ _ _ _ _ _ _ _ _ _ H) as (st & et & Hst & Het).
  destruct (service_day_spec _ _ _ _ _ _ _ _ _ _ _ _ _ _ _ Hv Hn Hst Het H) as [_ P].
  exact (P inactive s1 Hs r d Hr Hd).
Qed.

Lemma service_day_inactive_devices_witness :
  match Random.sample O [O] (py_int (inject_Z 1 * 1)) (state_of [bicycle] (repeat (1 # 2) 20)),
        Provider.service_day east_destination isqrt 10 gen_square [O] 0 8 10 1
          (state_of [bicycle] (repeat (1 # 2) 20)) with
  | Ok inactive s1, Ok (chg, trips) s' =>
      exists ss se, trace (device_id bicycle) chg = [ss; se] /\
        event_type ss = "available" /\ event_type_reason ss = "service_start" /\
        event_type se = "removed" /\ event_type_reason se = "service_end" /\
        f_point (event_location se) = f_point (event_location ss) /\
        Forall (fun tr => device_id (trip_device tr) <> device_id bicycle) trips /\
        nth_error (heap s') O =
          Some (set_battery bicycle
                  (if Provider.has_battery bicycle then Some 1 else battery_pct bicycle))
  | _, _ => False
  end.
Proof.
  destruct (Random.sample O [O] (py_int (inject_Z 1 * 1))
              (state_of [bicycle] (repeat (1 # 2) 20))) as [ina s1| |] eqn:Es;
    [|vm_compute in Es; discriminate Es|vm_compute in Es; discriminate Es].
  destruct (Provider.service_day east_destination isqrt 10 gen_square [O] 0 8 10 1
              (state_of [bicycle] (repeat (1 # 2) 20))) as [[chg trips] s'| |] eqn:E;
    [|vm_compute in E; discriminate E|vm_compute in E; discriminate E].
  apply (service_day_inactive_devices east_destination isqrt 10 gen_square [O] 0 8 10 1
           (state_of [bicycle] (repeat (1 # 2) 20)) chg trips s' ina s1 O bicycle).
  - repeat constructor.
  - repeat constructor. intros [].
  - exact E.
  - exact Es.
  - vm_compute in Es. injection Es as <- _. left. reflexivity.
  - reflexivity.
Defined.

Lemma service_day_inactive_recharged :
  match Random.sample O [O] (py_int (inject_Z 1 * 1))
          (state_of [low_scooter] (repeat (1 # 2) 20)),
        Provider.service_day east_destination isqrt 10 gen_square [O] 0 8 10 1
          (state_of [low_scooter] (repeat (1 # 2) 20)) with
  | Ok inactive _, Ok (chg, trips) s' =>
      inactive = [O] /\ battery_pct low_scooter = Some (1 # 10) /\
      battery_pct (nth O (heap s') dev0) = Some 1
  | _, _ => False
  end.
Proof. vm_compute. auto. Qed.

(** * The other functions of the generator *)

(** ** Helpers *)

Lemma choices_spec {A} (d : A) pop k s cs s' :
  Random.choices d pop k s = Ok cs s' -> pop <> [] ->
  List.length cs = k /\ Forall (fun c => In c pop) cs /\ heap s' = heap s.
Proof.
  intros H Hp. revert s cs H. induction k as [|k IH]; intros s cs H; cbn [Random.choices] in H.
  - apply ret_inv in H as [<- ->]. auto.
  - apply bind_inv in H as (u & s1 & Hu & H). apply random_inv in Hu as (U0 & U1 & E1).
    apply bind_inv in H as (rest & s2 & Hr & H). apply ret_inv in H as [<- <-].
    destruct (IH _ _ Hr) as (L & F & E2). cbn [List.length]. split; [lia|]. split; [|congruence].
    constructor; [|exact F]. apply nth_In.
    assert (Hn : 0 < inject_Z (Z.of_nat (List.length pop))).
    { destruct pop; [contradiction|]. cbn [List.length]. rewrite Nat2Z.inj_succ.
      change 0 with (inject_Z 0). rewrite <- Zlt_Qlt. lia. }
    assert (A0 : (0 <= Qfloor (u * inject_Z (Z.of_nat (List.length pop))))%Z).
    { change 0%Z with (Qfloor 0). apply Qfloor_resp_le. nra. }
    assert (A1 : (Qfloor (u * inject_Z (Z.of_nat (List.length pop))) < Z.of_nat (List.length pop))%Z).
    { rewrite Zlt_Qlt. eapply Qle_lt_trans; [apply Qfloor_le|]. nra. }
    set (z := Qfloor _) in *. lia.
Qed.


Lemma random_string_ok k s str s' :
  Util.random_string k s = Ok str s' ->
  String.length str = k /\
  Forall (fun c => In c Util.ascii_uppercase_digits) (list_ascii_of_string str).
Proof.
  unfold Util.random_string. intros H.
  apply bind_inv in H as (cs & s1 & Hc & H). apply ret_inv in H as [<- _].
  apply choices_spec in Hc as (L & F & _); [|discriminate].
  rewrite list_ascii_of_string_of_list_ascii. split; [|exact F].
  rewrite <- L. clear. induction cs; cbn; congruence.
Qed.

Lemma py_index_Z m s : py_index (inject_Z m) s = Ok m s.
Proof.
  unfold py_index. rewrite Qfloor_Z.
  replace (Qeq_bool (inject_Z m) (inject_Z m)) with true by (symmetry; apply Qeq_bool_iff; reflexivity).
  reflexivity.
Qed.

Lemma uniform_inv a b s v s' :
  Random.uniform a b s = Ok v s' -> exists u, 0 <= u /\ u < 1 /\ v = a + (b - a) * u.
Proof.
  unfold Random.uniform. intros H. apply bind_inv in H as (u & s1 & Hu & H).
  apply ret_inv in H as [<- _]. apply random_inv in Hu as (U0 & U1 & _). eauto.
Qed.

Lemma randint_ok a b s :
  (a <= b)%Z -> exists n s', Random.randint a b s = Ok n s'.
Proof.
  intros Hab. unfold Random.randint, Random.randrange.
  destruct (Z.ltb_spec 0 (b + 1 - a)) as [Hw|Hw]; [|lia].
  unfold Random.randbelow. destruct (random_ok s) as (u & s1 & Hu & _).
  unfold bind. rewrite Hu. cbn. eauto.
Qed.

(** Extra X3: [random_date_from(date)] with neither bound returns a date at
    most an hour before or after [date]. *)
Theorem rdf_default t s :
  match Util.random_date_from t None None s with
  | Ok v _ => t - 3600 <= v /\ v <= t + 3600
  | _ => False
  end.
Proof.
  unfold Util.random_date_from.
  destruct (randint_ok (-3600) 3600 s) as (a & s1 & Ha); [lia|].
  destruct (randint_ok (-3600) 3600 s1) as (b & s2 & Hb); [lia|].
  pose proof (randint_range (-3600) 3600 _ _ _ ltac:(lia) Ha) as Ra.
  pose proof (randint_range (-3600) 3600 _ _ _ ltac:(lia) Hb) as Rb.
  destruct (random_ok s2) as (u & s3 & Hu & U0 & U1 & _).
  unfold bind at 1. unfold bind at 1. rewrite Ha. unfold bind at 1. rewrite Hb.
  cbn [ret]. unfold Random.uniform, bind. rewrite Hu. cbn [ret].
  assert (A0 : inject_Z (-3600) <= inject_Z a) by (rewrite <- Zle_Qle; lia).
  assert (A1 : inject_Z a <= inject_Z 3600) by (rewrite <- Zle_Qle; lia).
  assert (B0 : inject_Z (-3600) <= inject_Z b) by (rewrite <- Zle_Qle; lia).
  assert (B1 : inject_Z b <= inject_Z 3600) by (rewrite <- Zle_Qle; lia).
  change (inject_Z (-3600)) with (-3600) in A0, B0.
  change (inject_Z 3600) with 3600 in A1, B1.
  split; nra.
Qed.

Lemma py_index_3601 s : py_index (3600 + 1) s = Ok 3601%Z s.
Proof. reflexivity. Qed.

Lemma rdf_min t m s :
  match Util.random_date_from t (Some (inject_Z m)) None s with
  | Ok v _ => (m <= 3600)%Z /\ t + inject_Z m <= v /\ v <= t + 3600
  | Raise e => e = ValueError /\ (3600 < m)%Z
  | OutOfFuel => False
  end.
Proof.
  unfold Util.random_date_from, Random.randint_float, Random.randrange, Random.randbelow.
  cbv [bind]. rewrite py_index_Z, py_index_3601.
  destruct (Z.ltb_spec 0 (3601 - m)) as [Hw|Hw].
  - destruct (random_ok s) as (u & s1 & Hu & U0 & U1 & _). rewrite Hu. cbv [ret].
    destruct (random_ok s1) as (w & s2 & Hw' & W0 & W1 & _).
    unfold Random.uniform. cbv [bind]. rewrite Hw'. cbv [ret].
    assert (Hr : (0 <= Qfloor (u * inject_Z (3601 - m)) < 3601 - m)%Z).
    { apply (randbelow_range (3601 - m) s _ s1 Hw). unfold Random.randbelow, bind.
      rewrite Hu. reflexivity. }
    set (r := Qfloor _) in *.
    assert (R0 : inject_Z m <= inject_Z (m + r)) by (rewrite <- Zle_Qle; lia).
    assert (R1 : inject_Z (m + r) <= inject_Z 3600) by (rewrite <- Zle_Qle; lia).
    change (inject_Z 3600) with 3600 in R1.
    split; [lia|]. split; nra.
  - cbv [raise]. split; [reflexivity|lia].
Qed.

Lemma py_index_succ m s : py_index (inject_Z m + 1) s = Ok (m + 1)%Z s.
Proof.
  change (inject_Z m + 1) with (inject_Z m + inject_Z 1). rewrite <- inject_Z_plus.
  apply py_index_Z.
Qed.

Lemma rdf_max t m s :
  match Util.random_date_from t None (Some (inject_Z m)) s with
  | Ok v _ => (0 <= m)%Z /\ t <= v /\ v <= t + inject_Z m
  | Raise e => e = ValueError /\ (m < 0)%Z
  | OutOfFuel => False
  end.
Proof.
  unfold Util.random_date_from, Random.randint_float, Random.randrange, Random.randbelow.
  cbv [bind]. rewrite (py_index_Z 0), py_index_succ.
  destruct (Z.ltb_spec 0 (m + 1 - 0)) as [Hw|Hw].
  - destruct (random_ok s) as (u & s1 & Hu & U0 & U1 & _). rewrite Hu. cbv [ret].
    destruct (random_ok s1) as (w & s2 & Hw' & W0 & W1 & _).
    unfold Random.uniform. cbv [bind]. rewrite Hw'. cbv [ret].
    assert (Hr : (0 <= Qfloor (u * inject_Z (m + 1 - 0)) < m + 1 - 0)%Z).
    { apply (randbelow_range (m + 1 - 0) s _ s1 Hw). unfold Random.randbelow, bind.
      rewrite Hu. reflexivity. }
    set (r := Qfloor _) in *.
    assert (R0 : inject_Z 0 <= inject_Z (0 + r)) by (rewrite <- Zle_Qle; lia).
    assert (R1 : inject_Z (0 + r) <= inject_Z m) by (rewrite <- Zle_Qle; lia).
    change (inject_Z 0) with 0 in R0.
    split; [lia|]. split; nra.
  - cbv [raise]. split; [reflexivity|lia].
Qed.

(** Extra X6: [random_date_from(date, min_td, max_td)] with both bounds
    returns a date between [date + min_td] and [date + max_td], in whichever
    order the bounds are given. *)
Theorem rdf_range t a b s :
  match Util.random_date_from t (Some a) (Some b) s with
  | Ok v _ => (a <= b -> t + a <= v /\ v <= t + b) /\ (b <= a -> t + b <= v /\ v <= t + a)
  | _ => False
  end.
Proof.
  unfold Util.random_date_from, Random.uniform. cbv [bind ret].
  destruct (random_ok s) as (u & s1 & Hu & U0 & U1 & _). rewrite Hu.
  split; intros H; split; nra.
Qed.

Lemma point_within_loop_inside fuel bd p s q s' :
  Geometry.point_within_loop fuel bd p s = Ok q s' -> contains bd q = true.
Proof.
  revert p s. induction fuel as [|f IH]; intros p s H; cbn [Geometry.point_within_loop] in H;
    destruct (contains bd p) eqn:C.
  - apply ret_inv in H as [<- _]. exact C.
  - discriminate H.
  - apply ret_inv in H as [<- _]. exact C.
  - apply bind_inv in H as (p' & s1 & _ & H). exact (IH _ _ H).
Qed.

Lemma point_within_inside fuel bd s q s' :
  Geometry.point_within fuel bd s = Ok q s' -> contains bd q = true.
Proof.
  unfold Geometry.point_within. intros H. apply bind_inv in H as (p & s1 & _ & H).
  exact (point_within_loop_inside _ _ _ _ _ _ H).
Qed.

Lemma rdf_min_ok t m s v s' :
  Util.random_date_from t (Some (inject_Z m)) None s = Ok v s' ->
  t + inject_Z m <= v /\ v <= t + 3600.
Proof.
  intros H. pose proof (rdf_min t m s) as P. rewrite H in P. tauto.
Qed.

Lemma rdf_max_ok t m s v s' :
  Util.random_date_from t None (Some (inject_Z m)) s = Ok v s' ->
  t <= v /\ v <= t + inject_Z m.
Proof.
  intros H. pose proof (rdf_max t m s) as P. rewrite H in P. tauto.
Qed.

Lemma start_service_times fuel g devs t0 s evs s' :
  Provider.start_service fuel g devs t0 s = Ok evs s' ->
  List.length evs = List.length devs /\
  Forall (fun e => event_type e = "available" /\ event_type_reason e = "service_start" /\
            t0 - 7200 <= event_time e /\ event_time e <= t0 + 3600 /\
            contains (boundary g) (f_point (event_location e)) = true) evs.
Proof.
  revert s evs s'. induction devs as [|r rest IH]; intros s evs s' H; cbn [Provider.start_service] in H.
  - apply ret_inv in H as [<- _]. split; [reflexivity|constructor].
  - apply bind_inv in H as (t & s1 & Ht & H).
    change (Some (-7200)) with (Some (inject_Z (-7200))) in Ht.
    apply rdf_min_ok in Ht.
    apply bind_inv in H as (p & s2 & Hp & H). apply point_within_inside in Hp.
    cbv zeta in H.
    apply bind_inv in H as (d & s3 & _ & H).
    apply bind_inv in H as (u & s4 & _ & H).
    apply bind_inv in H as (d' & s5 & _ & H).
    apply bind_inv in H as (evs' & s6 & Hevs & H). apply ret_inv in H as [<- _].
    destruct (IH _ _ _ Hevs) as [L F]. split; [cbn; congruence|].
    constructor; [|exact F].
    destruct (merge_event_fields d' (Provider.status_change_event g d "available"
                "service_start" t (to_feature p t))) as (_ & M2 & M3 & M4 & M5).
    rewrite M2, M3, M4, M5. cbn.
    change (inject_Z (-7200)) with (-7200) in Ht.
    repeat split; try reflexivity; try lra. exact Hp.
Qed.

Lemma mapM_Forall {A B} (f : A -> M B) (P : B -> Prop) l s ys s' :
  (forall x s1 y s2, In x l -> f x s1 = Ok y s2 -> P y) ->
  mapM f l s = Ok ys s' -> List.length ys = List.length l /\ Forall P ys.
Proof.
  revert s ys s'. induction l as [|a l IH]; intros s ys s' Hf Hm; cbn in Hm.
  - apply ret_inv in Hm as [<- _]. split; [reflexivity|constructor].
  - apply bind_inv in Hm as (y & s1 & Hy & Hm). apply bind_inv in Hm as (ys' & s2 & Hys & Hm).
    apply ret_inv in Hm as [<- _].
    destruct (IH s1 ys' s2) as [L F]; [intros x s3 y' s4 Hx; apply Hf; right; exact Hx|exact Hys|].
    split; [cbn; congruence|]. constructor; [|exact F]. exact (Hf a s y s1 (or_introl eq_refl) Hy).
Qed.

Lemma end_service_times fuel g devs end_t locations s evs s' :
  Provider.end_service fuel g devs end_t locations s = Ok evs s' ->
  List.length evs = List.length devs /\
  Forall (fun e => event_type e = "removed" /\ event_type_reason e = "service_end" /\
            end_t <= event_time e /\ event_time e <= end_t + 7200 /\
            (locations = None -> contains (boundary g) (f_point (event_location e)) = true)) evs.
Proof.
  unfold Provider.end_service. apply mapM_Forall.
  intros r s1 e s2 _ H.
  apply bind_inv in H as (t & s3 & Ht & H).
  change (Some 7200) with (Some (inject_Z 7200)) in Ht. apply rdf_max_ok in Ht.
  apply bind_inv in H as (p & s4 & Hp & H). cbv zeta in H.
  apply bind_inv in H as (d & s5 & _ & H). apply ret_inv in H as [<- _].
  destruct (merge_event_fields d (Provider.status_change_event g d "removed"
              "service_end" t (to_feature p t))) as (_ & M2 & M3 & M4 & M5).
  rewrite M2, M3, M4, M5. cbn. change (inject_Z 7200) with 7200 in Ht.
  repeat split; try reflexivity; try lra.
  intros ->. exact (point_within_inside _ _ _ _ _ Hp).
Qed.

Lemma Qfloor_unique x k : inject_Z k <= x -> x < inject_Z k + 1 -> Qfloor x = k.
Proof.
  intros H1 H2. apply Qfloor_resp_le in H1. rewrite Qfloor_Z in H1.
  assert (H3 : inject_Z (Qfloor x) < inject_Z (k + 1))
    by (rewrite inject_Z_plus; eapply Qle_lt_trans; [apply Qfloor_le|exact H2]).
  rewrite <- Zlt_Qlt in H3. lia.
Qed.

Lemma Qfloor_div q n : (0 < n)%Z -> Qfloor (q / inject_Z n) = (Qfloor q / n)%Z.
Proof.
  intros Hn.
  assert (Hn' : 0 < inject_Z n) by (change 0 with (inject_Z 0); rewrite <- Zlt_Qlt; exact Hn).
  pose proof (Qfloor_le q) as L. pose proof (Qlt_floor q) as U.
  set (T := Qfloor q) in *.
  assert (D1 : inject_Z (T / n) * inject_Z n <= inject_Z T)
    by (rewrite <- inject_Z_mult, <- Zle_Qle; pose proof (Z.mul_div_le T n Hn); lia).
  assert (D2 : inject_Z T + 1 <= (inject_Z (T / n) + 1) * inject_Z n).
  { change 1 with (inject_Z 1). rewrite <- !inject_Z_plus, <- inject_Z_mult, <- Zle_Qle.
    pose proof (Z.mul_succ_div_gt T n Hn). lia. }
  apply Qfloor_unique.
  - apply Qle_shift_div_l; [exact Hn'|]. lra.
  - apply Qlt_shift_div_r; [exact Hn'|]. rewrite inject_Z_plus in U.
    eapply Qlt_le_trans; [|exact D2]. change (inject_Z 1) with 1 in U. lra.
Qed.

Lemma next_hour_bound t0 :
  t0 + inject_Z ((60 - Provider.minute_of t0 - 1) * 60 + (60 - Provider.second_of t0))
    == inject_Z (3600 * (Qfloor t0 / 3600 + 1)) + (t0 - inject_Z (Qfloor t0)).
Proof.
  unfold Provider.minute_of, Provider.second_of.
  change (t0 / 60) with (t0 / inject_Z 60). rewrite (Qfloor_div t0 60) by lia.
  set (T := Qfloor t0).
  assert (E : ((60 - (T / 60) mod 60 - 1) * 60 + (60 - T mod 60))%Z
              = (3600 * (T / 3600 + 1) - T)%Z) by (Z.div_mod_to_equations; lia).
  rewrite E. unfold Zminus. rewrite inject_Z_plus, inject_Z_opp. ring.
Qed.

Lemma device_recharged_battery g r t loc s e s' :
  Provider.device_recharged g r t loc s = Ok e s' ->
  event_type e = "available" /\ event_type_reason e = "maintenance_drop_off" /\
  event_time e = t /\ event_location e = loc /\ battery_pct (sc_device e) = Some 1.
Proof.
  unfold Provider.device_recharged. intros H.
  apply bind_inv in H as (u & s1 & Hu & H). destruct u.
  apply recharge_battery_inv in Hu as (d0 & Hd0 & E1).
  apply bind_inv in H as (d & s2 & Hd & H). apply deref_inv in Hd as [Hd ->].
  apply ret_inv in H as [<- _].
  rewrite E1, (nth_error_list_set_eq _ _ _ _ Hd0) in Hd. injection Hd as <-.
  cbn. auto.
Qed.

(** Extra X15: [devices_recharged(devices, t0)] with a datetime and no
    locations makes one charged [available:maintenance_drop_off] event per
    device, between [t0] and the next full hour (shifted by the fraction of
    a second of [t0]), at a point of the boundary. *)
Theorem devices_recharged_hour fuel g devs t0 s evs s' :
  Provider.devices_recharged fuel g devs (Provider.TimeRef t0) Provider.LocNone s = Ok evs s' ->
  List.length evs = List.length devs /\
  Forall (fun e => event_type e = "available" /\
            event_type_reason e = "maintenance_drop_off" /\
            t0 <= event_time e /\
            event_time e <= inject_Z (3600 * (Qfloor t0 / 3600 + 1)) + (t0 - inject_Z (Qfloor t0)) /\
            contains (boundary g) (f_point (event_location e)) = true /\
            battery_pct (sc_device e) = Some 1) evs.
Proof.
  unfold Provider.devices_recharged. apply mapM_Forall.
  intros r s1 e s2 _ H.
  apply bind_inv in H as (d & s3 & _ & H).
  apply bind_inv in H as (t & s4 & Ht & H).
  apply rdf_max_ok in Ht. rewrite next_hour_bound in Ht.
  apply bind_inv in H as (loc & s5 & Hl & H).
  apply bind_inv in Hl as (p & s6 & Hp & Hl). apply point_within_inside in Hp.
  apply ret_inv in Hl as [<- _].
  apply device_recharged_battery in H as (T1 & T2 & T3 & T4 & T5).
  rewrite T1, T2, T3, T4, T5. cbn [to_feature f_point]. destruct Ht.
  repeat split; try reflexivity; assumption.
Qed.

Lemma bind_ok {A B} (c : M A) (k : A -> M B) s a s' :
  c s = Ok a s' -> bind c k s = k a s'.
Proof. intros H. unfold bind. rewrite H. reflexivity. Qed.

Lemma bind_raise {A B} (c : M A) (k : A -> M B) s e :
  c s = Raise e -> bind c k s = Raise e.
Proof. intros H. unfold bind. rewrite H. reflexivity. Qed.

Lemma deref_ok r s d : nth_error (heap s) r = Some d -> deref r s = Ok d s.
Proof. intros H. unfold deref. rewrite H. reflexivity. Qed.

Lemma rdf_max_runs t m s :
  (0 <= m)%Z -> exists v s', Util.random_date_from t None (Some (inject_Z m)) s = Ok v s'.
Proof.
  intros Hm. pose proof (rdf_max t m s) as P.
  destruct (Util.random_date_from t None (Some (inject_Z m)) s) as [v s'|e|];
    [eauto|destruct P; lia|contradiction].
Qed.

Lemma diff_nonneg t0 :
  (0 <= (60 - Provider.minute_of t0 - 1) * 60 + (60 - Provider.second_of t0))%Z.
Proof.
  unfold Provider.minute_of, Provider.second_of.
  pose proof (Z.mod_pos_bound (Qfloor (t0 / 60)) 60 ltac:(lia)).
  pose proof (Z.mod_pos_bound (Qfloor t0) 60 ltac:(lia)). lia.
Qed.

(** Extra X16: [devices_recharged] with one Feature as the location and
    three devices raises [KeyError], whether the event times are a datetime
    or a list of three times: the Feature's three keys pass the length test
    and the Feature is indexed by position. *)
Theorem devices_recharged_feature_three fuel g r1 r2 r3 times f s d :
  nth_error (heap s) r1 = Some d ->
  match times with
  | Provider.TimeRef _ => True
  | Provider.TimeList ts => List.length ts = 3%nat
  end ->
  Provider.devices_recharged fuel g [r1; r2; r3] times (Provider.LocOne f) s = Raise KeyError.
Proof.
  intros Hd Ht. unfold Provider.devices_recharged. cbn [mapM].
  apply bind_raise. rewrite (bind_ok _ _ _ _ _ (deref_ok _ _ _ Hd)).
  destruct times as [t0|ts].
  - destruct (rdf_max_runs t0 _ s (diff_nonneg t0)) as (v & s1 & Hv).
    rewrite (bind_ok _ _ _ _ _ Hv). reflexivity.
  - destruct ts as [|a [|b [|c [|]]]]; cbn in Ht; try discriminate.
    assert (Hi : list_index [r1; r2; r3] d s = Ok O s).
    { unfold list_index, get_heap, bind. cbn [index_of]. rewrite Hd, device_eqb_refl.
      reflexivity. }
    assert (Hg : (i <- list_index [r1; r2; r3] d ;; get_at [a; b; c] i) s = Ok a s)
      by (rewrite (bind_ok _ _ _ _ _ Hi); reflexivity).
    cbn [List.length Nat.eqb]. rewrite (bind_ok _ _ _ _ _ Hg). reflexivity.
Qed.

(** Extra X17: [devices_recharged] with one Feature as the location, for a
    number of devices other than three, makes one [maintenance_drop_off]
    event per device, each at that Feature. *)
Theorem devices_recharged_feature fuel g devs times f s evs s' :
  List.length devs <> 3%nat ->
  Provider.devices_recharged fuel g devs times (Provider.LocOne f) s = Ok evs s' ->
  List.length evs = List.length devs /\
  Forall (fun e => event_type_reason e = "maintenance_drop_off" /\ event_location e = f) evs.
Proof.
  intros Hn. unfold Provider.devices_recharged. apply mapM_Forall.
  intros r s1 e s2 _ H.
  apply bind_inv in H as (d & s3 & _ & H).
  apply bind_inv in H as (t & s4 & _ & H).
  apply bind_inv in H as (loc & s5 & Hl & H).
  destruct (Nat.eqb_spec 3 (List.length devs)) as [E|_]; [lia|].
  apply ret_inv in Hl as [<- _].
  apply device_recharged_battery in H as (_ & T2 & _ & T4 & _). auto.
Qed.

Lemma py_int_compat a b : a == b -> py_int a = py_int b.
Proof.
  intros E. unfold py_int.
  assert (Ea : Qle_bool 0 a = Qle_bool 0 b).
  { destruct (Qle_bool 0 a) eqn:A1, (Qle_bool 0 b) eqn:B1; try reflexivity.
    - apply Qle_bool_iff in A1. apply not_true_iff_false in B1.
      exfalso. apply B1, Qle_bool_iff. rewrite <- E. exact A1.
    - apply Qle_bool_iff in B1. apply not_true_iff_false in A1.
      exfalso. apply A1, Qle_bool_iff. rewrite E. exact B1. }
  rewrite Ea. rewrite (Qfloor_comp _ _ E).
  assert (E' : - a == - b) by (rewrite E; reflexivity). rewrite (Qfloor_comp _ _ E').
  reflexivity.
Qed.

(** Extra X12: [device_trip] returns a [reserved:user_pick_up] event and a
    not earlier [available:user_drop_off] event, and a trip that starts and
    ends at their times and locations, whose device is the drop-off event's
    device without [battery_pct] (and, like it, without [event_time]), and
    which has a publication time (its end time) exactly when the version is
    0.3.0 or later. *)
Theorem device_trip_record destination sqrt fuel g r t0 l0 e0 rt mn mx sp s status tr s' :
  Provider.device_trip destination sqrt fuel g r t0 l0 e0 rt mn mx sp s = Ok (status, tr) s' ->
  exists pu do_, status = [pu; do_] /\
    event_type pu = "reserved" /\ event_type_reason pu = "user_pick_up" /\
    event_type do_ = "available" /\ event_type_reason do_ = "user_drop_off" /\
    start_time tr = event_time pu /\ end_time tr = event_time do_ /\
    event_time pu <= event_time do_ /\
    route tr = (event_location pu, event_location do_) /\
    trip_device tr = set_battery (sc_device do_) None /\
    battery_pct (trip_device tr) = None /\ dev_event_time (trip_device tr) = None /\
    trip_publication_time tr = (if version_ge_0_3_0 g then Some (end_time tr) else None).
Proof.
  intros H. unfold Provider.device_trip in H. cbv beta iota zeta in H.
  inv_ok.
  all: match goal with E : (_, _) = (_, _) |- _ => inversion E; subst status tr; clear E end.
  all: match goal with Hg : Random.gammavariate _ _ _ = Ok _ _ |- _ =>
    apply gammavariate_nonneg in Hg; [|lra] end.
  all: eexists _, _; split; [reflexivity|].
  all: cbn [merge_event Provider.start_trip Provider.end_trip Provider.status_change_event
       sc_device device_id event_type event_type_reason event_time event_location
       trip_device set_event_time set_battery battery_pct dev_event_time
       start_time end_time route trip_duration trip_publication_time].
  all: repeat split; try reflexivity; try lra.
  all: unfold opt_or, set_battery, set_event_time;
    cbn [provider_id provider_name device_id vehicle_id vehicle_type propulsion_type
         battery_pct dev_event_time];
    match goal with |- context [match propulsion_type ?d with _ => _ end] =>
      destruct (propulsion_type d) end; reflexivity.
Qed.

(** Extra X13: [device_trip] at speed [0] for a device with a battery, given
    a start time and location, raises [ZeroDivisionError]: the drain rate
    divides by [sqrt(0) * 200]. *)
Theorem device_trip_zero_speed destination sqrt fuel g r t0 l e0 rt mn mx s d :
  (forall q, q == 0 -> sqrt q == 0) ->
  nth_error (heap s) r = Some d -> Provider.has_battery d = true ->
  Provider.device_trip destination sqrt fuel g r (Some t0) (Some l) e0 rt mn mx (Some 0) s
    = Raise ZeroDivisionError.
Proof.
  intros Hsq Hd Hb.
  unfold Provider.device_trip, bind, ret, raise, Random.gammavariate, Random.rayleigh_rvs,
    Random.random, deref.
  cbv beta iota zeta. cbn [heap]. rewrite Hd. cbv beta iota. unfold bind, ret. cbv beta iota zeta. cbn [heap]. rewrite Hd. cbv beta iota. rewrite Hb.
  match goal with |- context [Qeq_bool (sqrt ?y * 200) 0] =>
    assert (E : Qeq_bool (sqrt y * 200) 0 = true) by
      (apply Qeq_bool_iff; assert (Y : y == 0) by ring; rewrite (Hsq _ Y); ring) end.
  rewrite E. reflexivity.
Qed.

Lemma choices_weighted_inv w0 w1 s b s' :
  Random.choices_weighted w0 w1 s = Ok b s' ->
  exists u, 0 <= u /\ u < 1 /\ b = Qltb (u * (w0 + w1)) w0.
Proof.
  unfold Random.choices_weighted. destruct (Qle_bool (w0 + w1) 0); intros H; [discriminate|].
  apply bind_inv in H as (u & s1 & Hu & H). apply random_inv in Hu as (U0 & U1 & _).
  apply ret_inv in H as [<- _]. eauto.
Qed.

Lemma take_never i s b s' :
  1 <= i -> Random.choices_weighted (1 - i) i s = Ok b s' -> b = false.
Proof.
  intros Hi H. apply choices_weighted_inv in H as (u & U0 & U1 & ->).
  apply not_true_iff_false. intros T. apply Qltb_true in T. lra.
Qed.

Lemma take_always i s b s' :
  i <= 0 -> Random.choices_weighted (1 - i) i s = Ok b s' -> b = true.
Proof.
  intros Hi H. apply choices_weighted_inv in H as (u & U0 & U1 & ->).
  destruct (Qltb _ _) eqn:T; [reflexivity|]. apply Qltb_false in T. lra.
Qed.

Lemma index_of_lt h l d i : index_of h l d = Some i -> (i < List.length l)%nat.
Proof.
  revert i. induction l as [|r l IH]; cbn; intros i H; [discriminate|].
  destruct (nth_error h r); [destruct (device_eqb _ d)|];
    try (injection H as <-; lia);
    destruct (index_of h l d) as [j|]; cbn in H; try discriminate;
    injection H as <-; specialize (IH j eq_refl); lia.
Qed.

Lemma length_remove_at {A} (l : list A) i :
  (i < List.length l)%nat -> List.length (remove_at l i) = (List.length l - 1)%nat.
Proof.
  revert i. induction l as [|x l IH]; intros [|i] H; cbn in *; try lia.
  rewrite IH by lia. destruct l; cbn in *; lia.
Qed.

Section HourEdges.
Variable destination : point -> Q -> Q -> point.
Variable sqrt : Q -> Q.
Variable fuel : nat.
Variable g : generator.


Lemma hour_step_idle devices i acc j s acc' s' :
  1 <= i -> only_low acc ->
  Provider.service_hour_step destination sqrt fuel g devices i acc j s = Ok acc' s' ->
  only_low acc'.
Proof.
  intros Hi [T C] H. unfold Provider.service_hour_step in H.
  apply bind_inv in H as (r & s1 & _ & H).
  apply bind_inv in H as (loc & s2 & _ & H).
  apply bind_inv in H as (ct & s3 & _ & H).
  apply bind_inv in H as (d & s4 & _ & H).
  apply bind_inv in H as (low & s5 & Hlow & H). apply low_test_inv in Hlow as [-> ->].
  destruct (lowb d).
  - apply bind_inv in H as (k & s6 & _ & H).
    apply bind_inv in H as (rr & s7 & _ & H). apply ret_inv in H as [<- _].
    split; [exact T|]. cbn. apply Forall_app. split; [exact C|]. repeat constructor.
  - apply bind_inv in H as (take & s6 & Htake & H).
    rewrite (take_never _ _ _ _ Hi Htake) in H.
    apply bind_inv in H as (u & s7 & _ & H). apply ret_inv in H as [<- _].
    split; assumption.
Qed.

Lemma hour_loop_idle devices i idxs acc s acc' s' :
  1 <= i -> only_low acc ->
  Provider.service_hour_loop destination sqrt fuel g devices i idxs acc s = Ok acc' s' ->
  only_low acc'.
Proof.
  revert acc s. induction idxs as [|j idxs IH]; intros acc s Hi P H; cbn in H.
  - apply ret_inv in H as [<- _]. exact P.
  - apply bind_inv in H as (acc1 & s1 & H1 & H).
    exact (IH acc1 s1 Hi (hour_step_idle _ _ _ _ _ _ _ Hi P H1) H).
Qed.


Lemma hour_step_busy devices i acc j k s acc' s' :
  i <= 0 -> all_busy k acc ->
  Provider.service_hour_step destination sqrt fuel g devices i acc j s = Ok acc' s' ->
  all_busy (S k) acc'.
Proof.
  intros Hi [A R] H. unfold Provider.service_hour_step in H.
  apply bind_inv in H as (r & s1 & _ & H).
  apply bind_inv in H as (loc & s2 & _ & H).
  apply bind_inv in H as (ct & s3 & _ & H).
  apply bind_inv in H as (d & s4 & _ & H).
  apply bind_inv in H as (low & s5 & Hlow & H). apply low_test_inv in Hlow as [-> ->].
  destruct (lowb d).
  - apply bind_inv in H as (p & s6 & Hp & H). apply list_index_inv in Hp as [Hp _].
    apply index_of_lt in Hp.
    apply bind_inv in H as (rr & s7 & _ & H). apply ret_inv in H as [<- _].
    unfold all_busy. cbn [Provider.h_active Provider.h_trips Provider.h_removed].
    rewrite length_remove_at by exact Hp. rewrite !length_app in *. cbn in *. lia.
  - apply bind_inv in H as (take & s6 & Htake & H).
    rewrite (take_always _ _ _ _ Hi Htake) in H.
    apply bind_inv in H as ([status tr] & s7 & _ & H).
    apply bind_inv in H as (last & s8 & _ & H).
    apply bind_inv in H as (ts & s9 & _ & H).
    apply bind_inv in H as (ls & s10 & _ & H). apply ret_inv in H as [<- _].
    unfold all_busy. cbn [Provider.h_active Provider.h_trips Provider.h_removed].
    rewrite !length_app. cbn. lia.
Qed.

Lemma hour_loop_busy devices i idxs acc k s acc' s' :
  i <= 0 -> all_busy k acc ->
  Provider.service_hour_loop destination sqrt fuel g devices i idxs acc s = Ok acc' s' ->
  all_busy (k + List.length idxs) acc'.
Proof.
  revert acc k s. induction idxs as [|j idxs IH]; intros acc k s Hi P H; cbn in H.
  - apply ret_inv in H as [<- _]. rewrite Nat.add_0_r. exact P.
  - apply bind_inv in H as (acc1 & s1 & H1 & H).
    replace (k + List.length (j :: idxs))%nat with (S k + List.length idxs)%nat by (cbn; lia).
    exact (IH acc1 (S k) s1 Hi (hour_step_busy _ _ _ _ _ _ _ _ Hi P H1) H).
Qed.

End HourEdges.

(** Extra X19: with inactivity at least [1], [service_hour] makes no trip,
    and its only events are [low_battery] events. *)
Theorem service_hour_idle destination sqrt fuel g devices date hour times locations i s
    act' ts' ls' rem chg trips s' :
  1 <= i ->
  Provider.service_hour destination sqrt fuel g devices date hour times locations i s
    = Ok (act', ts', ls', rem, chg, trips) s' ->
  trips = [] /\ Forall (fun e => event_type_reason e = "low_battery") chg.
Proof.
  intros Hi H. unfold Provider.service_hour in H.
  apply bind_inv in H as (acc & s1 & Hloop & H).
  apply bind_inv in H as (ts & s2 & _ & H). apply bind_inv in H as (ls & s3 & _ & H).
  apply ret_inv in H as [E _]. injection E as <- <- <- <- <- <-.
  refine (hour_loop_idle _ _ _ _ _ _ _ _ _ _ _ Hi _ Hloop). split; [reflexivity|constructor].
Qed.

(** Extra X20: with inactivity at most [0], [service_hour] returns as many
    trips as active devices, and the active and removed lists together have
    one entry per input device. *)
Theorem service_hour_busy destination sqrt fuel g devices date hour times locations i s
    act' ts' ls' rem chg trips s' :
  i <= 0 ->
  Provider.service_hour destination sqrt fuel g devices date hour times locations i s
    = Ok (act', ts', ls', rem, chg, trips) s' ->
  List.length act' = List.length trips /\
  (List.length act' + List.length rem = List.length devices)%nat.
Proof.
  intros Hi H. unfold Provider.service_hour in H.
  apply bind_inv in H as (acc & s1 & Hloop & H).
  apply bind_inv in H as (ts & s2 & _ & H). apply bind_inv in H as (ls & s3 & _ & H).
  apply ret_inv in H as [E _]. injection E as <- <- <- <- <- <-.
  assert (P0 : all_busy 0 (Provider.HourAcc [] [] [] [] times locations))
    by (split; reflexivity).
  pose proof (hour_loop_busy _ _ _ _ _ _ _ _ _ _ _ _ Hi P0 Hloop) as [A R].
  rewrite length_seq in R. cbn in R. split; assumption.
Qed.

(** Extra X21: [service_day] with the closing hour before the opening hour
    makes no trip, and only [service_start] and [service_end] events. *)
Theorem service_day_closed_before_open destination sqrt fuel g devs date ho hc i s chg trips s' :
  (hc < ho)%Z ->
  Provider.service_day destination sqrt fuel g devs date ho hc i s = Ok (chg, trips) s' ->
  trips = [] /\
  Forall (fun e => event_type_reason e = "service_start" \/
                   event_type_reason e = "service_end") chg.
Proof.
  intros Hlt H. unfold Provider.service_day in H.
  apply bind_inv in H as (st & s1 & _ & H).
  apply bind_inv in H as (et & s2 & _ & H).
  apply bind_inv in H as (ina & s3 & _ & H).
  apply bind_inv in H as (ist & s4 & Hist & H).
  apply bind_inv in H as (ien & s5 & Hien & H).
  apply bind_inv in H as (act & s6 & _ & H).
  apply bind_inv in H as (sev & s7 & Hsev & H).
  apply bind_inv in H as (acc & s8 & Hloop & H).
  apply bind_inv in H as (ends & s9 & Hends & H).
  apply ret_inv in H as [E _]. injection E as <- <-.
  replace (Z.to_nat (hc + 1 - ho)) with O in Hloop by lia. cbn in Hloop.
  apply ret_inv in Hloop as [<- _]. cbn [Provider.d_changes Provider.d_trips].
  split; [reflexivity|].
  apply start_service_times in Hist as [_ F1]. apply start_service_times in Hsev as [_ F3].
  apply end_service_times in Hien as [_ F2]. apply end_service_times in Hends as [_ F4].
  repeat (apply Forall_app; split);
    [eapply Forall_impl; [|exact F1] | eapply Forall_impl; [|exact F2]
    |eapply Forall_impl; [|exact F3] | eapply Forall_impl; [|exact F4]];
    cbv beta; intros e Fe; tauto.
Qed.

(** Extra X22: [service_day] raises [ValueError] when [int(len(devices) *
    inactivity)] is negative or larger than the number of devices. *)
Theorem service_day_bad_inactivity destination sqrt fuel g devs date ho hc i s :
  (py_int (inject_Z (Z.of_nat (List.length devs)) * i) < 0 \/
   Z.of_nat (List.length devs) < py_int (inject_Z (Z.of_nat (List.length devs)) * i))%Z ->
  Provider.service_day destination sqrt fuel g devs date ho hc i s = Raise ValueError.
Proof.
  intros Hk. unfold Provider.service_day.
  unfold Provider.replace_hour at 1.
  destruct ((0 <=? ho)%Z && (ho <=? 23)%Z); [|apply bind_raise; reflexivity].
  erewrite bind_ok by reflexivity. cbv beta.
  unfold Provider.replace_hour at 1.
  destruct ((0 <=? hc)%Z && (hc <=? 23)%Z); [|apply bind_raise; reflexivity].
  erewrite bind_ok by reflexivity. cbv beta.
  apply bind_raise. unfold Random.sample. cbv zeta.
  set (k := py_int _) in *. set (n := Z.of_nat _) in *.
  replace ((0 <=? k)%Z && (k <=? n)%Z) with false; [reflexivity|].
  symmetry. apply andb_false_iff.
  destruct Hk as [Hk|Hk]; [left; apply Z.leb_gt | right; apply Z.leb_gt]; lia.
Qed.

Lemma choice_in {A} (d : A) l s x s' :
  Random.choice d l s = Ok x s' -> In x l.
Proof.
  unfold Random.choice. destruct l as [|y l']; intros H; [discriminate|].
  apply bind_inv in H as (i & s1 & Hi & H). apply ret_inv in H as [<- _].
  apply randbelow_range in Hi; [|cbn [List.length]; lia].
  apply nth_In. cbn [List.length] in *. lia.
Qed.

Section DevicesSpec.
Variable show_uuid : Q -> string.
Variables vehicle_types propulsion_types : list string.


Lemma devices_loop_spec n pid pname s rs s' :
  Provider.devices_loop show_uuid vehicle_types propulsion_types n pid pname s = Ok rs s' ->
  rs = seq (List.length (heap s)) n /\
  List.length (heap s') = (List.length (heap s) + n)%nat /\
  (forall r, (r < List.length (heap s))%nat -> nth_error (heap s') r = nth_error (heap s) r) /\
  Forall (fun r => exists d, nth_error (heap s') r = Some d /\ device_made vehicle_types propulsion_types pid pname d) rs.
Proof.
  revert s rs. induction n as [|n IH]; intros s rs H; cbn [Provider.devices_loop] in H.
  - apply ret_inv in H as [<- ->]. repeat split; auto; lia.
  - apply bind_inv in H as (did & s1 & Hd & H). pose proof (pure_heap _ _ _ Hd) as E1.
    apply bind_inv in H as (vid & s2 & Hv & H). pose proof (pure_heap _ _ _ Hv) as E2.
    apply random_string_ok in Hv as [Lv Fv].
    apply bind_inv in H as (vt & s3 & Ht & H). pose proof (pure_heap _ _ _ Ht) as E3.
    apply choice_in in Ht.
    apply bind_inv in H as (pt & s4 & Hp & H). pose proof (pure_heap _ _ _ Hp) as E4.
    apply choice_in in Hp.
    apply bind_inv in H as (r & s5 & Hr & H). apply alloc_inv in Hr as [Er E5].
    rewrite E4, E3, E2, E1 in Er. subst r.
    apply bind_inv in H as (u & s6 & Hc & H).
    apply bind_inv in H as (rest & s7 & Hrest & H). apply ret_inv in H as [<- ->].
    set (dv := mkDevice pid pname (show_uuid did) vid vt (Some [pt]) None None) in *.
    assert (Hb : Provider.has_battery dv = substring_in "electric" pt)
      by (cbn; rewrite orb_false_r; reflexivity).
    (* the new object, after the charging step *)
    assert (H6 : List.length (heap s6) = S (List.length (heap s)) /\
                 (forall r', (r' < List.length (heap s))%nat ->
                             nth_error (heap s6) r' = nth_error (heap s) r') /\
                 exists d, nth_error (heap s6) (List.length (heap s)) = Some d /\
                           device_made vehicle_types propulsion_types pid pname d).
    { assert (L5 : List.length (heap s5) = S (List.length (heap s)))
        by (rewrite E5, length_app, E4, E3, E2, E1; cbn; lia).
      assert (N5 : nth_error (heap s5) (List.length (heap s)) = Some dv)
        by (rewrite E5, E4, E3, E2, E1, nth_error_app2, Nat.sub_diag by lia; reflexivity).
      assert (O5 : forall r', (r' < List.length (heap s))%nat ->
                              nth_error (heap s5) r' = nth_error (heap s) r')
        by (intros r' Hr'; rewrite E5, E4, E3, E2, E1, nth_error_app1 by lia; reflexivity).
      destruct (Provider.has_battery dv) eqn:B.
      - destruct u. apply recharge_battery_inv in Hc as (d5 & Hd5 & E6).
        rewrite N5 in Hd5. injection Hd5 as <-. rewrite E6, length_list_set.
        split; [exact L5|]. split.
        + intros r' Hr'. rewrite nth_error_list_set_neq by lia. auto.
        + eexists. split; [eapply nth_error_list_set_eq; exact N5|].
          cbn. repeat split; auto. exists pt. rewrite <- Hb. auto.
      - apply ret_inv in Hc as [_ <-]. split; [exact L5|]. split; [exact O5|].
        exists dv. split; [exact N5|]. cbn. repeat split; auto.
        exists pt. rewrite <- Hb. auto. }
    destruct H6 as (L6 & O6 & d & Hd6 & Md).
    destruct (IH s6 rest Hrest) as (-> & L7 & O7 & F7).
    rewrite L6 in *. split; [reflexivity|]. split; [lia|]. split.
    + intros r' Hr'. rewrite O7, O6 by lia. reflexivity.
    + constructor; [|exact F7]. exists d. rewrite O7 by lia. auto.
Qed.

End DevicesSpec.

(** Extra X24: [devices(N, provider_name, provider_id)] allocates [N] new
    device objects after the existing ones, which it leaves unchanged.  All
    share one provider id: the given one, unless it is missing or empty.
    Each has the provider name, a six-character vehicle id of uppercase
    letters and digits, a vehicle type from [vehicle_types], a one-element
    propulsion list from [propulsion_types], no event time, and a battery of
    [1.0] exactly when its propulsion type contains [electric] (no battery
    otherwise). *)
Theorem devices_spec show_uuid vts pts N pname pid s rs s' :
  Provider.devices show_uuid vts pts N pname pid s = Ok rs s' ->
  rs = seq (List.length (heap s)) (Z.to_nat N) /\
  List.length (heap s') = (List.length (heap s) + Z.to_nat N)%nat /\
  (forall r, (r < List.length (heap s))%nat -> nth_error (heap s') r = nth_error (heap s) r) /\
  exists p, (forall q, pid = Some q -> q <> EmptyString -> p = q) /\
    Forall (fun r => exists d, nth_error (heap s') r = Some d /\
                               device_made vts pts p pname d) rs.
Proof.
  unfold Provider.devices. intros H.
  apply bind_inv in H as (p & s1 & Hp & H).
  assert (E1 : heap s1 = heap s /\ forall q, pid = Some q -> q <> EmptyString -> p = q).
  { destruct pid as [[|c q]|].
    - apply bind_inv in Hp as (u & s2 & Hu & Hp). apply ret_inv in Hp as [_ <-].
      split; [exact (pure_heap _ _ _ Hu)|]. intros q E N'. injection E as <-. congruence.
    - apply ret_inv in Hp as [<- <-]. split; [reflexivity|]. intros q' E _. congruence.
    - apply bind_inv in Hp as (u & s2 & Hu & Hp). apply ret_inv in Hp as [_ <-].
      split; [exact (pure_heap _ _ _ Hu)|]. discriminate. }
  destruct E1 as [E1 Hpid]. apply devices_loop_spec in H as (R & L & O & F).
  rewrite E1 in *. split; [exact R|]. split; [exact L|]. split; [exact O|]. eauto.
Qed.

Lemma choices_runs {A} (d : A) pop k s :
  exists cs s', Random.choices d pop k s = Ok cs s'.
Proof.
  revert s. induction k as [|k IH]; intros s; cbn [Random.choices].
  - eexists _, _. reflexivity.
  - destruct (random_ok s) as (u & s1 & Hu & _).
    destruct (IH s1) as (cs & s2 & Hc).
    eexists _, _. rewrite (bind_ok _ _ _ _ _ Hu). cbv beta.
    rewrite (bind_ok _ _ _ _ _ Hc). reflexivity.
Qed.

Lemma random_string_runs k s : exists str s', Util.random_string k s = Ok str s'.
Proof.
  destruct (choices_runs "A"%char Util.ascii_uppercase_digits k s) as (cs & s1 & Hc).
  unfold Util.random_string. eexists _, _. rewrite (bind_ok _ _ _ _ _ Hc). reflexivity.
Qed.

Lemma uuid4_runs s : exists u s', Random.uuid4 s = Ok u s'.
Proof. eexists _, _. reflexivity. Qed.

(** Extra X25: [devices] with an empty [vehicle_types] and [N > 0] raises
    [IndexError]. *)
Theorem devices_no_vehicle_types show_uuid pts N pname pid s :
  (0 < N)%Z ->
  Provider.devices show_uuid [] pts N pname pid s = Raise IndexError.
Proof.
  intros HN. unfold Provider.devices.
  assert (Hp : exists p s1, (match pid with
                             | None | Some EmptyString =>
                                 did <- Random.uuid4 ;; ret (show_uuid did)
                             | Some p => ret p end) s = Ok p s1)
    by (destruct pid as [[|c q]|]; eexists _, _; reflexivity).
  destruct Hp as (p & s1 & Hp). rewrite (bind_ok _ _ _ _ _ Hp).
  destruct (Z.to_nat N) as [|n] eqn:EN; [lia|]. cbn [Provider.devices_loop].
  destruct (uuid4_runs s1) as (u & s2 & Hu). rewrite (bind_ok _ _ _ _ _ Hu). cbv beta.
  destruct (random_string_runs 6 s2) as (v & s3 & Hv). rewrite (bind_ok _ _ _ _ _ Hv).
  cbv beta. apply bind_raise. reflexivity.
Qed.



Lemma list_ascii_of_string_app a b :
  list_ascii_of_string (a ++ b) = app (list_ascii_of_string a) (list_ascii_of_string b).
Proof. induction a as [|c a IH]; cbn; [reflexivity|]. rewrite IH. reflexivity. Qed.

Lemma string_of_list_ascii_app a b :
  string_of_list_ascii (app a b) = (string_of_list_ascii a ++ string_of_list_ascii b)%string.
Proof. induction a as [|c a IH]; cbn; [reflexivity|]. rewrite IH. reflexivity. Qed.

Lemma str_lower_app a b : Util.str_lower (a ++ b) = (Util.str_lower a ++ Util.str_lower b)%string.
Proof.
  unfold Util.str_lower. rewrite list_ascii_of_string_app, map_app, string_of_list_ascii_app.
  reflexivity.
Qed.

Lemma lower_ascii_not_upper c : is_upper (Util.lower_ascii c) = false.
Proof.
  unfold Util.lower_ascii, is_upper.
  destruct (Nat.leb 65 (nat_of_ascii c) && Nat.leb (nat_of_ascii c) 90)%nat eqn:E.
  - apply andb_prop in E as [E1 E2]. apply Nat.leb_le in E1, E2.
    rewrite nat_ascii_embedding by lia.
    apply andb_false_iff. right. apply Nat.leb_gt. lia.
  - exact E.
Qed.

Lemma str_lower_length s : String.length (Util.str_lower s) = String.length s.
Proof.
  unfold Util.str_lower. rewrite <- (string_of_list_ascii_of_string s) at 2.
  generalize (list_ascii_of_string s). intros l. induction l; cbn; congruence.
Qed.

(** Extra X2: [random_file_url(company)] returns
    [https://<host>.co/<code>.jpg], where the code has seven characters,
    each a lowercase ASCII letter or a digit, and the URL has no uppercase
    ASCII letter. *)
Theorem random_file_url_shape company s url s' :
  Util.random_file_url company s = Ok url s' ->
  exists host code,
    url = ("https://" ++ host ++ ".co/" ++ code ++ ".jpg")%string /\
    String.length code = 7%nat /\
    Forall (fun c => In c ascii_lowercase_digits) (list_ascii_of_string code) /\
    Forall (fun c => is_upper c = false) (list_ascii_of_string url).
Proof.
  unfold Util.random_file_url. intros H.
  apply bind_inv in H as (str & s1 & Hs & H). apply ret_inv in H as [<- _].
  apply random_string_ok in Hs as [Ls Fs].
  rewrite !str_lower_app.
  eexists _, (Util.str_lower str). split; [reflexivity|]. split.
  { rewrite str_lower_length. exact Ls. } split.
  - unfold Util.str_lower. rewrite list_ascii_of_string_of_list_ascii.
    apply Forall_map. eapply Forall_impl; [|exact Fs]. cbv beta. intros c Hc.
    change ascii_lowercase_digits with (map Util.lower_ascii Util.ascii_uppercase_digits).
    apply in_map. exact Hc.
  - rewrite <- !str_lower_app. unfold Util.str_lower.
    rewrite list_ascii_of_string_of_list_ascii. apply Forall_map.
    apply Forall_forall. intros c _. apply lower_ascii_not_upper.
Qed.

Lemma Qfloor_plus_Z x z : Qfloor (x + inject_Z z) = (Qfloor x + z)%Z.
Proof.
  apply Qfloor_unique; rewrite inject_Z_plus.
  - pose proof (Qfloor_le x). lra.
  - pose proof (Qlt_floor x). rewrite inject_Z_plus in H. change (inject_Z 1) with 1 in H. lra.
Qed.

(** Extra X26: [date.replace(hour=h)] returns a date whose hour is [h] and
    whose minute and second are those of [date]. *)
Theorem replace_hour_hour date h s t s' :
  Provider.replace_hour date h s = Ok t s' ->
  Provider.hour_of t = h /\ Provider.minute_of t = Provider.minute_of date /\
  Provider.second_of t = Provider.second_of date.
Proof.
  unfold Provider.replace_hour. destruct ((0 <=? h)%Z && (h <=? 23)%Z) eqn:Eh;
    intros H; [|discriminate]. apply ret_inv in H as [<- _].
  apply andb_prop in Eh as [E1 E2]. apply Z.leb_le in E1, E2.
  set (k := (h - Provider.hour_of date)%Z).
  assert (Et : date - inject_Z (Provider.hour_of date) * 3600 + inject_Z h * 3600
               == date + inject_Z (k * 3600)).
  { unfold k. rewrite inject_Z_mult. unfold Zminus. rewrite inject_Z_plus, inject_Z_opp.
    change (inject_Z 3600) with 3600. ring. }
  unfold Provider.hour_of, Provider.minute_of, Provider.second_of.
  change (?x / 3600) with (x / inject_Z 3600). change (?x / 60) with (x / inject_Z 60).
  rewrite !Et. rewrite !(Qfloor_div _ 3600), !(Qfloor_div _ 60) by lia.
  rewrite !Qfloor_plus_Z.
  unfold k, Provider.hour_of. change (date / 3600) with (date / inject_Z 3600).
  rewrite (Qfloor_div date 3600) by lia.
  set (F := Qfloor date). Z.div_mod_to_equations. repeat split; lia.
Qed.

(** ** Properties of the other functions *)

(** Extra X1: [random_string(k)] returns [k] characters, each an uppercase
    ASCII letter or a digit. *)
Theorem random_string_alphabet k s str s' :
  Util.random_string k s = Ok str s' ->
  String.length str = k /\
  Forall (fun c => In c Util.ascii_uppercase_digits) (list_ascii_of_string str).
Proof. apply random_string_ok. Qed.

Lemma random_string_alphabet_witness :
  match Util.random_string 6 (state_of [] [1 # 3; 1 # 2]) with
  | Ok str _ => String.length str = 6%nat /\
      Forall (fun c => In c Util.ascii_uppercase_digits) (list_ascii_of_string str)
  | _ => False
  end.
Proof.
  destruct (Util.random_string 6 (state_of [] [1 # 3; 1 # 2])) as [str s'| |] eqn:E.
  - exact (random_string_alphabet 6 _ str s' E).
  - vm_compute in E. discriminate E.
  - vm_compute in E. discriminate E.
Defined.

Lemma random_file_url_shape_witness :
  match Util.random_file_url "Santa Monica Bikes" (state_of [] [1 # 3]) with
  | Ok url _ => exists host code,
      url = ("https://" ++ host ++ ".co/" ++ code ++ ".jpg")%string /\
      String.length code = 7%nat /\
      Forall (fun c => In c ascii_lowercase_digits) (list_ascii_of_string code) /\
      Forall (fun c => is_upper c = false) (list_ascii_of_string url)
  | _ => False
  end.
Proof.
  destruct (Util.random_file_url "Santa Monica Bikes" (state_of [] [1 # 3]))
    as [url s'| |] eqn:E.
  - exact (random_file_url_shape _ _ url s' E).
  - vm_compute in E. discriminate E.
  - vm_compute in E. discriminate E.
Defined.

(** Extra X4: [random_date_from(date, min_td=m)] with an integral [m]:
    [ValueError] when [m > 3600], otherwise a date in
    [[date + m, date + 3600]]. *)
Theorem random_date_from_min_window t m s :
  match Util.random_date_from t (Some (inject_Z m)) None s with
  | Ok v _ => (m <= 3600)%Z /\ t + inject_Z m <= v /\ v <= t + 3600
  | Raise e => e = ValueError /\ (3600 < m)%Z
  | OutOfFuel => False
  end.
Proof. apply rdf_min. Qed.

(** Extra X5: [random_date_from(date, max_td=m)] with an integral [m]:
    [ValueError] when [m < 0], otherwise a date in [[date, date + m]]. *)
Theorem random_date_from_max_window t m s :
  match Util.random_date_from t None (Some (inject_Z m)) s with
  | Ok v _ => (0 <= m)%Z /\ t <= v /\ v <= t + inject_Z m
  | Raise e => e = ValueError /\ (m < 0)%Z
  | OutOfFuel => False
  end.
Proof. apply rdf_max. Qed.

(** Extra X7: [point_within(boundary)] returns a point the boundary contains. *)
Theorem point_within_in_boundary fuel bd s q s' :
  Geometry.point_within fuel bd s = Ok q s' -> contains bd q = true.
Proof. apply point_within_inside. Qed.

Lemma point_within_in_boundary_witness :
  match Geometry.point_within 10 unit_square (state_of [] [1 # 2; 1 # 4]) with
  | Ok q _ => contains unit_square q = true
  | _ => False
  end.
Proof.
  destruct (Geometry.point_within 10 unit_square (state_of [] [1 # 2; 1 # 4]))
    as [q s'| |] eqn:E.
  - exact (point_within_in_boundary 10 unit_square _ q s' E).
  - vm_compute in E. discriminate E.
  - vm_compute in E. discriminate E.
Defined.

(** Extra X8: [start_service(devices, start_time)] makes one
    [available:service_start] event per device, each within two hours
    before and one hour after [start_time], at a point of the boundary. *)
Theorem start_service_events fuel g devs t0 s evs s' :
  Provider.start_service fuel g devs t0 s = Ok evs s' ->
  List.length evs = List.length devs /\
  Forall (fun e => event_type e = "available" /\ event_type_reason e = "service_start" /\
            t0 - 7200 <= event_time e /\ event_time e <= t0 + 3600 /\
            contains (boundary g) (f_point (event_location e)) = true) evs.
Proof. apply start_service_times. Qed.

Lemma start_service_events_witness :
  match Provider.start_service 10 gen_square [O; 1%nat] 28800
          (state_of [bicycle; scooter] [1 # 2; 1 # 2; 1 # 2; 1 # 2]) with
  | Ok evs _ => List.length evs = 2%nat /\
      Forall (fun e => event_type e = "available" /\ event_type_reason e = "service_start" /\
                28800 - 7200 <= event_time e /\ event_time e <= 28800 + 3600 /\
                contains (boundary gen_square) (f_point (event_location e)) = true) evs
  | _ => False
  end.
Proof.
  destruct (Provider.start_service 10 gen_square [O; 1%nat] 28800
              (state_of [bicycle; scooter] [1 # 2; 1 # 2; 1 # 2; 1 # 2])) as [evs s'| |] eqn:E.
  - exact (start_service_events 10 gen_square [O; 1%nat] 28800 _ evs s' E).
  - vm_compute in E. discriminate E.
  - vm_compute in E. discriminate E.
Defined.

(** Extra X9: [start_service] over distinct devices makes the events in
    the order of the devices, each carrying its device's id, and charges
    every device with a battery to [1.0]; the other objects of the heap
    keep their battery. *)
Theorem start_service_charges fuel g devs t0 s evs s' :
  Provider.start_service fuel g devs t0 s = Ok evs s' -> NoDup devs ->
  heap_frame (fun r => In r devs) (heap s) (heap s') /\
  Forall2 (fun r e => device_id (sc_device e) = id_at (heap s) r /\
             event_type e = "available" /\ event_type_reason e = "service_start") devs evs /\
  (forall r d, In r devs -> nth_error (heap s) r = Some d ->
     nth_error (heap s') r =
       Some (set_battery d (if Provider.has_battery d then Some 1 else battery_pct d))).
Proof.
  intros H Hnd. destruct (start_service_spec _ _ _ _ _ _ _ H Hnd) as (F & F2 & B).
  split; [exact F|]. split; [|exact B].
  eapply Forall2_impl; [|exact F2]. cbv beta. intros r e (? & ? & ? & _). auto.
Qed.

Lemma start_service_charges_witness :
  match Provider.start_service 10 gen_square [O; 1%nat] 28800
          (state_of [bicycle; low_scooter] [1 # 2; 1 # 2; 1 # 2; 1 # 2]) with
  | Ok evs s' =>
      heap_frame (fun r => In r [O; 1%nat]) [bicycle; low_scooter] (heap s') /\
      Forall2 (fun r e => device_id (sc_device e) = id_at [bicycle; low_scooter] r /\
                 event_type e = "available" /\ event_type_reason e = "service_start")
              [O; 1%nat] evs /\
      (forall r d, In r [O; 1%nat] -> nth_error [bicycle; low_scooter] r = Some d ->
         nth_error (heap s') r =
           Some (set_battery d (if Provider.has_battery d then Some 1 else battery_pct d)))
  | _ => False
  end.
Proof.
  destruct (Provider.start_service 10 gen_square [O; 1%nat] 28800
              (state_of [bicycle; low_scooter] [1 # 2; 1 # 2; 1 # 2; 1 # 2]))
    as [evs s'| |] eqn:E.
  - apply (start_service_charges 10 gen_square [O; 1%nat] 28800 _ evs s' E).
    repeat constructor; cbn; intuition discriminate.
  - vm_compute in E. discriminate E.
  - vm_compute in E. discriminate E.
Defined.

(** Extra X10: [end_service(devices, end_time, locations)] makes one
    [removed:service_end] event per device, each within two hours after
    [end_time]; without [locations], at a point of the boundary. *)
Theorem end_service_events fuel g devs end_t locations s evs s' :
  Provider.end_service fuel g devs end_t locations s = Ok evs s' ->
  List.length evs = List.length devs /\
  Forall (fun e => event_type e = "removed" /\ event_type_reason e = "service_end" /\
            end_t <= event_time e /\ event_time e <= end_t + 7200 /\
            (locations = None -> contains (boundary g) (f_point (event_location e)) = true)) evs.
Proof. apply end_service_times. Qed.

Lemma end_service_events_witness :
  match Provider.end_service 10 gen_square [O] 36000 None
          (state_of [bicycle] [1 # 2; 1 # 2; 1 # 2; 1 # 2]) with
  | Ok evs _ => List.length evs = 1%nat /\
      Forall (fun e => event_type e = "removed" /\ event_type_reason e = "service_end" /\
                36000 <= event_time e /\ event_time e <= 36000 + 7200 /\
                (@None (list feature) = None ->
                 contains (boundary gen_square) (f_point (event_location e)) = true)) evs
  | _ => False
  end.
Proof.
  destruct (Provider.end_service 10 gen_square [O] 36000 None
              (state_of [bicycle] [1 # 2; 1 # 2; 1 # 2; 1 # 2])) as [evs s'| |] eqn:E.
  - exact (end_service_events 10 gen_square [O] 36000 None _ evs s' E).
  - vm_compute in E. discriminate E.
  - vm_compute in E. discriminate E.
Defined.

(** Extra X11: [end_service] given [locations], over devices with distinct
    ids, leaves the objects alone and makes the events in the order of the
    devices, each carrying its device's id, after [end_time] and at the
    point of the location of the device's index. *)
Theorem end_service_at_locations fuel g devs end_t locs s evs s' :
  Provider.end_service fuel g devs end_t (Some locs) s = Ok evs s' ->
  NoDup (map (id_at (heap s)) devs) ->
  heap s' = heap s /\
  Forall2 (fun r e => device_id (sc_device e) = id_at (heap s) r) devs evs /\
  (forall k, (k < List.length devs)%nat ->
     event_type (nth k evs sc0) = "removed" /\
     event_type_reason (nth k evs sc0) = "service_end" /\
     end_t <= event_time (nth k evs sc0) /\
     f_point (event_location (nth k evs sc0)) = f_point (nth k locs feat0)).
Proof. apply end_service_spec. Qed.

Lemma end_service_at_locations_witness :
  match Provider.end_service 10 gen_square [O; 1%nat] 36000 (Some [feat0; feat1])
          (state_of [bicycle; scooter] [1 # 2; 1 # 2]) with
  | Ok evs s' =>
      heap s' = [bicycle; scooter] /\
      Forall2 (fun r e => device_id (sc_device e) = id_at [bicycle; scooter] r) [O; 1%nat] evs /\
      (forall k, (k < 2)%nat ->
         event_type (nth k evs sc0) = "removed" /\
         event_type_reason (nth k evs sc0) = "service_end" /\
         36000 <= event_time (nth k evs sc0) /\
         f_point (event_location (nth k evs sc0)) = f_point (nth k [feat0; feat1] feat0))
  | _ => False
  end.
Proof.
  destruct (Provider.end_service 10 gen_square [O; 1%nat] 36000 (Some [feat0; feat1])
              (state_of [bicycle; scooter] [1 # 2; 1 # 2])) as [evs s'| |] eqn:E.
  - apply (end_service_at_locations 10 gen_square [O; 1%nat] 36000 [feat0; feat1] _ evs s' E).
    cbn. repeat constructor; cbn; intuition discriminate.
  - vm_compute in E. discriminate E.
  - vm_compute in E. discriminate E.
Defined.

Lemma device_trip_record_witness :
  match Provider.device_trip east_destination isqrt 10 gen_square O None (Some feat0) None
          (Some 0) 0 TD_HOUR None (state_of [bicycle] [1 # 2; 1 # 2; 1 # 2; 1 # 2]) with
  | Ok (status, tr) _ =>
      exists pu do_, status = [pu; do_] /\
        event_type pu = "reserved" /\ event_type_reason pu = "user_pick_up" /\
        event_type do_ = "available" /\ event_type_reason do_ = "user_drop_off" /\
        start_time tr = event_time pu /\ end_time tr = event_time do_ /\
        event_time pu <= event_time do_ /\
        route tr = (event_location pu, event_location do_) /\
        trip_device tr = set_battery (sc_device do_) None /\
        battery_pct (trip_device tr) = None /\ dev_event_time (trip_device tr) = None /\
        trip_publication_time tr =
          (if version_ge_0_3_0 gen_square then Some (end_time tr) else None)
  | _ => False
  end.
Proof.
  destruct (Provider.device_trip east_destination isqrt 10 gen_square O None (Some feat0) None
              (Some 0) 0 TD_HOUR None (state_of [bicycle] [1 # 2; 1 # 2; 1 # 2; 1 # 2]))
    as [[status tr] s'| |] eqn:E.
  - exact (device_trip_record _ _ _ _ _ _ _ _ _ _ _ _ _ status tr s' E).
  - vm_compute in E. discriminate E.
  - vm_compute in E. discriminate E.
Defined.

Lemma isqrt_zero q : q == 0 -> isqrt q == 0.
Proof. intros Hq. unfold isqrt. rewrite Hq. reflexivity. Qed.

Lemma device_trip_zero_speed_witness :
  Provider.device_trip east_destination isqrt 10 gen_square O (Some 100) (Some feat0) None
    None 0 0 (Some 0) (state_of [scooter] []) = Raise ZeroDivisionError.
Proof.
  apply (device_trip_zero_speed east_destination isqrt 10 gen_square O 100 feat0 None None 0 0
           (state_of [scooter] []) scooter).
  - exact isqrt_zero.
  - reflexivity.
  - reflexivity.
Defined.

(** Extra X14: [device_recharged(device, event_time, event_location)]
    charges the device to [1.0] (the device object in the heap gets
    [battery_pct = 1.0], nothing else changes) and makes an
    [available:maintenance_drop_off] event at the given time and location
    whose device is the charged device without [event_time]. *)
Theorem device_recharged_event g r t loc s e s' :
  Provider.device_recharged g r t loc s = Ok e s' ->
  (exists d, nth_error (heap s) r = Some d /\
             heap s' = list_set (heap s) r (set_battery d (Some 1)) /\
             sc_device e = set_event_time (set_battery d (Some 1)) None) /\
  event_type e = "available" /\ event_type_reason e = "maintenance_drop_off" /\
  event_time e = t /\ event_location e = loc /\ battery_pct (sc_device e) = Some 1.
Proof.
  intros H. split; [|exact (device_recharged_battery _ _ _ _ _ _ _ H)].
  unfold Provider.device_recharged in H.
  apply bind_inv in H as (u & s1 & Hu & H). destruct u.
  apply recharge_battery_inv in Hu as (d0 & Hd0 & E1).
  apply bind_inv in H as (d & s2 & Hd & H). apply deref_inv in Hd as [Hd ->].
  apply ret_inv in H as [<- <-].
  rewrite E1, (nth_error_list_set_eq _ _ _ _ Hd0) in Hd. injection Hd as <-.
  exists d0. split; [exact Hd0|]. split; [exact E1|reflexivity].
Qed.

Lemma device_recharged_event_witness :
  match Provider.device_recharged gen_square O 100 feat0 (state_of [low_scooter] []) with
  | Ok e s' =>
      (exists d, nth_error (heap (state_of [low_scooter] [])) O = Some d /\
                 heap s' = list_set (heap (state_of [low_scooter] [])) O (set_battery d (Some 1)) /\
                 sc_device e = set_event_time (set_battery d (Some 1)) None) /\
      event_type e = "available" /\ event_type_reason e = "maintenance_drop_off" /\
      event_time e = 100 /\ event_location e = feat0 /\ battery_pct (sc_device e) = Some 1
  | _ => False
  end.
Proof.
  destruct (Provider.device_recharged gen_square O 100 feat0 (state_of [low_scooter] []))
    as [e s'| |] eqn:E.
  - exact (device_recharged_event gen_square O 100 feat0 _ e s' E).
  - vm_compute in E. discriminate E.
  - vm_compute in E. discriminate E.
Defined.

Lemma devices_recharged_hour_witness :
  match Provider.devices_recharged 10 gen_square [O] (Provider.TimeRef 100) Provider.LocNone
          (state_of [low_scooter] [1 # 2; 1 # 2; 1 # 2; 1 # 2]) with
  | Ok evs _ => List.length evs = 1%nat /\
      Forall (fun e => event_type e = "available" /\
                event_type_reason e = "maintenance_drop_off" /\
                100 <= event_time e /\
                event_time e <= inject_Z (3600 * (Qfloor 100 / 3600 + 1)) +
                                (100 - inject_Z (Qfloor 100)) /\
                contains (boundary gen_square) (f_point (event_location e)) = true /\
                battery_pct (sc_device e) = Some 1) evs
  | _ => False
  end.
Proof.
  destruct (Provider.devices_recharged 10 gen_square [O] (Provider.TimeRef 100) Provider.LocNone
              (state_of [low_scooter] [1 # 2; 1 # 2; 1 # 2; 1 # 2])) as [evs s'| |] eqn:E.
  - exact (devices_recharged_hour 10 gen_square [O] 100 _ evs s' E).
  - vm_compute in E. discriminate E.
  - vm_compute in E. discriminate E.
Defined.

Lemma devices_recharged_feature_three_witness :
  Provider.devices_recharged 10 gen_square [O; 1%nat; 2%nat] (Provider.TimeRef 100)
    (Provider.LocOne feat0) (state_of [bicycle; scooter; low_scooter] []) = Raise KeyError /\
  Provider.devices_recharged 10 gen_square [O; 1%nat; 2%nat] (Provider.TimeList [100; 200; 300])
    (Provider.LocOne feat0) (state_of [bicycle; scooter; low_scooter] []) = Raise KeyError.
Proof.
  split.
  - apply (devices_recharged_feature_three 10 gen_square O 1 2 (Provider.TimeRef 100) feat0
             (state_of [bicycle; scooter; low_scooter] []) bicycle).
    + reflexivity.
    + exact I.
  - apply (devices_recharged_feature_three 10 gen_square O 1 2 (Provider.TimeList [100; 200; 300])
             feat0 (state_of [bicycle; scooter; low_scooter] []) bicycle).
    + reflexivity.
    + reflexivity.
Defined.

Lemma devices_recharged_feature_witness :
  match Provider.devices_recharged 10 gen_square [O] (Provider.TimeRef 100)
          (Provider.LocOne feat1) (state_of [bicycle] [1 # 2]) with
  | Ok evs _ => List.length evs = 1%nat /\
      Forall (fun e => event_type_reason e = "maintenance_drop_off" /\
                       event_location e = feat1) evs
  | _ => False
  end.
Proof.
  destruct (Provider.devices_recharged 10 gen_square [O] (Provider.TimeRef 100)
              (Provider.LocOne feat1) (state_of [bicycle] [1 # 2])) as [evs s'| |] eqn:E.
  - apply (devices_recharged_feature 10 gen_square [O] (Provider.TimeRef 100) feat1
             (state_of [bicycle] [1 # 2]) evs s').
    + discriminate.
    + exact E.
  - vm_compute in E. discriminate E.
  - vm_compute in E. discriminate E.
Defined.

(** Extra X18: [devices_recharged(devices, times)] with a list of times,
    over distinct devices of the heap, makes the events in the order of the
    devices, each carrying its device's id, a [maintenance_drop_off] at the
    time of the device's index; only those devices' objects change, and
    only in their battery. *)
Theorem devices_recharged_given_times fuel g recharged ts s evs s' :
  Provider.devices_recharged fuel g recharged (Provider.TimeList ts) Provider.LocNone s
    = Ok evs s' ->
  Forall (fun r => (r < List.length (heap s))%nat) recharged ->
  NoDup (map (id_at (heap s)) recharged) ->
  heap_frame (fun r => In r recharged) (heap s) (heap s') /\
  Forall2 (fun r e => device_id (sc_device e) = id_at (heap s) r) recharged evs /\
  (forall k, (k < List.length recharged)%nat ->
     event_type_reason (nth k evs sc0) = "maintenance_drop_off" /\
     event_time (nth k evs sc0) = nth k ts 0).
Proof. apply devices_recharged_spec. Qed.

Lemma devices_recharged_given_times_witness :
  match Provider.devices_recharged 10 gen_square [1%nat; O] (Provider.TimeList [100; 200])
          Provider.LocNone (state_of [bicycle; low_scooter] [1 # 2; 1 # 2; 1 # 2; 1 # 2]) with
  | Ok evs s' =>
      heap_frame (fun r => In r [1%nat; O]) [bicycle; low_scooter] (heap s') /\
      Forall2 (fun r e => device_id (sc_device e) = id_at [bicycle; low_scooter] r)
              [1%nat; O] evs /\
      (forall k, (k < 2)%nat ->
         event_type_reason (nth k evs sc0) = "maintenance_drop_off" /\
         event_time (nth k evs sc0) = nth k [100; 200] 0)
  | _ => False
  end.
Proof.
  destruct (Provider.devices_recharged 10 gen_square [1%nat; O] (Provider.TimeList [100; 200])
              Provider.LocNone (state_of [bicycle; low_scooter] [1 # 2; 1 # 2; 1 # 2; 1 # 2]))
    as [evs s'| |] eqn:E.
  - apply (devices_recharged_given_times 10 gen_square [1%nat; O] [100; 200] _ evs s' E).
    + repeat constructor.
    + cbn. repeat constructor; cbn; intuition discriminate.
  - vm_compute in E. discriminate E.
  - vm_compute in E. discriminate E.
Defined.

Lemma service_hour_idle_witness :
  match Provider.service_hour east_destination isqrt 10 gen_square [O; 1%nat] 0 8
          [0; 0] [feat0; feat0] 1 (state_of [low_scooter; bicycle] [1 # 2]) with
  | Ok (act', ts', ls', rem, chg, trips) s' =>
      trips = [] /\ Forall (fun e => event_type_reason e = "low_battery") chg
  | _ => False
  end.
Proof.
  destruct (Provider.service_hour east_destination isqrt 10 gen_square [O; 1%nat] 0 8
              [0; 0] [feat0; feat0] 1 (state_of [low_scooter; bicycle] [1 # 2]))
    as [[[[[[act' ts'] ls'] rem] chg] trips] s'| |] eqn:E.
  - eapply (service_hour_idle east_destination isqrt 10 gen_square [O; 1%nat] 0 8
             [0; 0] [feat0; feat0] 1 _ act' ts' ls' rem chg trips s').
    + lra.
    + exact E.
  - vm_compute in E. discriminate E.
  - vm_compute in E. discriminate E.
Defined.

Lemma service_hour_busy_witness :
  match Provider.service_hour east_destination isqrt 10 gen_square [O; 1%nat] 0 8
          [0; 0] [feat0; feat0] 0 (state_of [low_scooter; bicycle] [1 # 2; 1 # 2; 1 # 2]) with
  | Ok (act', ts', ls', rem, chg, trips) s' =>
      List.length act' = List.length trips /\
      (List.length act' + List.length rem = 2)%nat
  | _ => False
  end.
Proof.
  destruct (Provider.service_hour east_destination isqrt 10 gen_square [O; 1%nat] 0 8
              [0; 0] [feat0; feat0] 0 (state_of [low_scooter; bicycle] [1 # 2; 1 # 2; 1 # 2]))
    as [[[[[[act' ts'] ls'] rem] chg] trips] s'| |] eqn:E.
  - eapply (service_hour_busy east_destination isqrt 10 gen_square [O; 1%nat] 0 8
             [0; 0] [feat0; feat0] 0 _ act' ts' ls' rem chg trips s').
    + lra.
    + exact E.
  - vm_compute in E. discriminate E.
  - vm_compute in E. discriminate E.
Defined.

Lemma service_day_closed_before_open_witness :
  match Provider.service_day east_destination isqrt 10 gen_square [O] 0 10 8 0
          (state_of [bicycle] day_tape) with
  | Ok (chg, trips) _ =>
      trips = [] /\
      Forall (fun e => event_type_reason e = "service_start" \/
                       event_type_reason e = "service_end") chg
  | _ => False
  end.
Proof.
  destruct (Provider.service_day east_destination isqrt 10 gen_square [O] 0 10 8 0
              (state_of [bicycle] day_tape)) as [[chg trips] s'| |] eqn:E.
  - eapply (service_day_closed_before_open east_destination isqrt 10 gen_square [O] 0 10 8 0
             _ chg trips s').
    + lia.
    + exact E.
  - vm_compute in E. discriminate E.
  - vm_compute in E. discriminate E.
Defined.

Lemma service_day_bad_inactivity_witness :
  Provider.service_day east_destination isqrt 10 gen_square [O] 0 8 10 2
    (state_of [bicycle] []) = Raise ValueError.
Proof.
  apply service_day_bad_inactivity. right. vm_compute. reflexivity.
Defined.

(** Extra X23: one recharge step of [service_day] over a removed pool of
    distinct devices: the recharged devices and the new pool together are
    a permutation of the old pool; the recharged devices join the active
    list; each gets a [maintenance_drop_off] event, in order, at the time it
    was removed; the times and locations lists grow by the events' times and
    locations; only the recharged objects change, and only in their
    battery. *)
Theorem recharge_step_moves fuel g removed active times locs s recharged active' times' locs'
    removed' events s' :
  Provider.recharge_step fuel g removed active times locs s
    = Ok (recharged, active', times', locs', removed', events) s' ->
  Forall (fun r => (r < List.length (heap s))%nat) removed ->
  NoDup (map (id_at (heap s)) removed) ->
  exists rest,
    Permutation (app recharged rest) removed /\ Permutation removed' rest /\
    active' = app active recharged /\
    heap_frame (fun r => In r recharged) (heap s) (heap s') /\
    Forall2 (fun r e => device_id (sc_device e) = id_at (heap s) r) recharged events /\
    (forall k, (k < List.length recharged)%nat ->
       event_type_reason (nth k events sc0) = "maintenance_drop_off" /\
       dev_event_time (nth (nth k recharged O) (heap s) dev0)
         = Some (event_time (nth k events sc0))) /\
    times' = app times (map event_time events) /\
    locs' = app locs (map event_location events).
Proof. apply recharge_step_spec. Qed.

Lemma recharge_step_moves_witness :
  match Provider.recharge_step 10 gen_square [O] [] [] []
          (state_of [removed_bicycle] ([9 # 10; 0] ++ repeat (1 # 2) 6)) with
  | Ok (recharged, active', times', locs', removed', events) s' =>
      exists rest,
        Permutation (app recharged rest) [O] /\ Permutation removed' rest /\
        active' = app [] recharged /\
        heap_frame (fun r => In r recharged) [removed_bicycle] (heap s') /\
        Forall2 (fun r e => device_id (sc_device e) = id_at [removed_bicycle] r)
                recharged events /\
        (forall k, (k < List.length recharged)%nat ->
           event_type_reason (nth k events sc0) = "maintenance_drop_off" /\
           dev_event_time (nth (nth k recharged O) [removed_bicycle] dev0)
             = Some (event_time (nth k events sc0))) /\
        times' = app [] (map event_time events) /\
        locs' = app [] (map event_location events)
  | _ => False
  end.
Proof.
  destruct (Provider.recharge_step 10 gen_square [O] [] [] []
              (state_of [removed_bicycle] ([9 # 10; 0] ++ repeat (1 # 2) 6)))
    as [[[[[[recharged active'] times'] locs'] removed'] events] s'| |] eqn:E.
  - apply (recharge_step_moves 10 gen_square [O] [] [] [] _ recharged active' times' locs'
             removed' events s' E).
    + repeat constructor.
    + repeat constructor. intros [].
  - vm_compute in E. discriminate E.
  - vm_compute in E. discriminate E.
Defined.

Lemma devices_spec_witness :
  match Provider.devices (fun _ => "uuid") ["bicycle"; "scooter"] ["human"; "electric"] 2
          "Provider" None (state_of [] [1 # 3; 1 # 2; 0; 1 # 2; 1 # 2; 1 # 2]) with
  | Ok rs s' =>
      rs = seq 0 2 /\ List.length (heap s') = 2%nat /\
      (forall r, (r < 0)%nat -> nth_error (heap s') r = @nth_error device [] r) /\
      exists p, (forall q, @None string = Some q -> q <> EmptyString -> p = q) /\
        Forall (fun r => exists d, nth_error (heap s') r = Some d /\
                   device_made ["bicycle"; "scooter"] ["human"; "electric"] p "Provider" d) rs
  | _ => False
  end.
Proof.
  destruct (Provider.devices (fun _ => "uuid") ["bicycle"; "scooter"] ["human"; "electric"] 2
              "Provider" None (state_of [] [1 # 3; 1 # 2; 0; 1 # 2; 1 # 2; 1 # 2]))
    as [rs s'| |] eqn:E.
  - exact (devices_spec (fun _ => "uuid") ["bicycle"; "scooter"] ["human"; "electric"] 2
             "Provider" None _ rs s' E).
  - vm_compute in E. discriminate E.
  - vm_compute in E. discriminate E.
Defined.

Lemma devices_no_vehicle_types_witness :
  Provider.devices (fun _ => "uuid") [] ["human"] 2 "Provider" None (state_of [] [])
    = Raise IndexError.
Proof. apply devices_no_vehicle_types. lia. Defined.

Lemma replace_hour_hour_witness :
  match Provider.replace_hour 30000 10 (state_of [] []) with
  | Ok t _ => Provider.hour_of t = 10%Z /\
      Provider.minute_of t = Provider.minute_of 30000 /\
      Provider.second_of t = Provider.second_of 30000
  | _ => False
  end.
Proof.
  destruct (Provider.replace_hour 30000 10 (state_of [] [])) as [t s'| |] eqn:E.
  - exact (replace_hour_hour 30000 10 _ t s' E).
  - vm_compute in E. discriminate E.
  - vm_compute in E. discriminate E.
Defined.
